(** * OBDII_OLED: the telemetry acquisition task and its integrator

    A shallow embedding of the ESP32 sketch [ESP32_OBDII_OLED.ino]: the
    state machine of [obdTask] (Core 0), the shared globals it publishes
    under [dataMutex], and the efficiency computation of [loop] (Core 1).

    Numbers are modelled as the sketch has them:
    - [float_t]/[float] is IEEE-754 binary32 and [double] is binary64, both
      carried by [spec_float] with the rounding functions of the standard
      library's [SpecFloat] at (prec, emax) = (24, 128) and (53, 1024);
      on the ESP32 (FLT_EVAL_METHOD = 0) [float_t] is [float];
    - [uint32_t] is a [Z] in [0, 2^32) with the wrap-around written out. *)

From Stdlib Require Import ZArith Bool List Lia QArith Qabs String.
From Stdlib Require Import Floats.SpecFloat.
Import ListNotations.
Open Scope Z_scope.

(* ================================================================== *)
(** ** IEEE-754 arithmetic as the compiled sketch performs it          *)
(* ================================================================== *)

Module IEEE.

Definition float32 := spec_float.
Definition float64 := spec_float.

Definition b32_add : float32 -> float32 -> float32 := SFadd 24 128.
Definition b32_mul : float32 -> float32 -> float32 := SFmul 24 128.
Definition b32_div : float32 -> float32 -> float32 := SFdiv 24 128.
Definition b64_add : float64 -> float64 -> float64 := SFadd 53 1024.
Definition b64_mul : float64 -> float64 -> float64 := SFmul 53 1024.
Definition b64_div : float64 -> float64 -> float64 := SFdiv 53 1024.

(** The C comparison [a > b]; false as soon as one side is a NaN. *)
Definition fgt (a b : spec_float) : bool := SFltb b a.
Definition flt (a b : spec_float) : bool := SFltb a b.
Definition fge (a b : spec_float) : bool := SFleb b a.
Definition feq (a b : spec_float) : bool := SFeqb a b.

Definition is_nan (x : spec_float) : bool :=
  match x with S754_nan => true | _ => false end.

(** Implicit conversion [float -> double]: exact, renormalised to the
    binary64 mantissa width. *)
Definition f2d (x : float32) : float64 :=
  match x with
  | S754_finite s m e => binary_round 53 1024 s m e
  | _ => x
  end.

(** Conversion [double -> float] on assignment: rounds to nearest even. *)
Definition d2f (x : float64) : float32 :=
  match x with
  | S754_finite s m e => binary_round 24 128 s m e
  | _ => x
  end.

(** Conversion of a non-negative integer ([uint32_t], or an [int]
    literal) to [double] and to [float]. *)
Definition u2d (n : Z) : float64 := binary_normalize 53 1024 n 0 false.
Definition i2f (n : Z) : float32 := binary_normalize 24 128 n 0 false.

(** A decimal [double] literal [num / den] ([den] a power of ten): the
    compiler takes the nearest binary64, which is what one correctly
    rounded division of two exact integers yields. *)
Definition dec64 (num den : Z) : float64 := b64_div (u2d num) (u2d den).

Definition zero32 : float32 := S754_zero false.
Definition zero64 : float64 := S754_zero false.

(** [round] of <math.h>: nearest integer, halfway cases away from zero.
    For a finite [m * 2^e] with [e < 0] the integer is
    [(m + 2^(-e-1)) >> -e]; it has at most 53 bits, so the final
    normalisation is exact. *)
Definition c_round (x : float64) : float64 :=
  match x with
  | S754_finite s m e =>
      if 0 <=? e then x
      else
        match Z.shiftr (Zpos m + Z.shiftl 1 (- e - 1)) (- e) with
        | Z0 => S754_zero s
        | Zpos k => binary_round 53 1024 s k 0
        | Zneg _ => S754_nan
        end
  | _ => x
  end.

(** The rational a finite float denotes (0 for the special values). *)
Definition SF2Q (x : spec_float) : Q :=
  match x with
  | S754_finite s m e =>
      ((if s then -1 else 1) * inject_Z (Zpos m) * Qpower 2 e)%Q
  | _ => 0%Q
  end.

(** Neither a negative number nor minus infinity (a zero of either sign
    and a NaN qualify). *)
Definition unsigned (x : spec_float) : bool :=
  match x with
  | S754_infinity true | S754_finite true _ _ => false
  | _ => true
  end.

(** A finite value is stored with its canonical mantissa and exponent. *)
Definition valid_at (prec emax : Z) (x : spec_float) : Prop :=
  valid_binary prec emax x = true.

Definition valid32 : float32 -> Prop := valid_at 24 128.
Definition valid64 : float64 -> Prop := valid_at 53 1024.

(** The value [binary_round_aux] builds from its last mantissa and
    exponent. *)
Definition pack_at (prec emax : Z) (s : bool) (M e : Z) : spec_float :=
  match M with
  | Z0 => S754_zero s
  | Zpos m =>
      if e <=? emax - prec then S754_finite s m e else S754_infinity s
  | Zneg _ => S754_nan
  end.

(** One pass of [shr_fexp] leaves either nothing at the smallest
    exponent, or a mantissa that is canonical at the new exponent. *)
Definition settled_at (prec emax : Z) (M e : Z) : Prop :=
  (M = 0 /\ e = emin prec emax)
  \/ (0 < M /\ fexp prec emax (Zdigits2 M + e) = e).

(** A zero, or a finite number below [2^B] in magnitude. *)
Definition within (B : Z) (x : spec_float) : Prop :=
  match x with
  | S754_zero _ => True
  | S754_finite _ m e => Zdigits2 (Zpos m) + e <= B
  | _ => False
  end.

End IEEE.
Import IEEE.

(* ================================================================== *)
(** ** uint32_t                                                        *)
(* ================================================================== *)

Definition UINT32_MOD : Z := 2 ^ 32.
Definition sub32 (a b : Z) : Z := (a - b) mod UINT32_MOD.
Definition add32 (a b : Z) : Z := (a + b) mod UINT32_MOD.

(* ================================================================== *)
(** ** Constants of the sketch                                         *)
(* ================================================================== *)

Definition lit_2_0 : float64 := u2d 2.
Definition lit_3600000_0 : float64 := u2d 3600000.
Definition lit_0_33094 : float64 := dec64 33094 100000.
Definition lit_1_08 : float64 := dec64 108 100.
Definition lit_minus_1_0 : float32 := SFopp (i2f 1).
Definition lit_14_7 : float64 := dec64 147 10.
Definition lit_6_17 : float64 := dec64 617 100.
Definition lit_4_54 : float64 := dec64 454 100.
Definition lit_0_621371 : float64 := dec64 621371 1000000.

(* ================================================================== *)
(** ** The external collaborators                                      *)
(* ================================================================== *)

(** [myELM327.nb_rx_state] after a non-blocking query (ELMduino): the
    sketch only distinguishes success, "still receiving", and the rest. *)
Inductive nb_rx_state : Type :=
  | ELM_SUCCESS
  | ELM_GETTING_MSG
  | ELM_ERROR (code : Z).

(** One pass through the body of [for (;;)] in [obdTask] sees either a
    connected port, the reply of the single query the current state
    issues and the one [millis()] reading that state takes, or a port that
    is not connected. [loop] on the other core writes [global_mode]
    between passes. *)
Inductive Event : Type :=
  | Poll (reply : float32) (rx : nb_rx_state) (now : Z)
  | LinkLost
  | LoopSetsMode (mode : Z).

(* ================================================================== *)
(** ** The sketch: globals, statics of [obdTask], one pass of the loop *)
(* ================================================================== *)

Inductive ObdState : Type :=
  | OBD_STATE_KPH
  | OBD_STATE_MAF
  | OBD_STATE_RPM
  | OBD_STATE_LOAD
  | OBD_STATE_FUEL
  | OBD_STATE_DTC.

(** The [volatile] globals, read and written under [dataMutex]. *)
Record Globals : Type := mkGlobals {
  global_vss_kph : float32;
  global_maf : float32;
  global_rpm : float32;
  global_load : float32;
  global_fuel : float32;
  global_totalDistanceTraveled : float64;
  global_totalDistanceTraveledTimer : Z;
  global_totalFuelConsumed : float64;
  global_lastDataUpdate : Z;
  global_mode : Z
}.

(** The [static] locals of [obdTask]. *)
Record Statics : Type := mkStatics {
  lastSuccessfulMpgPollTime : Z;
  currentState : ObdState;
  temp_kph : float32;
  prev_kph : float32;
  prev_maf : float32;
  lastSpeedTime : Z;
  lastFuelTime : Z
}.

Record Machine : Type := mkMachine {
  statics : Statics;
  globals : Globals
}.

(** The two copies of the state-machine sketch differ in two places:
    the calibrated copy multiplies the MAF reading by [FUEL_CORRECTION]
    and keeps polling speed while the drag-timer mode (5) is selected. *)
Record Sketch : Type := mkSketch {
  FUEL_CORRECTION : option float64;
  drag_mode_polls_speed_only : bool
}.

Definition sketch_plain : Sketch :=
  {| FUEL_CORRECTION := None; drag_mode_polls_speed_only := false |}.

Definition sketch_calibrated : Sketch :=
  {| FUEL_CORRECTION := Some lit_1_08; drag_mode_polls_speed_only := true |}.

Definition initial_globals : Globals :=
  {| global_vss_kph := lit_minus_1_0;
     global_maf := lit_minus_1_0;
     global_rpm := lit_minus_1_0;
     global_load := lit_minus_1_0;
     global_fuel := lit_minus_1_0;
     global_totalDistanceTraveled := zero64;
     global_totalDistanceTraveledTimer := 0;
     global_totalFuelConsumed := zero64;
     global_lastDataUpdate := 0;
     global_mode := 1 |}.

Definition initial_statics : Statics :=
  {| lastSuccessfulMpgPollTime := 0;
     currentState := OBD_STATE_KPH;
     temp_kph := zero32;
     prev_kph := zero32;
     prev_maf := zero32;
     lastSpeedTime := 0;
     lastFuelTime := 0 |}.

Definition initial_machine : Machine :=
  {| statics := initial_statics; globals := initial_globals |}.

(** [x > 0] for a [float_t] [x]: the [int] literal is converted to float. *)
Definition positive32 (x : float32) : bool := fgt x zero32.

(** *** case OBD_STATE_KPH *)

(** [time_delta_ms]: 0 unless a previous speed sample exists. *)
Definition kph_time_delta_ms (s : Statics) (now : Z) : Z :=
  if 0 <? lastSpeedTime s then sub32 now (lastSpeedTime s) else 0.

(** [dist_delta] as the SUCCESS branch computes it. *)
Definition kph_dist_delta (s : Statics) (value : float32) (now : Z) : float64 :=
  if 0 <? lastSpeedTime s then
    let time_delta_ms := sub32 now (lastSpeedTime s) in
    let time_hours := b64_div (u2d time_delta_ms) lit_3600000_0 in
    if positive32 value || positive32 (prev_kph s) then
      let avg_speed := d2f (b64_div (f2d (b32_add value (prev_kph s))) lit_2_0) in
      b64_mul (f2d avg_speed) time_hours
    else zero64
  else zero64.

Definition kph_success (cfg : Sketch) (m : Machine) (value : float32) (now : Z)
  : Machine :=
  let s := statics m in
  let g := globals m in
  let dist_delta := kph_dist_delta s value now in
  let time_delta_ms := kph_time_delta_ms s now in
  let g' :=
    {| global_vss_kph := value;
       global_maf := global_maf g;
       global_rpm := global_rpm g;
       global_load := global_load g;
       global_fuel := global_fuel g;
       global_totalDistanceTraveled :=
         b64_add (global_totalDistanceTraveled g) dist_delta;
       global_totalDistanceTraveledTimer :=
         if positive32 value
         then add32 (global_totalDistanceTraveledTimer g) time_delta_ms
         else global_totalDistanceTraveledTimer g;
       global_totalFuelConsumed := global_totalFuelConsumed g;
       global_lastDataUpdate := now;
       global_mode := global_mode g |} in
  let local_mode := global_mode g in
  let next :=
    if drag_mode_polls_speed_only cfg && (local_mode =? 5)
    then OBD_STATE_KPH else OBD_STATE_MAF in
  {| statics :=
       {| lastSuccessfulMpgPollTime := lastSuccessfulMpgPollTime s;
          currentState := next;
          temp_kph := value;
          prev_kph := value;
          prev_maf := prev_maf s;
          lastSpeedTime := now;
          lastFuelTime := lastFuelTime s |};
     globals := g' |}.

(** *** case OBD_STATE_MAF *)

(** [value] of the MAF case: the reply, times [FUEL_CORRECTION] (a double
    product stored back into a [float_t]) where the sketch has it. *)
Definition maf_value (cfg : Sketch) (reply : float32) : float32 :=
  match FUEL_CORRECTION cfg with
  | None => reply
  | Some c => d2f (b64_mul (f2d reply) c)
  end.

(** [fuel_delta] as the SUCCESS branch computes it. *)
Definition maf_fuel_delta (s : Statics) (value : float32) (now : Z) : float64 :=
  if 0 <? lastFuelTime s then
    let time_hours := b64_div (u2d (sub32 now (lastFuelTime s))) lit_3600000_0 in
    if positive32 value || positive32 (prev_maf s) then
      let avg_maf := d2f (b64_div (f2d (b32_add value (prev_maf s))) lit_2_0) in
      let avg_fuel_rate := d2f (b64_mul (f2d avg_maf) lit_0_33094) in
      b64_mul (f2d avg_fuel_rate) time_hours
    else zero64
  else zero64.

Definition maf_success (m : Machine) (value : float32) (now : Z) : Machine :=
  let s := statics m in
  let g := globals m in
  let fuel_delta := maf_fuel_delta s value now in
  let g' :=
    {| global_vss_kph := global_vss_kph g;
       global_maf := value;
       global_rpm := global_rpm g;
       global_load := global_load g;
       global_fuel := global_fuel g;
       global_totalDistanceTraveled := global_totalDistanceTraveled g;
       global_totalDistanceTraveledTimer := global_totalDistanceTraveledTimer g;
       global_totalFuelConsumed :=
         b64_add (global_totalFuelConsumed g) fuel_delta;
       global_lastDataUpdate := now;
       global_mode := global_mode g |} in
  let local_mode := global_mode g in
  let next :=
    if local_mode =? 4 then OBD_STATE_RPM
    else if local_mode =? 6 then OBD_STATE_DTC
    else OBD_STATE_KPH in
  {| statics :=
       {| lastSuccessfulMpgPollTime := lastSuccessfulMpgPollTime s;
          currentState := next;
          temp_kph := temp_kph s;
          prev_kph := prev_kph s;
          prev_maf := value;
          lastSpeedTime := lastSpeedTime s;
          lastFuelTime := now |};
     globals := g' |}.

(** *** cases OBD_STATE_RPM, OBD_STATE_LOAD, OBD_STATE_FUEL *)

Definition with_state (s : Statics) (next : ObdState) : Statics :=
  {| lastSuccessfulMpgPollTime := lastSuccessfulMpgPollTime s;
     currentState := next;
     temp_kph := temp_kph s;
     prev_kph := prev_kph s;
     prev_maf := prev_maf s;
     lastSpeedTime := lastSpeedTime s;
     lastFuelTime := lastFuelTime s |}.

Definition rpm_success (m : Machine) (value : float32) (now : Z) : Machine :=
  let g := globals m in
  {| statics := with_state (statics m) OBD_STATE_LOAD;
     globals :=
       {| global_vss_kph := global_vss_kph g;
          global_maf := global_maf g;
          global_rpm := value;
          global_load := global_load g;
          global_fuel := global_fuel g;
          global_totalDistanceTraveled := global_totalDistanceTraveled g;
          global_totalDistanceTraveledTimer := global_totalDistanceTraveledTimer g;
          global_totalFuelConsumed := global_totalFuelConsumed g;
          global_lastDataUpdate := now;
          global_mode := global_mode g |} |}.

Definition load_success (m : Machine) (value : float32) (now : Z) : Machine :=
  let g := globals m in
  {| statics := with_state (statics m) OBD_STATE_FUEL;
     globals :=
       {| global_vss_kph := global_vss_kph g;
          global_maf := global_maf g;
          global_rpm := global_rpm g;
          global_load := value;
          global_fuel := global_fuel g;
          global_totalDistanceTraveled := global_totalDistanceTraveled g;
          global_totalDistanceTraveledTimer := global_totalDistanceTraveledTimer g;
          global_totalFuelConsumed := global_totalFuelConsumed g;
          global_lastDataUpdate := now;
          global_mode := global_mode g |} |}.

Definition fuel_success (m : Machine) (value : float32) (now : Z) : Machine :=
  let g := globals m in
  {| statics := with_state (statics m) OBD_STATE_KPH;
     globals :=
       {| global_vss_kph := global_vss_kph g;
          global_maf := global_maf g;
          global_rpm := global_rpm g;
          global_load := global_load g;
          global_fuel := value;
          global_totalDistanceTraveled := global_totalDistanceTraveled g;
          global_totalDistanceTraveledTimer := global_totalDistanceTraveledTimer g;
          global_totalFuelConsumed := global_totalFuelConsumed g;
          global_lastDataUpdate := now;
          global_mode := global_mode g |} |}.

Definition goto (m : Machine) (next : ObdState) : Machine :=
  {| statics := with_state (statics m) next; globals := globals m |}.

(** *** the [switch (currentState)] of a connected pass *)

Definition connected_pass (cfg : Sketch) (m : Machine)
  (reply : float32) (rx : nb_rx_state) (now : Z) : Machine :=
  match currentState (statics m) with
  | OBD_STATE_KPH =>
      match rx with
      | ELM_SUCCESS => kph_success cfg m reply now
      | ELM_GETTING_MSG => m
      | ELM_ERROR _ => m                       (* printError(); *)
      end
  | OBD_STATE_MAF =>
      match rx with
      | ELM_SUCCESS => maf_success m (maf_value cfg reply) now
      | ELM_GETTING_MSG => m
      | ELM_ERROR _ => goto m OBD_STATE_KPH
      end
  | OBD_STATE_RPM =>
      match rx with
      | ELM_SUCCESS => rpm_success m reply now
      | ELM_GETTING_MSG => m
      | ELM_ERROR _ => goto m OBD_STATE_LOAD
      end
  | OBD_STATE_LOAD =>
      match rx with
      | ELM_SUCCESS => load_success m reply now
      | ELM_GETTING_MSG => m
      | ELM_ERROR _ => goto m OBD_STATE_FUEL
      end
  | OBD_STATE_FUEL =>
      match rx with
      | ELM_SUCCESS => fuel_success m reply now
      | ELM_GETTING_MSG => m
      | ELM_ERROR _ => goto m OBD_STATE_KPH
      end
  | OBD_STATE_DTC => m                         (* break; no query *)
  end.

(** *** the [else] branch: "Handle Reconnection" *)

(** Under the mutex [global_vss_kph = -1.0]; after the reconnection
    attempt [lastSuccessfulMpgPollTime = 0]. The outcome of
    [ELM_PORT.connect] and [myELM327.begin] lives in the libraries and
    shows in the next pass as [Poll] or [LinkLost]. *)
Definition link_down_pass (m : Machine) : Machine :=
  let s := statics m in
  let g := globals m in
  {| statics :=
       {| lastSuccessfulMpgPollTime := 0;
          currentState := currentState s;
          temp_kph := temp_kph s;
          prev_kph := prev_kph s;
          prev_maf := prev_maf s;
          lastSpeedTime := lastSpeedTime s;
          lastFuelTime := lastFuelTime s |};
     globals :=
       {| global_vss_kph := lit_minus_1_0;
          global_maf := global_maf g;
          global_rpm := global_rpm g;
          global_load := global_load g;
          global_fuel := global_fuel g;
          global_totalDistanceTraveled := global_totalDistanceTraveled g;
          global_totalDistanceTraveledTimer := global_totalDistanceTraveledTimer g;
          global_totalFuelConsumed := global_totalFuelConsumed g;
          global_lastDataUpdate := global_lastDataUpdate g;
          global_mode := global_mode g |} |}.

(** [global_mode = local_mode;] in [loop], under the mutex. *)
Definition loop_sets_mode (m : Machine) (mode : Z) : Machine :=
  let g := globals m in
  {| statics := statics m;
     globals :=
       {| global_vss_kph := global_vss_kph g;
          global_maf := global_maf g;
          global_rpm := global_rpm g;
          global_load := global_load g;
          global_fuel := global_fuel g;
          global_totalDistanceTraveled := global_totalDistanceTraveled g;
          global_totalDistanceTraveledTimer := global_totalDistanceTraveledTimer g;
          global_totalFuelConsumed := global_totalFuelConsumed g;
          global_lastDataUpdate := global_lastDataUpdate g;
          global_mode := mode |} |}.

(** One pass of [for (;;)]; [xSemaphoreTake(dataMutex, portMAX_DELAY)]
    blocks until it holds the mutex, so its critical section always runs. *)
Definition obdTask_pass (cfg : Sketch) (m : Machine) (ev : Event) : Machine :=
  match ev with
  | Poll reply rx now => connected_pass cfg m reply rx now
  | LinkLost => link_down_pass m
  | LoopSetsMode mode => loop_sets_mode m mode
  end.

(** The task over a trace of passes, and the snapshots it publishes (the
    globals after each pass, the starting ones first). *)
Definition obdTask (cfg : Sketch) (m : Machine) (trace : list Event) : Machine :=
  fold_left (obdTask_pass cfg) trace m.

Fixpoint snapshots (cfg : Sketch) (m : Machine) (trace : list Event)
  : list Globals :=
  match trace with
  | [] => [globals m]
  | ev :: rest => globals m :: snapshots cfg (obdTask_pass cfg m ev) rest
  end.

(** Whether a pass publishes a successful parameter poll. *)
Definition poll_succeeded (m : Machine) (ev : Event) : bool :=
  match ev, currentState (statics m) with
  | Poll _ ELM_SUCCESS _, OBD_STATE_DTC => false
  | Poll _ ELM_SUCCESS _, _ => true
  | _, _ => false
  end.

(* ================================================================== *)
(** ** The earlier state-machine copy of the sketch                    *)
(* ================================================================== *)

(** The copy of [obdTask] that integrates both totals in the MAF case from
    [lastSuccessfulMpgPollTime] and has no diagnostics state. Its [enum]
    spells three constants [ODB_STATE_...] while the assignments spell them
    [OBD_STATE_...]; they are the same states here. The MAF success
    branch reads [millis()] twice: [pollCompleteTime], and again inside the
    critical section. *)
Module Early.

Inductive ObdState : Type :=
  | OBD_STATE_KPH
  | OBD_STATE_MAF
  | OBD_STATE_RPM
  | OBD_STATE_LOAD
  | OBD_STATE_FUEL.

Record Globals : Type := mkGlobals {
  global_vss_kph : float32;
  global_maf : float32;
  global_rpm : float32;
  global_load : float32;
  global_fuel : float32;
  global_totalDistanceTraveled : float64;
  global_totalFuelConsumed : float64;
  global_lastDataUpdate : Z;
  global_mode : Z
}.

Record Statics : Type := mkStatics {
  lastSuccessfulMpgPollTime : Z;
  currentState : ObdState;
  temp_kph : float32
}.

Record Machine : Type := mkMachine {
  statics : Statics;
  globals : Globals
}.

Inductive Event : Type :=
  | Poll (reply : float32) (rx : nb_rx_state) (pollCompleteTime publishTime : Z)
  | LinkLost
  | LoopSetsMode (mode : Z).

Definition set_rpm (g : Globals) (v : float32) : Globals :=
  {| global_vss_kph := global_vss_kph g; global_maf := global_maf g;
     global_rpm := v; global_load := global_load g;
     global_fuel := global_fuel g;
     global_totalDistanceTraveled := global_totalDistanceTraveled g;
     global_totalFuelConsumed := global_totalFuelConsumed g;
     global_lastDataUpdate := global_lastDataUpdate g;
     global_mode := global_mode g |}.

Definition set_load (g : Globals) (v : float32) : Globals :=
  {| global_vss_kph := global_vss_kph g; global_maf := global_maf g;
     global_rpm := global_rpm g; global_load := v;
     global_fuel := global_fuel g;
     global_totalDistanceTraveled := global_totalDistanceTraveled g;
     global_totalFuelConsumed := global_totalFuelConsumed g;
     global_lastDataUpdate := global_lastDataUpdate g;
     global_mode := global_mode g |}.

Definition set_fuel (g : Globals) (v : float32) : Globals :=
  {| global_vss_kph := global_vss_kph g; global_maf := global_maf g;
     global_rpm := global_rpm g; global_load := global_load g;
     global_fuel := v;
     global_totalDistanceTraveled := global_totalDistanceTraveled g;
     global_totalFuelConsumed := global_totalFuelConsumed g;
     global_lastDataUpdate := global_lastDataUpdate g;
     global_mode := global_mode g |}.

Definition goto (s : Statics) (next : ObdState) : Statics :=
  {| lastSuccessfulMpgPollTime := lastSuccessfulMpgPollTime s;
     currentState := next;
     temp_kph := temp_kph s |}.

Definition kph_success (m : Machine) (value : float32) (publishTime : Z)
  : Machine :=
  let g := globals m in
  {| statics :=
       {| lastSuccessfulMpgPollTime := lastSuccessfulMpgPollTime (statics m);
          currentState := OBD_STATE_MAF;
          temp_kph := value |};
     globals :=
       {| global_vss_kph := value; global_maf := global_maf g;
          global_rpm := global_rpm g; global_load := global_load g;
          global_fuel := global_fuel g;
          global_totalDistanceTraveled := global_totalDistanceTraveled g;
          global_totalFuelConsumed := global_totalFuelConsumed g;
          global_lastDataUpdate := publishTime;
          global_mode := global_mode g |} |}.

Definition maf_success (m : Machine) (temp_maf : float32)
  (pollCompleteTime publishTime : Z) : Machine :=
  let s := statics m in
  let g := globals m in
  let local_fuelRate_lph := d2f (b64_mul (f2d temp_maf) lit_0_33094) in
  let deltaTime_hours :=
    b64_div (u2d (sub32 pollCompleteTime (lastSuccessfulMpgPollTime s)))
            lit_3600000_0 in
  let fuel_delta_l :=
    if 0 <? lastSuccessfulMpgPollTime s
    then b64_mul (f2d local_fuelRate_lph) deltaTime_hours else zero64 in
  let distance_delta_km :=
    if (0 <? lastSuccessfulMpgPollTime s) && positive32 (temp_kph s)
    then b64_mul (f2d (temp_kph s)) deltaTime_hours else zero64 in
  let local_mode := global_mode g in
  {| statics :=
       {| lastSuccessfulMpgPollTime := pollCompleteTime;
          currentState :=
            if local_mode =? 3 then OBD_STATE_RPM else OBD_STATE_KPH;
          temp_kph := temp_kph s |};
     globals :=
       {| global_vss_kph := global_vss_kph g; global_maf := temp_maf;
          global_rpm := global_rpm g; global_load := global_load g;
          global_fuel := global_fuel g;
          global_totalDistanceTraveled :=
            b64_add (global_totalDistanceTraveled g) distance_delta_km;
          global_totalFuelConsumed :=
            b64_add (global_totalFuelConsumed g) fuel_delta_l;
          global_lastDataUpdate := publishTime;
          global_mode := global_mode g |} |}.

Definition connected_pass (m : Machine) (reply : float32)
  (rx : nb_rx_state) (pollCompleteTime publishTime : Z) : Machine :=
  let s := statics m in
  let g := globals m in
  match currentState s with
  | OBD_STATE_KPH =>
      match rx with
      | ELM_SUCCESS => kph_success m reply publishTime
      | _ => m
      end
  | OBD_STATE_MAF =>
      match rx with
      | ELM_SUCCESS => maf_success m reply pollCompleteTime publishTime
      | ELM_GETTING_MSG => m
      | ELM_ERROR _ => {| statics := goto s OBD_STATE_KPH; globals := g |}
      end
  | OBD_STATE_RPM =>
      match rx with
      | ELM_SUCCESS =>
          {| statics := goto s OBD_STATE_LOAD; globals := set_rpm g reply |}
      | _ => m
      end
  | OBD_STATE_LOAD =>
      match rx with
      | ELM_SUCCESS =>
          {| statics := goto s OBD_STATE_FUEL; globals := set_load g reply |}
      | _ => m
      end
  | OBD_STATE_FUEL =>
      match rx with
      | ELM_SUCCESS =>
          {| statics := goto s OBD_STATE_KPH; globals := set_fuel g reply |}
      | _ => m
      end
  end.

Definition link_down_pass (m : Machine) : Machine :=
  let s := statics m in
  let g := globals m in
  {| statics :=
       {| lastSuccessfulMpgPollTime := 0;
          currentState := currentState s;
          temp_kph := temp_kph s |};
     globals :=
       {| global_vss_kph := lit_minus_1_0; global_maf := global_maf g;
          global_rpm := global_rpm g; global_load := global_load g;
          global_fuel := global_fuel g;
          global_totalDistanceTraveled := global_totalDistanceTraveled g;
          global_totalFuelConsumed := global_totalFuelConsumed g;
          global_lastDataUpdate := global_lastDataUpdate g;
          global_mode := global_mode g |} |}.

Definition loop_sets_mode (m : Machine) (mode : Z) : Machine :=
  let g := globals m in
  {| statics := statics m;
     globals :=
       {| global_vss_kph := global_vss_kph g; global_maf := global_maf g;
          global_rpm := global_rpm g; global_load := global_load g;
          global_fuel := global_fuel g;
          global_totalDistanceTraveled := global_totalDistanceTraveled g;
          global_totalFuelConsumed := global_totalFuelConsumed g;
          global_lastDataUpdate := global_lastDataUpdate g;
          global_mode := mode |} |}.

Definition obdTask_pass (m : Machine) (ev : Event) : Machine :=
  match ev with
  | Poll reply rx t1 t2 => connected_pass m reply rx t1 t2
  | LinkLost => link_down_pass m
  | LoopSetsMode mode => loop_sets_mode m mode
  end.

Definition poll_succeeded (m : Machine) (ev : Event) : bool :=
  match ev with
  | Poll _ ELM_SUCCESS _ _ => true
  | _ => false
  end.

Definition initial_machine : Machine :=
  {| statics :=
       {| lastSuccessfulMpgPollTime := 0;
          currentState := OBD_STATE_KPH;
          temp_kph := zero32 |};
     globals :=
       {| global_vss_kph := lit_minus_1_0; global_maf := lit_minus_1_0;
          global_rpm := lit_minus_1_0; global_load := lit_minus_1_0;
          global_fuel := lit_minus_1_0;
          global_totalDistanceTraveled := zero64;
          global_totalFuelConsumed := zero64;
          global_lastDataUpdate := 0;
          global_mode := 1 |} |}.

Definition obdTask (m : Machine) (trace : list Event) : Machine :=
  fold_left obdTask_pass trace m.

End Early.

(* ================================================================== *)
(** ** [loop]: the instantaneous efficiency of mode 1                  *)
(* ================================================================== *)

(** The copies of [loop] differ in the clamp value, in whether the formula
    is passed through [round] before the clamp, in whether the clamp
    literal is a [double] ([99.0]) or an [int] ([90]), and in whether an
    idling engine shows "00". *)
Record Panel : Type := mkPanel {
  MAX_MPG : Z;
  rounds_formula : bool;
  literal_is_double : bool;
  idle_shows_zeroes : bool
}.

(** [loop] of the state-machine sketch. *)
Definition panel_state_machine : Panel :=
  {| MAX_MPG := 99; rounds_formula := true;
     literal_is_double := true; idle_shows_zeroes := true |}.

(** [loop] of the first sketch (no state machine). *)
Definition panel_first : Panel :=
  {| MAX_MPG := 90; rounds_formula := true;
     literal_is_double := true; idle_shows_zeroes := false |}.

(** [loop] of the simulation copy. *)
Definition panel_simulation : Panel :=
  {| MAX_MPG := 90; rounds_formula := false;
     literal_is_double := false; idle_shows_zeroes := false |}.

Definition isInstantMpgValid (local_kph local_maf : float32) : bool :=
  positive32 local_kph && positive32 local_maf.

(** [(14.7 * 6.17 * 4.54 * local_kph * 0.621371) / (3600 * local_maf / 100)]:
    the numerator is a left-associated [double] product, the denominator
    is evaluated in [float] and promoted for the division. *)
Definition inst_mpg_formula (local_kph local_maf : float32) : float64 :=
  b64_div
    (b64_mul
       (b64_mul (b64_mul (b64_mul lit_14_7 lit_6_17) lit_4_54) (f2d local_kph))
       lit_0_621371)
    (f2d (b32_div (b32_mul (i2f 3600) local_maf) (i2f 100))).

Definition exceeds_max (p : Panel) (inst_mpg : float32) : bool :=
  if literal_is_double p
  then fgt (f2d inst_mpg) (u2d (MAX_MPG p))
  else fgt inst_mpg (i2f (MAX_MPG p)).

Definition max_as_float (p : Panel) : float32 :=
  if literal_is_double p then d2f (u2d (MAX_MPG p)) else i2f (MAX_MPG p).

(** The variable [inst_mpg] after the [if (isInstantMpgValid)] block. *)
Definition inst_mpg (p : Panel) (local_kph local_maf : float32) : float32 :=
  if isInstantMpgValid local_kph local_maf then
    let computed :=
      d2f (if rounds_formula p
           then c_round (inst_mpg_formula local_kph local_maf)
           else inst_mpg_formula local_kph local_maf) in
    if exceeds_max p computed then max_as_float p else computed
  else zero32.

(** What the large field receives: [display.print(round(inst_mpg), 0)], or
    a text. *)
Inductive Printed : Type :=
  | PrintNumber (v : float64)
  | PrintText (s : string).

Definition instant_mpg_field (p : Panel) (local_kph local_maf : float32)
  : Printed :=
  if isInstantMpgValid local_kph local_maf then
    PrintNumber (c_round (f2d (inst_mpg p local_kph local_maf)))
  else if idle_shows_zeroes p && feq local_kph zero32 && positive32 local_maf
  then PrintText "00"
  else PrintText "--".

(* ================================================================== *)
(** ** The integrator as the specification words it                    *)
(* ================================================================== *)

(** [avgSpeed = (prev + curr) / 2], [deltaHours = (tCurr - tPrev) / 3600000],
    [avgSpeed * deltaHours] if either sample is > 0, else 0; samples are
    [float], the elapsed time and the product [double], the tick
    difference is taken on [uint32_t]. *)
Definition spec_deltaHours (tPrev tCurr : Z) : float64 :=
  b64_div (u2d (sub32 tCurr tPrev)) lit_3600000_0.

Definition spec_average (prev curr : float32) : float32 :=
  d2f (b64_div (f2d (b32_add prev curr)) lit_2_0).

Definition spec_distanceDeltaKm (prev curr : float32) (tPrev tCurr : Z)
  : float64 :=
  if positive32 prev || positive32 curr
  then b64_mul (f2d (spec_average prev curr)) (spec_deltaHours tPrev tCurr)
  else zero64.

(** [fuelRateLitersPerHour = maf * 0.33094], applied to the trapezoidal
    average of two consecutive MAF samples, times the elapsed hours. *)
Definition spec_fuelRateLitersPerHour (maf : float32) : float32 :=
  d2f (b64_mul (f2d maf) lit_0_33094).

Definition spec_fuelDeltaLiters (prev curr : float32) (tPrev tCurr : Z)
  : float64 :=
  if positive32 prev || positive32 curr
  then b64_mul (f2d (spec_fuelRateLitersPerHour (spec_average prev curr)))
               (spec_deltaHours tPrev tCurr)
  else zero64.

(** Readings the claims call non-negative: not NaN and not below zero. *)
Definition nonneg32 (x : float32) : bool := fge x zero32.

Definition nonneg_event (ev : Event) : bool :=
  match ev with
  | Poll reply ELM_SUCCESS _ => nonneg32 reply
  | _ => true
  end.

(** A total has not gone down: the later value is a NaN (only an
    infinite average times a zero interval makes one) or compares [>=]
    the earlier value. *)
Definition never_less (old new : float64) : Prop :=
  is_nan new = true \/ fge new old = true.

(** The calibration multiplier, where there is one, is not negative. *)
Definition nonneg_calibration (cfg : Sketch) : bool :=
  match FUEL_CORRECTION cfg with Some c => unsigned c | None => true end.

(** What every pass keeps true of the totals and the sample caches. *)
Definition sane (m : Machine) : Prop :=
  valid64 (global_totalDistanceTraveled (globals m))
  /\ unsigned (global_totalDistanceTraveled (globals m)) = true
  /\ valid64 (global_totalFuelConsumed (globals m))
  /\ unsigned (global_totalFuelConsumed (globals m)) = true
  /\ unsigned (prev_kph (statics m)) = true
  /\ unsigned (prev_maf (statics m)) = true.

(** Readings in the range of a sensor: a valid binary32 that is not below
    zero and is below 2^100 (OBD-II speeds stay below 256 km/h and air
    flows below 656 g/s). *)
Definition two_pow_100 : float32 := S754_finite false 8388608 77.

Definition sensor_range (x : float32) : bool :=
  valid_binary 24 128 x && nonneg32 x && flt x two_pow_100.

Definition sensor_range_event (ev : Event) : bool :=
  match ev with
  | Poll reply ELM_SUCCESS _ => sensor_range reply
  | _ => true
  end.

(** The calibration multiplier, where there is one, is a valid positive
    binary64 below 2. *)
Definition modest_calibration (cfg : Sketch) : bool :=
  match FUEL_CORRECTION cfg with
  | None => true
  | Some (S754_finite false m e) =>
      valid_binary 53 1024 (S754_finite false m e)
      && (Zdigits2 (Zpos m) + e <=? 1)
  | Some _ => false
  end.

(** [sane], and moreover no total is a NaN and the caches are finite. *)
Definition steady (m : Machine) : Prop :=
  sane m
  /\ is_nan (global_totalDistanceTraveled (globals m)) = false
  /\ is_nan (global_totalFuelConsumed (globals m)) = false
  /\ within 104 (prev_kph (statics m))
  /\ within 104 (prev_maf (statics m)).

(* ================================================================== *)
(** ** Scenarios                                                       *)
(* ================================================================== *)

(** A first speed sample at tick 0 ([millis()] wraps to 0 after 2^32 ms),
    a failed MAF query, and the machine then back in the speed state. *)
Definition sampled_at_tick_0 : Machine :=
  obdTask sketch_plain initial_machine
    [Poll (i2f 80) ELM_SUCCESS 0; Poll zero32 (ELM_ERROR 7) 50].

(** The same with the first sample at tick 1000. *)
Definition sampled_at_tick_1000 : Machine :=
  obdTask sketch_plain initial_machine
    [Poll (i2f 80) ELM_SUCCESS 1000; Poll zero32 (ELM_ERROR 7) 1050].

(** 450 s at 80 km/h and 20 g/s: 10 km on the odometer. *)
Definition trip_before_link_loss : list Event :=
  [ Poll (i2f 80) ELM_SUCCESS 1000;   Poll (i2f 20) ELM_SUCCESS 1100;
    Poll (i2f 80) ELM_SUCCESS 451000; Poll (i2f 20) ELM_SUCCESS 451100 ].

Definition machine_before_link_loss : Machine :=
  obdTask sketch_plain initial_machine trip_before_link_loss.

(** Two passes with the port down, then the port is back. *)
Definition machine_after_link_loss : Machine :=
  obdTask sketch_plain machine_before_link_loss [LinkLost; LinkLost].

(** Braking to a standstill: 80 km/h, then 0 km/h 36 s later. *)
Definition machine_rolling : Machine :=
  obdTask sketch_plain initial_machine
    [ Poll (i2f 80) ELM_SUCCESS 1000; Poll (i2f 20) ELM_SUCCESS 1100;
      Poll (i2f 80) ELM_SUCCESS 2000; Poll (i2f 20) (ELM_ERROR 7) 2100 ].

(** The earlier copy with the gauges mode (3) selected, after one speed
    and one MAF sample: about to poll the rpm. *)
Definition early_machine_polling_rpm : Early.Machine :=
  Early.obdTask Early.initial_machine
    [ Early.LoopSetsMode 3;
      Early.Poll (i2f 80) ELM_SUCCESS 800 800;
      Early.Poll (i2f 20) ELM_SUCCESS 900 900 ].

(** A speed and a MAF for which the efficiency formula gives 150.15...,
    which [round] takes to 150. *)
Definition kph_150 : float32 := i2f 150.
Definition maf_7_1 : float32 := d2f (dec64 71 10).

(** A MAF sample stamped at tick 0: the clock rolls over between the
    first speed sample and the first MAF sample; the next speed sample
    leaves the task about to take its second MAF sample. *)
Definition maf_sampled_at_tick_0 : Machine :=
  obdTask sketch_plain initial_machine
    [ Poll (i2f 80) ELM_SUCCESS 4294967200; Poll (i2f 20) ELM_SUCCESS 0;
      Poll (i2f 80) ELM_SUCCESS 100 ].

(** [instEcon = (14.7 * 6.17 * 4.54 * speedKph * 0.621371) / (3600 * maf / 100)]
    as the specification words it, in the types of the sketch: the product
    of the decimal constants and the speed in [double], the denominator
    in [float]. *)
Definition spec_instEcon (speedKph maf : float32) : float64 :=
  b64_div
    (b64_mul
       (b64_mul (b64_mul (b64_mul lit_14_7 lit_6_17) lit_4_54) (f2d speedKph))
       lit_0_621371)
    (f2d (b32_div (b32_mul (i2f 3600) maf) (i2f 100))).

(** The same formula on exact rationals. *)
Definition spec_instEcon_exact (speedKph maf : Q) : Q :=
  (((147 # 10) * (617 # 100) * (454 # 100) * speedKph * (621371 # 1000000))
   / (3600 * maf / 100))%Q.

(* ================================================================== *)
(** ** [timerTransform]                                                *)
(* ================================================================== *)

From Stdlib Require DecimalString.

Definition UINT16_MOD : Z := 2 ^ 16.

(** [String(n)] of the Arduino core for an unsigned integer: its decimal
    digits, without padding. *)
Definition String_of_unsigned (n : Z) : string :=
  DecimalString.NilZero.string_of_uint (N.to_uint (Z.to_N n)).

(** [seconds], [hours] and [minutes] are [uint16_t]: the quotient
    [millisTime / 1000] is cut to 16 bits when it is stored; the later
    quotients and remainders fit. *)
Definition timerTransform (millisTime : Z) : string :=
  let seconds := (millisTime / 1000) mod UINT16_MOD in
  let hours := seconds / 3600 in
  let seconds := seconds mod 3600 in
  let minutes := seconds / 60 in
  let seconds := seconds mod 60 in
  let finalTimer := EmptyString in
  let finalTimer :=
    if 1 <=? hours then
      let finalTimer :=
        if hours <? 10 then (finalTimer ++ "0")%string else finalTimer in
      (finalTimer ++ (String_of_unsigned hours ++ ":"))%string
    else finalTimer in
  let finalTimer :=
    if minutes <? 10 then (finalTimer ++ "0")%string else finalTimer in
  let finalTimer := (finalTimer ++ (String_of_unsigned minutes ++ ":"))%string in
  let finalTimer :=
    if seconds <? 10 then (finalTimer ++ "0")%string else finalTimer in
  (finalTimer ++ String_of_unsigned seconds)%string.

(** Reading a text [mm:ss] or [hh:mm:ss] back as a number of seconds (not
    part of the sketch; the measure of what the display shows). *)
Definition digit_value (c : Ascii.ascii) : option Z :=
  let n := Z.of_N (Ascii.N_of_ascii c) in
  if (48 <=? n) && (n <=? 57) then Some (n - 48) else None.

Definition read_field (a b : Ascii.ascii) : option Z :=
  match digit_value a, digit_value b with
  | Some x, Some y => Some (10 * x + y)
  | _, _ => None
  end.

Definition is_colon (c : Ascii.ascii) : bool := (Ascii.N_of_ascii c =? 58)%N.

Definition read_timer (text : string) : option Z :=
  match text with
  | String m1 (String m2 (String c1 (String s1 (String s2 EmptyString)))) =>
      match read_field m1 m2, read_field s1 s2 with
      | Some m, Some s => if is_colon c1 then Some (60 * m + s) else None
      | _, _ => None
      end
  | String h1 (String h2 (String c1 (String m1 (String m2
      (String c2 (String s1 (String s2 EmptyString))))))) =>
      match read_field h1 h2, read_field m1 m2, read_field s1 s2 with
      | Some h, Some m, Some s =>
          if is_colon c1 && is_colon c2
          then Some (3600 * h + 60 * m + s) else None
      | _, _, _ => None
      end
  | _ => None
  end.

(** Every whole second a 16-bit counter can hold. *)
Fixpoint count_up (n : nat) (from : Z) : list Z :=
  match n with
  | O => []
  | S n' => from :: count_up n' (from + 1)
  end.

Definition all_uint16 : list Z := count_up (Z.to_nat 65536) 0.

(* ================================================================== *)
(** ** [loop]: choosing the mode by holding the switch                 *)
(* ================================================================== *)

(** [loop] of the state-machine sketch: while the switch reads HIGH the
    mode advances once for every full second it has been held. *)
Module Hold.

(** The [static] locals of [loop]. *)
Record Statics : Type := mkStatics {
  local_lastPressed : Z;
  buttonActive : bool;
  local_mode : Z
}.

Definition initial_statics : Statics :=
  {| local_lastPressed := 0; buttonActive := false; local_mode := 3 |}.

(** What one pass of [loop] reads from outside: [digitalRead(SWITCH)], the
    (up to three) [millis()] readings of the switch block, and whether
    [xSemaphoreTake(dataMutex, pdMS_TO_TICKS(10))] obtained the mutex. *)
Record Reading : Type := mkReading {
  switch_high : bool;
  millis_press : Z;
  millis_check : Z;
  millis_advance : Z;
  mutex_taken : bool
}.

(** "Switch Reading State" *)
Definition read_switch (s : Statics) (r : Reading) : Statics :=
  if switch_high r then
    let s1 :=
      if negb (buttonActive s)
      then {| local_lastPressed := millis_press r;
              buttonActive := true;
              local_mode := local_mode s |}
      else s in
    if 1000 <? sub32 (millis_check r) (local_lastPressed s1) then
      {| local_lastPressed := millis_advance r;
         buttonActive := buttonActive s1;
         local_mode :=
           if 6 <=? local_mode s1 then 1 else local_mode s1 + 1 |}
    else s1
  else
    {| local_lastPressed := local_lastPressed s;
       buttonActive := false;
       local_mode := local_mode s |}.

(** One pass: the statics afterwards, and the write [global_mode =
    local_mode] that [obdTask] sees, if the mutex was obtained. *)
Definition loop_pass (s : Statics) (r : Reading) : Statics * option Event :=
  let s' := read_switch s r in
  (s', if mutex_taken r then Some (LoopSetsMode (local_mode s')) else None).

(** [loop] over successive passes, with the writes it makes, oldest
    first. *)
Fixpoint loop (s : Statics) (readings : list Reading)
  : Statics * list Event :=
  match readings with
  | [] => (s, [])
  | r :: rest =>
      let (s', written) := loop_pass s r in
      let (s'', later) := loop s' rest in
      (s'', match written with Some ev => ev :: later | None => later end)
  end.

(** A pass that reads the switch HIGH no more than one second after tick
    [since]. *)
Definition held_briefly (since : Z) (r : Reading) : bool :=
  switch_high r && (sub32 (millis_check r) since <=? 1000).

End Hold.

(* ================================================================== *)
(** ** [loop]: choosing the mode by counting taps                      *)
(* ================================================================== *)

(** [loop] of the calibrated copy and of the demo: a debounced tap counter
    that picks the mode once the taps have stopped. *)
Module Taps.

(** The two copies differ in the timeout, and in where more than six taps
    are dealt with: the demo wraps the counter (7 taps count as 1) and
    assigns it to the mode unchecked, the calibrated copy counts on and
    falls back to mode 1. The demo has no [global_mode] to write. *)
Record Variant : Type := mkVariant {
  tapTimeout : Z;
  counter_wraps : bool
}.

Definition calibrated : Variant :=
  {| tapTimeout := 1500; counter_wraps := false |}.

Definition demo : Variant :=
  {| tapTimeout := 1000; counter_wraps := true |}.

Record Statics : Type := mkStatics {
  local_mode : Z;
  tapCounter : Z;
  lastTapTime : Z;
  lastButtonReading : bool;                  (* HIGH is [true] *)
  currentButtonState : bool;
  lastDebounceTime : Z
}.

Definition initial_statics : Statics :=
  {| local_mode := 1; tapCounter := 0; lastTapTime := 0;
     lastButtonReading := false; currentButtonState := false;
     lastDebounceTime := 0 |}.

(** [digitalRead(SWITCH)], the four [millis()] readings of the switch
    block, and whether the mutex was obtained. *)
Record Reading : Type := mkReading {
  switch_high : bool;
  millis_change : Z;
  millis_stable : Z;
  millis_tap : Z;
  millis_timeout : Z;
  mutex_taken : bool
}.

(** [tapCounter++] on an [int]: the two's-complement increment the
    processor performs. *)
Definition INT_MAX : Z := 2 ^ 31 - 1.
Definition incr_int (n : Z) : Z := if n =? INT_MAX then - 2 ^ 31 else n + 1.

Definition count_tap (v : Variant) (tapCounter : Z) : Z :=
  let tapCounter := incr_int tapCounter in
  if counter_wraps v && (6 <? tapCounter) then 1 else tapCounter.

(** Debouncing and the rising edge. *)
Definition debounce (v : Variant) (s : Statics) (r : Reading) : Statics :=
  let reading := switch_high r in
  let debounceTime :=
    if Bool.eqb reading (lastButtonReading s)
    then lastDebounceTime s else millis_change r in
  if (30 <? sub32 (millis_stable r) debounceTime)
     && negb (Bool.eqb reading (currentButtonState s))
  then
    if reading then
      {| local_mode := local_mode s;
         tapCounter := count_tap v (tapCounter s);
         lastTapTime := millis_tap r;
         lastButtonReading := reading;
         currentButtonState := reading;
         lastDebounceTime := debounceTime |}
    else
      {| local_mode := local_mode s;
         tapCounter := tapCounter s;
         lastTapTime := lastTapTime s;
         lastButtonReading := reading;
         currentButtonState := reading;
         lastDebounceTime := debounceTime |}
  else
    {| local_mode := local_mode s;
       tapCounter := tapCounter s;
       lastTapTime := lastTapTime s;
       lastButtonReading := reading;
       currentButtonState := currentButtonState s;
       lastDebounceTime := debounceTime |}.

(** The mode the pending taps select. *)
Definition selected_mode (v : Variant) (tapCounter : Z) : Z :=
  if counter_wraps v then tapCounter
  else if (1 <=? tapCounter) && (tapCounter <=? 6) then tapCounter else 1.

(** The timeout that ends the counting. *)
Definition settle (v : Variant) (s : Statics) (r : Reading) : Statics :=
  if (0 <? tapCounter s)
     && (tapTimeout v <? sub32 (millis_timeout r) (lastTapTime s))
  then
    {| local_mode := selected_mode v (tapCounter s);
       tapCounter := 0;
       lastTapTime := lastTapTime s;
       lastButtonReading := lastButtonReading s;
       currentButtonState := currentButtonState s;
       lastDebounceTime := lastDebounceTime s |}
  else s.

Definition read_switch (v : Variant) (s : Statics) (r : Reading) : Statics :=
  settle v (debounce v s r) r.

(** One pass: while taps are pending [loop] returns before it reaches the
    mutex; otherwise the calibrated copy writes [global_mode]. *)
Definition loop_pass (v : Variant) (s : Statics) (r : Reading)
  : Statics * option Event :=
  let s' := read_switch v s r in
  (s',
   if 0 <? tapCounter s' then None
   else if counter_wraps v then None
   else if mutex_taken r then Some (LoopSetsMode (local_mode s'))
   else None).

Fixpoint loop (v : Variant) (s : Statics) (readings : list Reading)
  : Statics * list Event :=
  match readings with
  | [] => (s, [])
  | r :: rest =>
      let (s', written) := loop_pass v s r in
      let (s'', later) := loop v s' rest in
      (s'', match written with Some ev => ev :: later | None => later end)
  end.

(** A pass that reads the switch HIGH with the debounce interval, counted
    from tick [since], not yet over. *)
Definition bouncing (since : Z) (r : Reading) : bool :=
  switch_high r && (sub32 (millis_stable r) since <=? 30).

(** What every pass keeps true of the tap counter. *)
Definition settled (v : Variant) (s : Statics) : Prop :=
  1 <= local_mode s <= 6
  /\ (counter_wraps v = true -> 0 <= tapCounter s <= 6).

End Taps.

(** A write of [loop] that selects one of the six pages. *)
Definition writes_mode_1_to_6 (ev : Event) : bool :=
  match ev with
  | LoopSetsMode mode => (1 <=? mode) && (mode <=? 6)
  | _ => false
  end.

(* ================================================================== *)
(** ** [loop]: the average, the statistics page, the status sign       *)
(* ================================================================== *)

Definition lit_0_1 : float64 := dec64 1 10.
Definition lit_0_001 : float64 := dec64 1 1000.
Definition lit_100_0 : float64 := u2d 100.
Definition lit_235_21 : float64 := dec64 23521 100.

(** [isAverageMpgValid] of the state-machine sketch. *)
Definition isAverageMpgValid (local_totalDistanceTraveled local_totalFuel : float64)
  : bool :=
  fgt local_totalDistanceTraveled lit_0_1 && fgt local_totalFuel lit_0_001.

(** [235.21 / ((fuel / distance) * 100.0)], in [double]. *)
Definition mpg_of_totals (local_totalDistanceTraveled local_totalFuel : float64)
  : float64 :=
  let avg_lp100k :=
    b64_mul (b64_div local_totalFuel local_totalDistanceTraveled) lit_100_0 in
  b64_div lit_235_21 avg_lp100k.

(** The variable [avg_mpg] of mode 1. *)
Definition avg_mpg (local_totalDistanceTraveled local_totalFuel : float64)
  : float32 :=
  if isAverageMpgValid local_totalDistanceTraveled local_totalFuel
  then d2f (mpg_of_totals local_totalDistanceTraveled local_totalFuel)
  else zero32.

(** The small field of mode 1: [display.print(round(avg_mpg), 0)] or
    dashes. *)
Definition average_mpg_field (local_totalDistanceTraveled local_totalFuel : float64)
  : Printed :=
  if isAverageMpgValid local_totalDistanceTraveled local_totalFuel
  then PrintNumber
         (c_round (f2d (avg_mpg local_totalDistanceTraveled local_totalFuel)))
  else PrintText "--".

(** The average of the statistics page (mode 3): guarded by the distance
    alone. *)
Definition stats_average_field (local_totalDistanceTraveled local_totalFuel : float64)
  : Printed :=
  if fgt local_totalDistanceTraveled lit_0_1
  then PrintNumber (mpg_of_totals local_totalDistanceTraveled local_totalFuel)
  else PrintText "--".

(** Zero or a finite number. *)
Definition finite64 (x : float64) : bool :=
  match x with
  | S754_zero _ | S754_finite _ _ _ => true
  | _ => false
  end.

(** Not a NaN, and without a minus sign: +0, a positive finite number or
    +infinity. *)
Definition a_number (x : spec_float) : bool :=
  match x with
  | S754_zero false | S754_infinity false | S754_finite false _ _ => true
  | _ => false
  end.

(** The status sign of mode 1; [connected] is [ELM_PORT.connected()]. *)
Definition status_sign (now local_lastUpdate : Z) (connected : bool) : string :=
  if sub32 now local_lastUpdate <? 200 then "o"
  else if negb connected then "x"
  else "!".

(* ================================================================== *)
(** ** [loop]: the drag timer (mode 5 of the calibrated copy)          *)
(* ================================================================== *)

Module Drag.

Definition lit_0_5 : float64 := dec64 5 10.
Definition lit_30_0 : float64 := u2d 30.
Definition lit_60_0 : float64 := u2d 60.
Definition lit_80_0 : float64 := u2d 80.
Definition lit_1000_0 : float64 := u2d 1000.
Definition lit_180_0 : float64 := u2d 180.

(** The [static] locals of [case 5]. *)
Record Statics : Type := mkStatics {
  startTime : Z;
  isRunning : bool;
  timer_30 : float32;
  timer_60 : float32;
  timer_80 : float32
}.

Definition initial_statics : Statics :=
  {| startTime := 0; isRunning := false;
     timer_30 := zero32; timer_60 := zero32; timer_80 := zero32 |}.

(** [local_kph * 0.621371], a [double] product stored in a [float]. *)
Definition current_mph (local_kph : float32) : float32 :=
  d2f (b64_mul (f2d local_kph) lit_0_621371).

(** [(millis() - startTime) / 1000.0], stored in a [float]. *)
Definition currentDuration (now startTime : Z) : float32 :=
  d2f (b64_div (u2d (sub32 now startTime)) lit_1000_0).

(** [timer == 0.0] and [current_mph >= limit], compared in [double]. *)
Definition unset (timer : float32) : bool := feq (f2d timer) zero64.

Definition reached (mph : float32) (limit : float64) : bool :=
  fge (f2d mph) limit.

(** [local_kph == 0] *)
Definition standing (local_kph : float32) : bool := feq local_kph zero32.

(** "Reset State" *)
Definition reset_state (s : Statics) (local_kph : float32) : Statics :=
  if standing local_kph then
    {| startTime := startTime s; isRunning := false;
       timer_30 := zero32; timer_60 := zero32; timer_80 := zero32 |}
  else s.

(** "Start Trigger" *)
Definition start_trigger (s : Statics) (mph : float32) (now : Z) : Statics :=
  if fgt (f2d mph) lit_0_5 && negb (isRunning s) && unset (timer_80 s) then
    {| startTime := now; isRunning := true;
       timer_30 := timer_30 s; timer_60 := timer_60 s;
       timer_80 := timer_80 s |}
  else s.

(** "Running & Latching Logic" *)
Definition latching (s : Statics) (mph : float32) (now : Z) : Statics :=
  if isRunning s then
    let duration := currentDuration now (startTime s) in
    let latch_80 := reached mph lit_80_0 && unset (timer_80 s) in
    {| startTime := startTime s;
       isRunning :=
         if fgt (f2d duration) lit_180_0 then false else negb latch_80;
       timer_30 :=
         if reached mph lit_30_0 && unset (timer_30 s)
         then duration else timer_30 s;
       timer_60 :=
         if reached mph lit_60_0 && unset (timer_60 s)
         then duration else timer_60 s;
       timer_80 := if latch_80 then duration else timer_80 s |}
  else s.

(** One pass through [case 5] with the speed of the snapshot and the two
    [millis()] readings (start trigger, running block). *)
Definition drag_pass (s : Statics) (local_kph : float32)
  (millis_start millis_now : Z) : Statics :=
  let mph := current_mph local_kph in
  latching (start_trigger (reset_state s local_kph) mph millis_start)
           mph millis_now.

(** Successive passes: speed and the two clock readings of each. *)
Definition drag (s : Statics) (passes : list (float32 * Z * Z)) : Statics :=
  fold_left (fun s p => drag_pass s (fst (fst p)) (snd (fst p)) (snd p))
            passes s.

Definition rolling (p : float32 * Z * Z) : bool := negb (standing (fst (fst p))).

End Drag.

(* ================================================================== *)
(** ** The first sketch (no state machine)                             *)
(* ================================================================== *)

(** [obdTask] of the first sketch queries speed and MAF in every pass and
    integrates both totals from [lastSuccessfulMpgPollTime]. *)
Module First.

Record Globals : Type := mkGlobals {
  global_vss_kph : float32;
  global_maf : float32;
  global_totalDistanceTraveled : float64;
  global_totalFuelConsumed : float64;
  global_lastDataUpdate : Z
}.

Record Machine : Type := mkMachine {
  lastSuccessfulMpgPollTime : Z;
  globals : Globals
}.

(** A connected pass gets the two replies and one [millis()] reading. *)
Inductive Event : Type :=
  | Poll (local_kph local_maf : float32) (pollCompleteTime : Z)
  | LinkLost.

Definition initial_machine : Machine :=
  {| lastSuccessfulMpgPollTime := 0;
     globals :=
       {| global_vss_kph := lit_minus_1_0;
          global_maf := lit_minus_1_0;
          global_totalDistanceTraveled := zero64;
          global_totalFuelConsumed := zero64;
          global_lastDataUpdate := 0 |} |}.

(** [x > -1]; the [int] literal is converted to float. *)
Definition isVssValid (local_kph : float32) : bool := fgt local_kph lit_minus_1_0.
Definition isMafValid (local_maf : float32) : bool := fgt local_maf lit_minus_1_0.

Definition isAnyDataValid (local_kph local_maf : float32) : bool :=
  isVssValid local_kph || isMafValid local_maf.

Definition isMpgDataValid (local_kph local_maf : float32) : bool :=
  isVssValid local_kph && isMafValid local_maf && positive32 local_kph.

Definition deltaTime_hours (m : Machine) (pollCompleteTime : Z) : float64 :=
  b64_div (u2d (sub32 pollCompleteTime (lastSuccessfulMpgPollTime m)))
          lit_3600000_0.

Definition integrates (m : Machine) (local_kph local_maf : float32) : bool :=
  isMpgDataValid local_kph local_maf && (0 <? lastSuccessfulMpgPollTime m).

Definition distance_delta_km (m : Machine) (local_kph local_maf : float32)
  (pollCompleteTime : Z) : float64 :=
  if integrates m local_kph local_maf
  then b64_mul (f2d local_kph) (deltaTime_hours m pollCompleteTime)
  else zero64.

Definition fuel_delta (m : Machine) (local_kph local_maf : float32)
  (pollCompleteTime : Z) : float64 :=
  if integrates m local_kph local_maf then
    let local_fuelRate_lph := d2f (b64_mul (f2d local_maf) lit_0_33094) in
    b64_mul (f2d local_fuelRate_lph) (deltaTime_hours m pollCompleteTime)
  else zero64.

Definition connected_pass (m : Machine) (local_kph local_maf : float32)
  (pollCompleteTime : Z) : Machine :=
  let g := globals m in
  {| lastSuccessfulMpgPollTime :=
       if isMpgDataValid local_kph local_maf
       then pollCompleteTime else lastSuccessfulMpgPollTime m;
     globals :=
       {| global_vss_kph :=
            if isVssValid local_kph then local_kph else lit_minus_1_0;
          global_maf :=
            if isMafValid local_maf then local_maf else lit_minus_1_0;
          global_totalDistanceTraveled :=
            b64_add (global_totalDistanceTraveled g)
                    (distance_delta_km m local_kph local_maf pollCompleteTime);
          global_totalFuelConsumed :=
            b64_add (global_totalFuelConsumed g)
                    (fuel_delta m local_kph local_maf pollCompleteTime);
          global_lastDataUpdate :=
            if isAnyDataValid local_kph local_maf
            then pollCompleteTime else global_lastDataUpdate g |} |}.

(** "Handle Reconnection": [global_vss_kph = global_maf = -1.0;] and
    [lastSuccessfulMpgPollTime = 0;]. *)
Definition link_down_pass (m : Machine) : Machine :=
  let g := globals m in
  {| lastSuccessfulMpgPollTime := 0;
     globals :=
       {| global_vss_kph := lit_minus_1_0;
          global_maf := lit_minus_1_0;
          global_totalDistanceTraveled := global_totalDistanceTraveled g;
          global_totalFuelConsumed := global_totalFuelConsumed g;
          global_lastDataUpdate := global_lastDataUpdate g |} |}.

Definition obdTask_pass (m : Machine) (ev : Event) : Machine :=
  match ev with
  | Poll local_kph local_maf pollCompleteTime =>
      connected_pass m local_kph local_maf pollCompleteTime
  | LinkLost => link_down_pass m
  end.

Definition obdTask (m : Machine) (trace : list Event) : Machine :=
  fold_left obdTask_pass trace m.

(** A connected pass whose readings do not qualify for integration: a
    failed query, or a car that stands still. *)
Definition not_integrated (ev : Event) : bool :=
  match ev with
  | Poll local_kph local_maf _ => negb (isMpgDataValid local_kph local_maf)
  | LinkLost => false
  end.

(** Readings that are not below zero. *)
Definition nonneg_event (ev : Event) : bool :=
  match ev with
  | Poll local_kph local_maf _ => nonneg32 local_kph && nonneg32 local_maf
  | LinkLost => true
  end.

Definition sane (m : Machine) : Prop :=
  valid64 (global_totalDistanceTraveled (globals m))
  /\ unsigned (global_totalDistanceTraveled (globals m)) = true
  /\ valid64 (global_totalFuelConsumed (globals m))
  /\ unsigned (global_totalFuelConsumed (globals m)) = true.

End First.

(* ================================================================== *)
(** ** Predicates on traces of the state machine                       *)
(* ================================================================== *)

(** [loop] never selects the gauges mode. *)
Definition never_selects (mode : Z) (ev : Event) : bool :=
  match ev with
  | LoopSetsMode k => negb (k =? mode)
  | _ => true
  end.

(** The states that query speed, MAF, or nothing. *)
Definition outside_gauges (st : ObdState) : bool :=
  match st with
  | OBD_STATE_KPH | OBD_STATE_MAF | OBD_STATE_DTC => true
  | _ => false
  end.

(** Nothing but the speed reading (which a lost link sets to -1), the mode
    and [lastSuccessfulMpgPollTime] differs between [m] and [m'], and [m']
    is in the diagnostics state. *)
Definition frozen (m m' : Machine) : Prop :=
  currentState (statics m') = OBD_STATE_DTC
  /\ temp_kph (statics m') = temp_kph (statics m)
  /\ prev_kph (statics m') = prev_kph (statics m)
  /\ prev_maf (statics m') = prev_maf (statics m)
  /\ lastSpeedTime (statics m') = lastSpeedTime (statics m)
  /\ lastFuelTime (statics m') = lastFuelTime (statics m)
  /\ global_maf (globals m') = global_maf (globals m)
  /\ global_rpm (globals m') = global_rpm (globals m)
  /\ global_load (globals m') = global_load (globals m)
  /\ global_fuel (globals m') = global_fuel (globals m)
  /\ global_totalDistanceTraveled (globals m')
     = global_totalDistanceTraveled (globals m)
  /\ global_totalDistanceTraveledTimer (globals m')
     = global_totalDistanceTraveledTimer (globals m)
  /\ global_totalFuelConsumed (globals m')
     = global_totalFuelConsumed (globals m)
  /\ global_lastDataUpdate (globals m') = global_lastDataUpdate (globals m)
  /\ (global_vss_kph (globals m') = global_vss_kph (globals m)
      \/ global_vss_kph (globals m') = lit_minus_1_0).

(** The integrator of [m'] is where that of [m] was: totals, drive timer
    and the sample caches. *)
Definition same_integrator (m m' : Machine) : Prop :=
  prev_kph (statics m') = prev_kph (statics m)
  /\ prev_maf (statics m') = prev_maf (statics m)
  /\ lastSpeedTime (statics m') = lastSpeedTime (statics m)
  /\ lastFuelTime (statics m') = lastFuelTime (statics m)
  /\ global_totalDistanceTraveled (globals m')
     = global_totalDistanceTraveled (globals m)
  /\ global_totalDistanceTraveledTimer (globals m')
     = global_totalDistanceTraveledTimer (globals m)
  /\ global_totalFuelConsumed (globals m')
     = global_totalFuelConsumed (globals m).

(** The reply ends the query (it is not [ELM_GETTING_MSG]). *)
Definition final_reply (rx : nb_rx_state) : bool :=
  match rx with
  | ELM_GETTING_MSG => false
  | _ => true
  end.

(** The statics with another value in [lastSuccessfulMpgPollTime]. *)
Definition with_lastSuccessfulMpgPollTime (m : Machine) (t : Z) : Machine :=
  {| statics :=
       {| lastSuccessfulMpgPollTime := t;
          currentState := currentState (statics m);
          temp_kph := temp_kph (statics m);
          prev_kph := prev_kph (statics m);
          prev_maf := prev_maf (statics m);
          lastSpeedTime := lastSpeedTime (statics m);
          lastFuelTime := lastFuelTime (statics m) |};
     globals := globals m |}.

Definition uint32 (n : Z) : bool := (0 <=? n) && (n <? UINT32_MOD).

(** Along the trace every speed sample that succeeds is above zero and is
    taken at a tick other than 0. *)
Fixpoint keeps_moving (cfg : Sketch) (m : Machine) (trace : list Event) : bool :=
  match trace with
  | [] => true
  | ev :: rest =>
      match ev, currentState (statics m) with
      | Poll reply ELM_SUCCESS now, OBD_STATE_KPH =>
          positive32 reply && (0 <? now) && (now <? UINT32_MOD)
      | _, _ => true
      end
      && keeps_moving cfg (obdTask_pass cfg m ev) rest
  end.

(** In the earlier copy: a reply other than success. *)
Definition early_unanswered (ev : Early.Event) : bool :=
  match ev with
  | Early.Poll _ ELM_SUCCESS _ _ => false
  | Early.Poll _ _ _ _ => true
  | _ => false
  end.

Definition early_nonneg_event (ev : Early.Event) : bool :=
  match ev with
  | Early.Poll reply ELM_SUCCESS _ _ => nonneg32 reply
  | _ => true
  end.

Definition early_sane (e : Early.Machine) : Prop :=
  valid64 (Early.global_totalDistanceTraveled (Early.globals e))
  /\ unsigned (Early.global_totalDistanceTraveled (Early.globals e)) = true
  /\ valid64 (Early.global_totalFuelConsumed (Early.globals e))
  /\ unsigned (Early.global_totalFuelConsumed (Early.globals e)) = true.

(* ================================================================== *)
(** ** More scenarios                                                  *)
(* ================================================================== *)

(** Mode 6 selected, then one speed and one MAF sample: the task has
    reached the diagnostics state. *)
Definition machine_in_diagnostics : Machine :=
  obdTask sketch_plain initial_machine
    [ LoopSetsMode 6;
      Poll (i2f 80) ELM_SUCCESS 1000; Poll (i2f 20) ELM_SUCCESS 1100 ].

(** Mode 4 selected, then one speed and one MAF sample: about to poll the
    rpm. *)
Definition machine_polling_rpm : Machine :=
  obdTask sketch_plain initial_machine
    [ LoopSetsMode 4;
      Poll (i2f 80) ELM_SUCCESS 1000; Poll (i2f 20) ELM_SUCCESS 1100 ].

(** The first sketch after a sample at 80 km/h and 20 g/s. *)
Definition first_machine_moving : First.Machine :=
  First.obdTask First.initial_machine [First.Poll (i2f 80) (i2f 20) 1000].

(** A drag run that has latched 30 mph after 4 s and 80 mph after 12 s. *)
Definition drag_finished : Drag.Statics :=
  Drag.drag Drag.initial_statics
    [ (i2f 2, 1000, 1000); (i2f 50, 5000, 5000); (i2f 130, 13000, 13000) ].

(** A drag run started at tick 1000 that has latched 30 mph and is
    still running. *)
Definition drag_under_way : Drag.Statics :=
  Drag.drag Drag.initial_statics [ (i2f 2, 1000, 1000); (i2f 50, 5000, 5000) ].


(* ================================================================== *)
(** ** Facts about the rounding of [SpecFloat]                         *)
(* ================================================================== *)

(** Generic in the format; used at binary32 and binary64. The point of
    this section is [SFadd_grows]: adding an unsigned number to an
    unsigned canonical one never compares below the latter. *)
Section Rounding.
Variables prec emax : Z.
Hypothesis prec_pos : 0 < prec.
Hypothesis prec_lt_emax : prec < emax.

Local Abbreviation fexp := (fexp prec emax).
Local Abbreviation emin := (emin prec emax).
Local Abbreviation settled := (settled_at prec emax).
Local Abbreviation pack := (pack_at prec emax).
Local Abbreviation valid := (valid_at prec emax).

Lemma digits2_pos_size (p : positive) : digits2_pos p = Pos.size p.
Proof. induction p; simpl; congruence. Qed.

Lemma Zdigits2_log2 (M : Z) : 0 < M -> Zdigits2 M = Z.log2 M + 1.
Proof.
  destruct M as [|p|p]; try lia. intros _. simpl.
  rewrite digits2_pos_size.
  destruct p; simpl; rewrite ?Pos2Z.inj_succ; lia.
Qed.

Lemma Zdigits2_nonneg (M : Z) : 0 <= Zdigits2 M.
Proof. destruct M; simpl; lia. Qed.

Lemma Zdigits2_le (a b : Z) : 0 <= a <= b -> Zdigits2 a <= Zdigits2 b.
Proof.
  intros [Ha Hab].
  destruct (Z.eq_dec a 0) as [->|Hne].
  - apply Zdigits2_nonneg.
  - rewrite !Zdigits2_log2 by lia.
    pose proof (Z.log2_le_mono a b Hab). lia.
Qed.

Lemma fexp_mono (a b : Z) : a <= b -> fexp a <= fexp b.
Proof. unfold SpecFloat.fexp. lia. Qed.

Lemma fexp_ge_emin (a : Z) : emin <= fexp a.
Proof. unfold SpecFloat.fexp. lia. Qed.

Lemma fexp_small (a b : Z) : fexp a = b -> a <= b -> b = emin.
Proof. unfold SpecFloat.fexp. lia. Qed.

(** *** shifting right *)

Lemma shr_1_m (r : shr_record) :
  0 <= shr_m r -> shr_m (shr_1 r) = Z.shiftr (shr_m r) 1.
Proof.
  destruct r as [m rb sb]; simpl. intros Hm.
  rewrite <- Z.div2_spec.
  destruct m as [|[p|p|]|p]; simpl; try reflexivity; lia.
Qed.

Lemma iter_shr_1_m (p : positive) :
  forall r, 0 <= shr_m r ->
    shr_m (iter_pos shr_1 p r) = Z.shiftr (shr_m r) (Zpos p).
Proof.
  induction p as [p IH|p IH|]; intros r Hr; simpl.
  - assert (H1 : 0 <= shr_m (shr_1 r))
      by (rewrite shr_1_m by assumption; apply Z.shiftr_nonneg; assumption).
    assert (H2 : 0 <= shr_m (iter_pos shr_1 p (shr_1 r)))
      by (rewrite IH by assumption; apply Z.shiftr_nonneg; assumption).
    rewrite IH by assumption. rewrite IH by assumption.
    rewrite shr_1_m by assumption.
    rewrite !Z.shiftr_shiftr by lia. f_equal. lia.
  - assert (H2 : 0 <= shr_m (iter_pos shr_1 p r))
      by (rewrite IH by assumption; apply Z.shiftr_nonneg; assumption).
    rewrite IH by assumption. rewrite IH by assumption.
    rewrite !Z.shiftr_shiftr by lia. f_equal. lia.
  - apply shr_1_m; assumption.
Qed.

Lemma shr_m_shr (r : shr_record) (e n : Z) :
  0 <= shr_m r -> 0 <= n ->
  shr_m (fst (shr r e n)) = Z.shiftr (shr_m r) n /\ snd (shr r e n) = e + n.
Proof.
  intros Hr Hn. destruct n as [|p|p]; simpl; try lia.
  - split; [reflexivity | lia].
  - split; [apply iter_shr_1_m; assumption | reflexivity].
Qed.

Lemma shr_record_of_loc_m (m : Z) (l : location) :
  shr_m (shr_record_of_loc m l) = m.
Proof. destruct l as [|[]]; reflexivity. Qed.

Lemma shr_fexp_spec (M e : Z) (l : location) :
  0 <= M -> e <= fexp (Zdigits2 M + e) ->
  shr_m (fst (shr_fexp prec emax M e l))
    = Z.shiftr M (fexp (Zdigits2 M + e) - e)
  /\ snd (shr_fexp prec emax M e l) = fexp (Zdigits2 M + e).
Proof.
  intros HM Hn. unfold shr_fexp.
  destruct (shr_m_shr (shr_record_of_loc M l) e
              (fexp (Zdigits2 M + e) - e)) as [H1 H2].
  - rewrite shr_record_of_loc_m; assumption.
  - lia.
  - rewrite H1, H2, shr_record_of_loc_m. split; [reflexivity | lia].
Qed.

Lemma round_nearest_even_bounds (m : Z) (l : location) :
  m <= round_nearest_even m l <= m + 1.
Proof.
  destruct l as [|[]]; simpl; try lia.
  destruct (Z.even m); lia.
Qed.

Lemma shiftr_pos (M n : Z) : 0 < M -> 0 <= n <= Z.log2 M -> 0 < Z.shiftr M n.
Proof.
  intros HM Hn. rewrite Z.shiftr_div_pow2 by lia.
  apply Z.div_str_pos. split; [apply Z.pow_pos_nonneg; lia|].
  apply Z.le_trans with (2 ^ Z.log2 M).
  - apply Z.pow_le_mono_r; lia.
  - apply Z.log2_spec; assumption.
Qed.

Lemma shiftr_zero (M n : Z) : 0 <= M -> Z.log2 M < n -> Z.shiftr M n = 0.
Proof.
  intros HM Hn.
  pose proof (Z.log2_nonneg M).
  rewrite Z.shiftr_div_pow2 by lia.
  apply Z.div_small. split; [assumption|].
  destruct (Z.eq_dec M 0) as [->|Hne].
  - apply Z.pow_pos_nonneg; lia.
  - apply Z.lt_le_trans with (2 ^ Z.succ (Z.log2 M)).
    + apply Z.log2_spec; lia.
    + apply Z.pow_le_mono_r; lia.
Qed.


Lemma pass_settled (M e : Z) :
  0 <= M -> e <= fexp (Zdigits2 M + e) ->
  settled (Z.shiftr M (fexp (Zdigits2 M + e) - e)) (fexp (Zdigits2 M + e)).
Proof.
  intros HM Hn.
  destruct (Z.eq_dec M 0) as [->|Hne].
  - left. split; [apply Z.shiftr_0_l|].
    change (Zdigits2 0 + e) with e in *.
    apply fexp_small with (a := e); [reflexivity | exact Hn].
  - rewrite Zdigits2_log2 in * by lia.
    remember (fexp (Z.log2 M + 1 + e)) as e' eqn:He'.
    destruct (Z_le_gt_dec (e' - e) (Z.log2 M)) as [Hle|Hgt].
    + assert (Hpos : 0 < Z.shiftr M (e' - e)) by (apply shiftr_pos; lia).
      right. split; [assumption|].
      rewrite Zdigits2_log2 by assumption.
      rewrite Z.log2_shiftr by lia.
      replace (Z.max 0 (Z.log2 M - (e' - e)) + 1 + e')
        with (Z.log2 M + 1 + e) by lia.
      symmetry; assumption.
    + left. split; [apply shiftr_zero; lia|].
      apply fexp_small with (a := Z.log2 M + 1 + e); [symmetry; assumption|].
      lia.
Qed.


Lemma Zdigits2_succ (M : Z) : 0 <= M -> Zdigits2 (M + 1) <= Zdigits2 M + 1.
Proof.
  intros HM. destruct (Z.eq_dec M 0) as [->|Hne]; [cbn; lia|].
  rewrite !Zdigits2_log2 by lia.
  pose proof (Z.log2_succ_le M). unfold Z.succ in *. lia.
Qed.

(** A pass does not add weight: digits plus exponent stay the same, or the
    mantissa has vanished at the smallest exponent. *)
Lemma pass_weight (M e : Z) :
  0 <= M -> e <= fexp (Zdigits2 M + e) ->
  Zdigits2 (Z.shiftr M (fexp (Zdigits2 M + e) - e)) + fexp (Zdigits2 M + e)
  <= Z.max (Zdigits2 M + e) emin.
Proof.
  intros HM Hn.
  destruct (pass_settled M e HM Hn) as [[H0 He]|[Hpos Hcan]].
  - rewrite H0, He. cbn. lia.
  - assert (HM0 : 0 < M).
    { destruct (Z.eq_dec M 0) as [->|]; [|lia].
      rewrite Z.shiftr_0_l in Hpos. lia. }
    rewrite (Zdigits2_log2 (Z.shiftr M _)) by assumption.
    rewrite Z.log2_shiftr by assumption.
    rewrite (Zdigits2_log2 M) in * by assumption.
    destruct (Z_le_gt_dec (fexp (Z.log2 M + 1 + e) - e) (Z.log2 M)); [lia|].
    rewrite shiftr_zero in Hpos by lia. lia.
Qed.

Lemma binary_round_aux_spec (s : bool) (M e : Z) (l : location) :
  0 <= M -> e <= fexp (Zdigits2 M + e) ->
  exists Mf ef,
    binary_round_aux prec emax s M e l = pack s Mf ef
    /\ fexp (Zdigits2 M + e) <= ef
    /\ (ef = fexp (Zdigits2 M + e) ->
        Z.shiftr M (fexp (Zdigits2 M + e) - e) <= Mf)
    /\ settled Mf ef
    /\ Zdigits2 Mf + ef <= Z.max (Zdigits2 M + e + 1) (emin + 1).
Proof.
  intros HM Hn. unfold binary_round_aux.
  destruct (shr_fexp_spec M e l HM Hn) as [Hm1 He1].
  destruct (shr_fexp prec emax M e l) as [mrs' e'] eqn:E1.
  simpl in Hm1, He1.
  set (M' := Z.shiftr M (fexp (Zdigits2 M + e) - e)) in *.
  set (M'' := round_nearest_even (shr_m mrs') (loc_of_shr_record mrs')).
  pose proof (round_nearest_even_bounds (shr_m mrs') (loc_of_shr_record mrs'))
    as Hrne. fold M'' in Hrne. rewrite Hm1 in Hrne.
  pose proof (pass_settled M e HM Hn) as Hset. fold M' in Hset.
  rewrite <- He1 in Hset.
  assert (HM'' : 0 <= M'') by (destruct Hset as [[? ?]|[? ?]]; lia).
  assert (Hn2 : e' <= fexp (Zdigits2 M'' + e')).
  { destruct Hset as [[H0 He]|[Hpos Hcan]].
    - rewrite He. apply fexp_ge_emin.
    - rewrite <- Hcan at 1. apply fexp_mono.
      pose proof (Zdigits2_le M' M''). lia. }
  destruct (shr_fexp_spec M'' e' loc_Exact HM'' Hn2) as [Hm2 He2].
  destruct (shr_fexp prec emax M'' e' loc_Exact) as [mrs'' e''] eqn:E2.
  simpl in Hm2, He2.
  pose proof (pass_weight M e HM Hn) as Hw1. fold M' in Hw1.
  rewrite <- He1 in Hw1.
  pose proof (pass_weight M'' e' HM'' Hn2) as Hw2.
  assert (HdM'' : Zdigits2 M'' <= Zdigits2 M' + 1).
  { apply Z.le_trans with (Zdigits2 (M' + 1)).
    - apply Zdigits2_le. lia.
    - apply Zdigits2_succ. destruct Hset as [[? ?]|[? ?]]; lia. }
  exists (shr_m mrs''), e''. split; [reflexivity|].
  rewrite <- He1. split; [lia|]. split; [|split].
  - intros Heq. rewrite Hm2. rewrite <- He2, Heq, Z.sub_diag, Z.shiftr_0_r. lia.
  - rewrite Hm2, He2. apply pass_settled; assumption.
  - rewrite Hm2, He2. lia.
Qed.


(** *** validity and signs of what the rounding returns *)



Lemma pack_valid (s : bool) (M e : Z) : settled M e -> valid (pack s M e).
Proof.
  unfold valid_at, pack_at. intros [[-> _]|[HM Hcan]]; [reflexivity|].
  destruct M as [|m|m]; try lia.
  destruct (e <=? emax - prec) eqn:Hle; [|reflexivity].
  unfold valid_binary, bounded, canonical_mantissa.
  change (Zdigits2 (Zpos m)) with (Zpos (digits2_pos m)) in Hcan.
  rewrite Hcan, Z.eqb_refl, Hle. reflexivity.
Qed.

Lemma pack_unsigned (M e : Z) : unsigned (pack false M e) = true.
Proof. unfold pack_at. destruct M; [| destruct (e <=? emax - prec) |]; reflexivity. Qed.

Lemma binary_round_aux_unsigned (M e : Z) (l : location) :
  unsigned (binary_round_aux prec emax false M e l) = true.
Proof.
  unfold binary_round_aux.
  destruct (shr_fexp prec emax M e l) as [mrs' e'].
  destruct (shr_fexp prec emax _ e' loc_Exact) as [mrs'' e''].
  destruct (shr_m mrs''); [| destruct (e'' <=? emax - prec) |]; reflexivity.
Qed.

Lemma iter_xO (m d : positive) : Zpos (Pos.iter xO m d) = Zpos m * 2 ^ Zpos d.
Proof.
  induction d as [|d IH] using Pos.peano_ind.
  - simpl. lia.
  - rewrite Pos.iter_succ, Pos2Z.inj_succ, Z.pow_succ_r by lia.
    rewrite Pos2Z.inj_xO, IH. lia.
Qed.

Lemma shl_align_spec (m : positive) (e e' : Z) :
  snd (shl_align m e e') = Z.min e e'
  /\ Zpos (fst (shl_align m e e')) = Zpos m * 2 ^ (e - Z.min e e').
Proof.
  unfold shl_align. destruct (e' - e) as [|d|d] eqn:Hd; cbn [fst snd].
  - replace (Z.min e e') with e by lia. rewrite Z.sub_diag, Z.pow_0_r. lia.
  - replace (Z.min e e') with e by lia. rewrite Z.sub_diag, Z.pow_0_r. lia.
  - replace (Z.min e e') with e' by lia.
    rewrite iter_xO. split; [reflexivity|]. f_equal. f_equal. lia.
Qed.

Lemma binary_round_spec (s : bool) (m : positive) (e : Z) :
  exists Mf ef,
    binary_round prec emax s m e = pack s Mf ef /\ settled Mf ef
    /\ Zdigits2 Mf + ef <= Z.max (Zdigits2 (Zpos m) + e + 1) (emin + 1).
Proof.
  unfold binary_round.
  destruct (shl_align_spec m e (fexp (Zpos (digits2_pos m) + e))) as [H2 H1].
  destruct (shl_align m e (fexp (Zpos (digits2_pos m) + e))) as [mz ez].
  cbn [fst snd] in H1, H2.
  change (Zpos (digits2_pos m)) with (Zdigits2 (Zpos m)) in *.
  assert (Hw : Zdigits2 (Zpos mz) + ez = Zdigits2 (Zpos m) + e).
  { rewrite (Zdigits2_log2 (Zpos mz)) by lia. rewrite H1.
    rewrite Z.log2_mul_pow2 by lia.
    rewrite (Zdigits2_log2 (Zpos m)) in * by lia. lia. }
  destruct (binary_round_aux_spec s (Zpos mz) ez loc_Exact)
    as (Mf & ef & Hr & _ & _ & Hs & Hb).
  - lia.
  - rewrite Hw. lia.
  - exists Mf, ef. rewrite Hw in Hb. repeat split; assumption.
Qed.

Lemma binary_round_valid (s : bool) (m : positive) (e : Z) :
  valid (binary_round prec emax s m e).
Proof.
  destruct (binary_round_spec s m e) as (Mf & ef & -> & Hs & _).
  apply pack_valid; assumption.
Qed.

Lemma binary_round_unsigned (m : positive) (e : Z) :
  unsigned (binary_round prec emax false m e) = true.
Proof.
  destruct (binary_round_spec false m e) as (Mf & ef & -> & _).
  apply pack_unsigned.
Qed.

Lemma binary_normalize_valid (M e : Z) (s : bool) :
  valid (binary_normalize prec emax M e s).
Proof.
  destruct M; simpl; [reflexivity | apply binary_round_valid ..].
Qed.


(** *** addition *)

Lemma SFadd_valid (x y : spec_float) :
  valid x -> valid y -> valid (SFadd prec emax x y).
Proof.
  intros Hx Hy.
  destruct x as [sx|sx| |sx mx ex], y as [sy|sy| |sy my ey];
    try assumption; try reflexivity;
    try (destruct sx, sy; (assumption || reflexivity)).
  unfold SFadd. apply binary_normalize_valid.
Qed.

Lemma SFadd_unsigned (x y : spec_float) :
  unsigned x = true -> unsigned y = true ->
  unsigned (SFadd prec emax x y) = true.
Proof.
  intros Hx Hy.
  destruct x as [sx|sx| |sx mx ex], y as [sy|sy| |sy my ey];
    try assumption; try reflexivity;
    try (destruct sx, sy; (assumption || reflexivity || discriminate)).
  destruct sx, sy; try discriminate.
  unfold SFadd, cond_Zopp, binary_normalize.
  change (Zpos ?a + Zpos ?b) with (Zpos (a + b)).
  cbv iota. apply binary_round_unsigned.
Qed.

Lemma SFleb_refl (x : spec_float) :
  x <> S754_nan -> unsigned x = true -> SFleb x x = true.
Proof.
  intros Hn Hu. destruct x as [s|s| |s m e]; try congruence;
    try (destruct s; reflexivity).
  destruct s; [discriminate|].
  unfold SFleb, SFcompare. rewrite Z.compare_refl.
  rewrite Pos.compare_cont_refl. reflexivity.
Qed.

(** Adding an unsigned number to an unsigned canonical one never gives
    less: the sum is a NaN or compares [>=] the first operand. *)
Lemma SFadd_grows (x y : spec_float) :
  valid x -> unsigned x = true -> unsigned y = true ->
  SFadd prec emax x y = S754_nan \/ SFleb x (SFadd prec emax x y) = true.
Proof.
  intros Hx Hux Huy.
  destruct x as [sx|sx| |sx m1 e1], y as [sy|sy| |sy m2 e2];
    try (left; reflexivity);
    try (destruct sx, sy; try discriminate; right; reflexivity).
  - (* finite + zero *)
    right. apply SFleb_refl; [discriminate | assumption].
  - (* finite + finite *)
    destruct sx, sy; try discriminate. right.
    unfold valid_at, valid_binary, bounded, canonical_mantissa in Hx.
    apply andb_prop in Hx. destruct Hx as [Hcan _].
    apply Z.eqb_eq in Hcan.
    change (Zpos (digits2_pos m1)) with (Zdigits2 (Zpos m1)) in Hcan.
    rewrite Zdigits2_log2 in Hcan by lia.
    unfold SFadd, cond_Zopp.
    destruct (shl_align_spec m1 e1 (Z.min e1 e2)) as [_ HA].
    destruct (shl_align_spec m2 e2 (Z.min e1 e2)) as [_ HB].
    replace (Z.min e1 (Z.min e1 e2)) with (Z.min e1 e2) in HA by lia.
    replace (Z.min e2 (Z.min e1 e2)) with (Z.min e1 e2) in HB by lia.
    set (ez := Z.min e1 e2) in *.
    set (a := fst (shl_align m1 e1 ez)) in *.
    set (b := fst (shl_align m2 e2 ez)) in *.
    change (Zpos a + Zpos b) with (Zpos (a + b)).
    unfold binary_normalize, binary_round.
    assert (Hk : 0 <= e1 - ez) by (unfold ez; lia).
    assert (HM : Zpos m1 * 2 ^ (e1 - ez) <= Zpos (a + b)) by lia.
    assert (Hlog : Z.log2 (Zpos m1) + (e1 - ez) <= Z.log2 (Zpos (a + b))).
    { rewrite <- (Z.add_comm (e1 - ez)).
      rewrite <- Z.log2_mul_pow2 by lia. apply Z.log2_le_mono. assumption. }
    assert (Hfe : e1 <= fexp (Zdigits2 (Zpos (a + b)) + ez)).
    { rewrite <- Hcan at 1. apply fexp_mono.
      rewrite Zdigits2_log2 by lia. lia. }
    change (Zpos (digits2_pos (a + b))) with (Zdigits2 (Zpos (a + b))).
    assert (Hno : shl_align (a + b) ez (fexp (Zdigits2 (Zpos (a + b)) + ez))
                  = ((a + b)%positive, ez)).
    { unfold shl_align.
      destruct (fexp (Zdigits2 (Zpos (a + b)) + ez) - ez) eqn:Hd;
        try reflexivity. unfold ez in *. lia. }
    rewrite Hno.
    destruct (binary_round_aux_spec false (Zpos (a + b)) ez loc_Exact)
      as (Mf & ef & -> & Hge & Hsame & Hs & _); [lia | unfold ez in *; lia |].
    assert (Hm1 : Zpos m1 <= Z.shiftr (Zpos (a + b)) (e1 - ez)).
    { rewrite Z.shiftr_div_pow2 by lia.
      apply Z.div_le_lower_bound; [apply Z.pow_pos_nonneg; lia | lia]. }
    assert (HMf : 0 < Mf /\ (ef = e1 -> Zpos m1 <= Mf)).
    { pose proof (fexp_ge_emin (Z.log2 (Z.pos m1) + 1 + e1)) as Hemin.
      rewrite Hcan in Hemin.
      assert (Heq : ef = e1 -> Zpos m1 <= Mf).
      { intros ->.
        assert (He : fexp (Zdigits2 (Zpos (a + b)) + ez) = e1) by lia.
        specialize (Hsame (eq_sym He)). rewrite He in Hsame. lia. }
      split; [|assumption].
      destruct Hs as [[H0 He]|[Hpos _]]; [|assumption].
      assert (ef = e1) by lia. specialize (Heq H). lia. }
    destruct HMf as [Hpos Heq].
    destruct Mf as [|mf|mf]; try lia.
    unfold pack_at. destruct (ef <=? emax - prec); [|reflexivity].
    unfold SFleb, SFcompare.
    destruct (Z.compare_spec e1 ef) as [He|He|He]; try reflexivity.
    + subst ef. specialize (Heq eq_refl).
      rewrite Pos.compare_cont_spec. simpl.
      destruct (Pos.compare_spec m1 mf); try reflexivity. lia.
    + lia.
Qed.


(** *** multiplication *)

Lemma canonical_digits (m : positive) (e : Z) :
  canonical_mantissa prec emax m e = true ->
  fexp (Z.log2 (Zpos m) + 1 + e) = e.
Proof.
  unfold canonical_mantissa. intros H. apply Z.eqb_eq in H.
  change (Zpos (digits2_pos m)) with (Zdigits2 (Zpos m)) in H.
  rewrite Zdigits2_log2 in H by lia. assumption.
Qed.

Lemma SFmul_aligned (mx my : positive) (ex ey : Z) :
  canonical_mantissa prec emax mx ex = true ->
  canonical_mantissa prec emax my ey = true ->
  ex + ey <= fexp (Zdigits2 (Zpos (mx * my)) + (ex + ey)).
Proof.
  intros Hx Hy.
  apply canonical_digits in Hx. apply canonical_digits in Hy.
  rewrite Zdigits2_log2 by lia. rewrite Pos2Z.inj_mul.
  pose proof (Z.log2_mul_below (Zpos mx) (Zpos my)) as Hlog.
  pose proof (Z.log2_nonneg (Zpos mx)).
  pose proof (Z.log2_nonneg (Zpos my)).
  assert (Hm : fexp (Z.log2 (Zpos mx) + Z.log2 (Zpos my) + 1 + (ex + ey))
               <= fexp (Z.log2 (Zpos mx * Zpos my) + 1 + (ex + ey)))
    by (apply fexp_mono; lia).
  revert Hx Hy Hm. unfold SpecFloat.fexp, SpecFloat.emin. lia.
Qed.

Lemma SFmul_valid (x y : spec_float) :
  valid x -> valid y -> valid (SFmul prec emax x y).
Proof.
  intros Hx Hy.
  destruct x as [sx|sx| |sx mx ex], y as [sy|sy| |sy my ey];
    try reflexivity.
  unfold valid_at, valid_binary, bounded in Hx, Hy.
  apply andb_prop in Hx. destruct Hx as [Hx _].
  apply andb_prop in Hy. destruct Hy as [Hy _].
  unfold SFmul.
  destruct (binary_round_aux_spec (xorb sx sy) (Zpos (mx * my)) (ex + ey)
              loc_Exact) as (Mf & ef & -> & _ & _ & Hs & _).
  - lia.
  - apply SFmul_aligned; assumption.
  - apply pack_valid; assumption.
Qed.

Lemma SFmul_unsigned (x y : spec_float) :
  unsigned x = true -> unsigned y = true ->
  unsigned (SFmul prec emax x y) = true.
Proof.
  intros Hx Hy.
  destruct x as [sx|sx| |sx mx ex], y as [sy|sy| |sy my ey];
    try reflexivity;
    try (destruct sx, sy; (reflexivity || discriminate)).
  destruct sx, sy; try discriminate.
  apply binary_round_aux_unsigned.
Qed.

(** *** division *)

Lemma SFdiv_core_binary_spec (m1 m2 : positive) (e1 e2 : Z) :
  let '(q, e', l) := SFdiv_core_binary prec emax (Zpos m1) e1 (Zpos m2) e2 in
  0 <= q /\ e' <= fexp (Zdigits2 q + e')
  /\ Zdigits2 q + e'
     <= Z.max (Zdigits2 (Zpos m1) + e1 - (Zdigits2 (Zpos m2) + e2) + 1) emin.
Proof.
  unfold SFdiv_core_binary.
  rewrite !Zdigits2_log2 by lia.
  set (t := Z.log2 (Zpos m1) + 1 + e1 - (Z.log2 (Zpos m2) + 1 + e2)).
  set (e' := Z.min (fexp t) (e1 - e2)).
  set (sh := e1 - e2 - e').
  assert (Hsh : 0 <= sh) by (unfold sh, e'; lia).
  set (m' := match sh with
             | 0 => Zpos m1 | Zpos _ => Z.shiftl (Zpos m1) sh | Zneg _ => 0
             end).
  assert (Hm' : m' = Zpos m1 * 2 ^ sh).
  { unfold m'. destruct sh eqn:E;
      [ cbn; lia | apply Z.shiftl_mul_pow2; lia | lia ]. }
  pose proof (Z.div_eucl_eq m' (Zpos m2) ltac:(lia)) as Heq.
  pose proof (Z.mod_pos_bound m' (Zpos m2) ltac:(lia)) as Hmod.
  unfold Z.modulo in Hmod.
  assert (Hdiv : fst (Z.div_eucl m' (Zpos m2)) = m' / Zpos m2) by reflexivity.
  destruct (Z.div_eucl m' (Zpos m2)) as [q r]. cbn [fst] in Hdiv.
  assert (Hm'pos : 0 < m') by (rewrite Hm'; apply Z.mul_pos_pos;
                               [lia | apply Z.pow_pos_nonneg; lia]).
  assert (Hq : 0 <= q) by (rewrite Hdiv; apply Z.div_pos; lia).
  assert (Hlo : t <= Zdigits2 q + e').
  { destruct (Z.eq_dec q 0) as [->|Hq0].
    - change (Zdigits2 0) with 0.
      (* the quotient vanishes: the shifted dividend is below the divisor *)
      assert (Hlt : m' < Zpos m2) by (rewrite Heq; nia).
      assert (Hl : Z.log2 m' <= Z.log2 (Zpos m2))
        by (apply Z.log2_le_mono; lia).
      rewrite Hm', Z.log2_mul_pow2 in Hl by lia.
      unfold t, sh in *. lia.
    - rewrite Zdigits2_log2 by lia.
      assert (Hlow : Z.log2 (Zpos m1) + sh - (Z.log2 (Zpos m2) + 1)
                     <= Z.log2 q).
      { destruct (Z_le_gt_dec (Z.log2 (Zpos m1) + sh - (Z.log2 (Zpos m2) + 1)) 0)
          as [Hle|Hgt].
        - pose proof (Z.log2_nonneg q). lia.
        - apply Z.log2_le_pow2; [lia|].
          rewrite Hdiv. apply Z.div_le_lower_bound; [lia|].
          apply Z.le_trans with (2 ^ (Z.log2 (Zpos m1) + sh)).
          + replace (Z.log2 (Zpos m1) + sh)
              with ((Z.log2 (Zpos m2) + 1)
                    + (Z.log2 (Zpos m1) + sh - (Z.log2 (Zpos m2) + 1))) at 2
              by lia.
            pose proof (Z.log2_nonneg (Zpos m2)).
            rewrite Z.pow_add_r by lia.
            apply Z.mul_le_mono_nonneg_r; [apply Z.pow_nonneg; lia|].
            pose proof (Z.log2_spec (Zpos m2) ltac:(lia)).
            unfold Z.succ in *. lia.
          + rewrite Hm'. pose proof (Z.log2_nonneg (Zpos m1)).
            rewrite Z.pow_add_r by lia.
            apply Z.mul_le_mono_nonneg_r; [apply Z.pow_nonneg; lia|].
            apply Z.log2_spec. lia. }
      unfold t, sh in *. lia. }
  assert (He'le : e' <= fexp t) by (unfold e'; lia).
  split; [assumption|]. split.
  - apply Z.le_trans with (fexp t); [assumption|]. apply fexp_mono. assumption.
  - destruct (Z.eq_dec q 0) as [->|Hq0].
    + change (Zdigits2 0) with 0 in *.
      revert He'le Hlo. unfold SpecFloat.fexp. lia.
    + rewrite Zdigits2_log2 by lia.
      assert (Hup : Z.log2 q + Z.log2 (Zpos m2) <= Z.log2 (Zpos m1) + sh).
      { apply Z.le_trans with (Z.log2 (q * Zpos m2)).
        - apply Z.log2_mul_below; lia.
        - rewrite <- (Z.add_comm sh), <- Z.log2_mul_pow2 by lia.
          apply Z.log2_le_mono. rewrite <- Hm'. nia. }
      unfold t, sh in *. lia.
Qed.

Lemma SFdiv_valid (x y : spec_float) :
  valid x -> valid y -> valid (SFdiv prec emax x y).
Proof.
  intros Hx Hy.
  destruct x as [sx|sx| |sx mx ex], y as [sy|sy| |sy my ey];
    try reflexivity.
  unfold SFdiv.
  pose proof (SFdiv_core_binary_spec mx my ex ey) as H.
  destruct (SFdiv_core_binary prec emax (Zpos mx) ex (Zpos my) ey)
    as [[q e'] l].
  destruct H as (Hq & He & _).
  destruct (binary_round_aux_spec (xorb sx sy) q e' l Hq He)
    as (Mf & ef & -> & _ & _ & Hs & _).
  apply pack_valid; assumption.
Qed.

(** Dividing an unsigned number by a positive finite one. *)
Lemma SFdiv_unsigned (x : spec_float) (my : positive) (ey : Z) :
  unsigned x = true ->
  unsigned (SFdiv prec emax x (S754_finite false my ey)) = true.
Proof.
  intros Hx.
  destruct x as [sx|sx| |sx mx ex]; try reflexivity;
    try (destruct sx; (reflexivity || discriminate)).
  destruct sx; try discriminate.
  unfold SFdiv.
  destruct (SFdiv_core_binary prec emax (Zpos mx) ex (Zpos my) ey)
    as [[q e'] l].
  apply binary_round_aux_unsigned.
Qed.


(** *** magnitudes: what stays finite *)

Lemma within_mono (B B' : Z) (x : spec_float) :
  B <= B' -> within B x -> within B' x.
Proof. destruct x; cbn; try tauto. lia. Qed.

Lemma pack_within (s : bool) (Mf ef B : Z) :
  settled Mf ef -> Zdigits2 Mf + ef <= B -> B <= emax ->
  within B (pack s Mf ef).
Proof.
  intros [[-> _]|[Hpos Hcan]] Hw HB; [exact I|].
  destruct Mf as [|m|m]; try lia. unfold pack_at.
  replace (ef <=? emax - prec) with true; [exact Hw|].
  symmetry. apply Z.leb_le. revert Hcan.
  unfold SpecFloat.fexp, SpecFloat.emin. lia.
Qed.

Lemma binary_round_aux_within (s : bool) (M e : Z) (l : location) (B : Z) :
  0 <= M -> e <= fexp (Zdigits2 M + e) ->
  Zdigits2 M + e + 1 <= B -> emin + 1 <= B -> B <= emax ->
  within B (binary_round_aux prec emax s M e l).
Proof.
  intros HM Hn H1 H2 H3.
  destruct (binary_round_aux_spec s M e l HM Hn)
    as (Mf & ef & -> & _ & _ & Hs & Hb).
  apply pack_within; [assumption | lia | assumption].
Qed.

Lemma binary_round_within (s : bool) (m : positive) (e B : Z) :
  Zdigits2 (Zpos m) + e + 1 <= B -> emin + 1 <= B -> B <= emax ->
  within B (binary_round prec emax s m e).
Proof.
  intros H1 H2 H3.
  destruct (binary_round_spec s m e) as (Mf & ef & -> & Hs & Hb).
  apply pack_within; [assumption | lia | assumption].
Qed.

Lemma Zpos_lt_pow2_digits (m : positive) : Zpos m < 2 ^ Zdigits2 (Zpos m).
Proof.
  rewrite Zdigits2_log2 by lia. apply Z.log2_spec. lia.
Qed.

Lemma SFadd_within (x y : spec_float) (Bx By B : Z) :
  within Bx x -> within By y -> unsigned x = true -> unsigned y = true ->
  Z.max Bx By + 2 <= B -> emin + 1 <= B -> B <= emax ->
  within B (SFadd prec emax x y).
Proof.
  intros Hx Hy Hux Huy HB Hemin Hemax.
  destruct x as [sx|sx| |sx mx ex], y as [sy|sy| |sy my ey];
    try contradiction;
    try (destruct sx, sy; exact I).
  - apply within_mono with By; [lia | exact Hy].
  - apply within_mono with Bx; [lia | exact Hx].
  - destruct sx, sy; try discriminate.
    unfold SFadd, cond_Zopp.
    destruct (shl_align_spec mx ex (Z.min ex ey)) as [_ HA].
    destruct (shl_align_spec my ey (Z.min ex ey)) as [_ HB'].
    replace (Z.min ex (Z.min ex ey)) with (Z.min ex ey) in HA by lia.
    replace (Z.min ey (Z.min ex ey)) with (Z.min ex ey) in HB' by lia.
    set (ez := Z.min ex ey) in *.
    set (a := fst (shl_align mx ex ez)) in *.
    set (b := fst (shl_align my ey ez)) in *.
    change (Zpos a + Zpos b) with (Zpos (a + b)).
    unfold binary_normalize.
    apply binary_round_within; try assumption.
    cbn [within] in Hx, Hy.
    set (W := Z.max (Zdigits2 (Zpos mx) + ex) (Zdigits2 (Zpos my) + ey) - ez).
    assert (Hdx : 1 <= Zdigits2 (Zpos mx)) by (cbn; lia).
    assert (Hdy : 1 <= Zdigits2 (Zpos my)) by (cbn; lia).
    assert (HW : 0 <= W) by (unfold W, ez; lia).
    assert (Ha : Zpos a <= 2 ^ W).
    { rewrite HA.
      apply Z.le_trans with (2 ^ Zdigits2 (Zpos mx) * 2 ^ (ex - ez)).
      - apply Z.mul_le_mono_nonneg_r; [apply Z.pow_nonneg; lia|].
        pose proof (Zpos_lt_pow2_digits mx). lia.
      - rewrite <- Z.pow_add_r by (unfold ez; lia).
        apply Z.pow_le_mono_r; unfold W; lia. }
    assert (Hb : Zpos b < 2 ^ W).
    { rewrite HB'.
      apply Z.lt_le_trans with (2 ^ Zdigits2 (Zpos my) * 2 ^ (ey - ez)).
      - apply Z.mul_lt_mono_pos_r; [apply Z.pow_pos_nonneg; unfold ez; lia|].
        apply Zpos_lt_pow2_digits.
      - rewrite <- Z.pow_add_r by (unfold ez; lia).
        apply Z.pow_le_mono_r; unfold W; lia. }
    assert (Hsum : Z.log2 (Zpos (a + b)) < W + 1).
    { apply Z.log2_lt_pow2; [lia|].
      rewrite Z.pow_add_r, Z.pow_1_r by lia. lia. }
    rewrite Zdigits2_log2 by lia. unfold W in *. lia.
Qed.

Lemma SFadd_not_nan (x y : spec_float) :
  unsigned x = true -> unsigned y = true ->
  x <> S754_nan -> y <> S754_nan -> SFadd prec emax x y <> S754_nan.
Proof.
  intros Hux Huy Hx Hy.
  destruct x as [sx|sx| |sx mx ex], y as [sy|sy| |sy my ey];
    try congruence;
    try (destruct sx, sy; (discriminate || congruence)).
  destruct sx, sy; try discriminate.
  unfold SFadd, cond_Zopp.
  change (Zpos ?a + Zpos ?b) with (Zpos (a + b)).
  unfold binary_normalize.
  destruct (binary_round_spec false
              (fst (shl_align mx ex (Z.min ex ey))
               + fst (shl_align my ey (Z.min ex ey))) (Z.min ex ey))
    as (Mf & ef & -> & [[-> _]|[Hpos _]] & _); [discriminate|].
  destruct Mf; try lia. unfold pack_at.
  destruct (ef <=? emax - prec); discriminate.
Qed.

Lemma SFmul_within (x y : spec_float) (Bx By B : Z) :
  valid x -> valid y -> within Bx x -> within By y ->
  Bx + By + 1 <= B -> emin + 1 <= B -> B <= emax ->
  within B (SFmul prec emax x y).
Proof.
  intros Hvx Hvy Hx Hy HB Hemin Hemax.
  destruct x as [sx|sx| |sx mx ex], y as [sy|sy| |sy my ey];
    try contradiction; try exact I.
  unfold valid_at, valid_binary, bounded in Hvx, Hvy.
  apply andb_prop in Hvx. destruct Hvx as [Hvx _].
  apply andb_prop in Hvy. destruct Hvy as [Hvy _].
  unfold SFmul. cbn [within] in Hx, Hy.
  apply binary_round_aux_within; try assumption; try lia.
  - apply SFmul_aligned; assumption.
  - rewrite !Zdigits2_log2 in * by lia. rewrite Pos2Z.inj_mul.
    pose proof (Z.log2_mul_above (Zpos mx) (Zpos my)). lia.
Qed.

Lemma SFdiv_within (x : spec_float) (sy : bool) (my : positive) (ey : Z)
  (Bx B : Z) :
  within Bx x ->
  Bx - (Zdigits2 (Zpos my) + ey) + 2 <= B -> emin + 1 <= B -> B <= emax ->
  within B (SFdiv prec emax x (S754_finite sy my ey)).
Proof.
  intros Hx HB Hemin Hemax.
  destruct x as [sx|sx| |sx mx ex]; try contradiction; try exact I.
  unfold SFdiv. cbn [within] in Hx.
  pose proof (SFdiv_core_binary_spec mx my ex ey) as H.
  destruct (SFdiv_core_binary prec emax (Zpos mx) ex (Zpos my) ey)
    as [[q e'] l].
  destruct H as (Hq & He & Hw).
  apply binary_round_aux_within; try assumption. lia.
Qed.

End Rounding.

(** *** the order of the comparison on unsigned values *)

Lemma SFleb_trans (x y z : spec_float) :
  unsigned x = true -> unsigned y = true -> unsigned z = true ->
  SFleb x y = true -> SFleb y z = true -> SFleb x z = true.
Proof.
  intros Hx Hy Hz.
  destruct x as [sx|sx| |sx mx ex], y as [sy|sy| |sy my ey],
           z as [sz|sz| |sz mz ez];
    try discriminate; try reflexivity;
    try (destruct sx; try discriminate);
    try (destruct sy; try discriminate);
    try (destruct sz; try discriminate);
    try reflexivity; try (intros; discriminate).
  unfold SFleb, SFcompare.
  rewrite !Pos.compare_cont_spec. cbn [Pos.switch_Eq].
  destruct (Z.compare_spec ex ey), (Z.compare_spec ey ez),
           (Z.compare_spec ex ez);
    try lia; try reflexivity; try (intros; discriminate); subst;
    destruct (Pos.compare_spec mx my), (Pos.compare_spec my mz),
             (Pos.compare_spec mx mz);
    try lia; try reflexivity; intros; discriminate.
Qed.

Lemma SFltb_of_leb (x y : spec_float) : SFleb x y = true -> SFltb y x = false.
Proof.
  destruct x as [sx|sx| |sx mx ex], y as [sy|sy| |sy my ey];
    try discriminate; try reflexivity;
    try (destruct sx; try discriminate; try reflexivity);
    try (destruct sy; try discriminate; try reflexivity);
    unfold SFleb, SFltb, SFcompare;
    rewrite !Pos.compare_cont_spec; cbn [Pos.switch_Eq];
    rewrite (Z.compare_antisym ex ey), (Pos.compare_antisym mx my);
    destruct (ex ?= ey); cbn [CompOpp]; try discriminate; try reflexivity;
    destruct (mx ?= my)%positive; cbn [CompOpp]; try discriminate; reflexivity.
Qed.

(* ================================================================== *)
(** ** The arithmetic of the sketch stays valid and unsigned           *)
(* ================================================================== *)

(** ** binary32 and binary64 instances *)


Lemma f2d_valid (x : float32) : valid64 (f2d x).
Proof. destruct x; try reflexivity. apply binary_round_valid; lia. Qed.

Lemma d2f_valid (x : float64) : valid32 (d2f x).
Proof. destruct x; try reflexivity. apply binary_round_valid; lia. Qed.

Lemma f2d_unsigned (x : float32) : unsigned x = true -> unsigned (f2d x) = true.
Proof.
  destruct x as [s|s| |s m e]; try (intros; assumption).
  destruct s; [discriminate|]. intros _. apply binary_round_unsigned; lia.
Qed.

Lemma d2f_unsigned (x : float64) : unsigned x = true -> unsigned (d2f x) = true.
Proof.
  destruct x as [s|s| |s m e]; try (intros; assumption).
  destruct s; [discriminate|]. intros _. apply binary_round_unsigned; lia.
Qed.

Lemma u2d_valid (n : Z) : valid64 (u2d n).
Proof. apply binary_normalize_valid; lia. Qed.

Lemma u2d_unsigned (n : Z) : 0 <= n -> unsigned (u2d n) = true.
Proof.
  intros Hn. destruct n; try lia; [reflexivity|].
  apply binary_round_unsigned; lia.
Qed.

Lemma sub32_nonneg (a b : Z) : 0 <= sub32 a b.
Proof. unfold sub32, UINT32_MOD. apply Z.mod_pos_bound. lia. Qed.

Lemma nonneg32_unsigned (x : float32) : nonneg32 x = true -> unsigned x = true.
Proof. destruct x as [s|[]| |[] m e]; try reflexivity; discriminate. Qed.

(** [(uint32_t difference) / 3600000.0] *)
Lemma hours_ok (n : Z) :
  0 <= n ->
  valid64 (b64_div (u2d n) lit_3600000_0)
  /\ unsigned (b64_div (u2d n) lit_3600000_0) = true.
Proof.
  intros Hn. split.
  - apply SFdiv_valid; try lia; [apply u2d_valid | reflexivity].
  - apply (SFdiv_unsigned 53 1024 (u2d n) 7730941132800000 (-31)).
    apply u2d_unsigned; assumption.
Qed.

(** [(a + b) / 2.0] stored into a [float]. *)
Lemma average_ok (a b : float32) :
  unsigned a = true -> unsigned b = true ->
  unsigned (d2f (b64_div (f2d (b32_add a b)) lit_2_0)) = true.
Proof.
  intros Ha Hb. apply d2f_unsigned.
  apply (SFdiv_unsigned 53 1024 _ 4503599627370496 (-51)).
  apply f2d_unsigned. apply SFadd_unsigned; (assumption || lia).
Qed.

Lemma kph_dist_delta_ok (s : Statics) (value : float32) (now : Z) :
  unsigned value = true -> unsigned (prev_kph s) = true ->
  valid64 (kph_dist_delta s value now)
  /\ unsigned (kph_dist_delta s value now) = true.
Proof.
  intros Hv Hp. unfold kph_dist_delta.
  destruct (0 <? lastSpeedTime s); [|split; reflexivity].
  destruct (positive32 value || positive32 (prev_kph s)); [|split; reflexivity].
  destruct (hours_ok (sub32 now (lastSpeedTime s)) (sub32_nonneg _ _))
    as [Hhv Hhu].
  split.
  - apply SFmul_valid; try lia; [apply f2d_valid | assumption].
  - apply SFmul_unsigned; [|assumption].
    apply f2d_unsigned, average_ok; assumption.
Qed.

Lemma maf_fuel_delta_ok (s : Statics) (value : float32) (now : Z) :
  unsigned value = true -> unsigned (prev_maf s) = true ->
  valid64 (maf_fuel_delta s value now)
  /\ unsigned (maf_fuel_delta s value now) = true.
Proof.
  intros Hv Hp. unfold maf_fuel_delta.
  destruct (0 <? lastFuelTime s); [|split; reflexivity].
  destruct (positive32 value || positive32 (prev_maf s)); [|split; reflexivity].
  destruct (hours_ok (sub32 now (lastFuelTime s)) (sub32_nonneg _ _))
    as [Hhv Hhu].
  split.
  - apply SFmul_valid; try lia; [apply f2d_valid | assumption].
  - apply SFmul_unsigned; [|assumption].
    apply f2d_unsigned, d2f_unsigned, SFmul_unsigned; [|reflexivity].
    apply f2d_unsigned, average_ok; assumption.
Qed.

Lemma maf_value_unsigned (cfg : Sketch) (reply : float32) :
  match FUEL_CORRECTION cfg with Some c => unsigned c = true | None => True end ->
  unsigned reply = true -> unsigned (maf_value cfg reply) = true.
Proof.
  unfold maf_value. destruct (FUEL_CORRECTION cfg) as [c|]; intros Hc Hr.
  - apply d2f_unsigned, SFmul_unsigned; [apply f2d_unsigned|]; assumption.
  - assumption.
Qed.

(** ** The totals along a trace *)




Lemma never_less_refl (a : float64) : unsigned a = true -> never_less a a.
Proof.
  intros Ha. destruct a as [s|s| |s m e] eqn:E;
    try (right; apply SFleb_refl; [discriminate | assumption]).
  left; reflexivity.
Qed.

Lemma never_less_trans (a b c : float64) :
  unsigned a = true -> unsigned b = true -> unsigned c = true ->
  never_less a b -> never_less b c -> never_less a c.
Proof.
  intros Ha Hb Hc Hab [Hc'|Hbc]; [left; assumption|].
  destruct Hab as [Hb'|Hab].
  - destruct b; discriminate.
  - right. unfold fge in *. apply SFleb_trans with b; assumption.
Qed.

Lemma never_less_not_lt (a b : float64) : never_less a b -> flt b a = false.
Proof.
  intros [Hn|Hge].
  - destruct b; try discriminate. reflexivity.
  - apply SFltb_of_leb. exact Hge.
Qed.

Lemma add_never_less (total delta : float64) :
  valid64 total -> unsigned total = true ->
  valid64 delta -> unsigned delta = true ->
  valid64 (b64_add total delta)
  /\ unsigned (b64_add total delta) = true
  /\ never_less total (b64_add total delta).
Proof.
  intros Hv Hu Hdv Hdu. split; [|split].
  - apply SFadd_valid; (assumption || lia).
  - apply SFadd_unsigned; (assumption || lia).
  - destruct (SFadd_grows 53 1024 ltac:(lia) total delta Hv Hu Hdu) as [H|H].
    + left. unfold b64_add. rewrite H. reflexivity.
    + right. exact H.
Qed.

Lemma pass_sane (cfg : Sketch) (m : Machine) (ev : Event) :
  nonneg_calibration cfg = true -> sane m -> nonneg_event ev = true ->
  sane (obdTask_pass cfg m ev)
  /\ never_less (global_totalDistanceTraveled (globals m))
                (global_totalDistanceTraveled (globals (obdTask_pass cfg m ev)))
  /\ never_less (global_totalFuelConsumed (globals m))
                (global_totalFuelConsumed (globals (obdTask_pass cfg m ev))).
Proof.
  intros Hcfg (Hdv & Hdu & Hfv & Hfu & Hpk & Hpm) Hev.
  assert (Hsame : sane m /\
            never_less (global_totalDistanceTraveled (globals m))
                       (global_totalDistanceTraveled (globals m)) /\
            never_less (global_totalFuelConsumed (globals m))
                       (global_totalFuelConsumed (globals m))).
  { repeat split; try assumption; apply never_less_refl; assumption. }
  destruct ev as [reply rx now| |mode]; cbn [obdTask_pass].
  - unfold connected_pass.
    destruct (currentState (statics m));
      destruct rx as [| |code]; try exact Hsame;
      cbn [nonneg_event] in Hev; try apply nonneg32_unsigned in Hev.
    + (* speed, success *)
      destruct (kph_dist_delta_ok (statics m) reply now Hev Hpk) as [Hv Hu].
      destruct (add_never_less _ _ Hdv Hdu Hv Hu) as (H1 & H2 & H3).
      unfold kph_success; cbn [globals statics global_totalDistanceTraveled
        global_totalFuelConsumed prev_kph prev_maf].
      repeat split; try assumption. apply never_less_refl; assumption.
    + (* MAF, success *)
      assert (Hval : unsigned (maf_value cfg reply) = true).
      { apply maf_value_unsigned; [|assumption].
        unfold nonneg_calibration in Hcfg.
        destruct (FUEL_CORRECTION cfg); [assumption | exact I]. }
      destruct (maf_fuel_delta_ok (statics m) _ now Hval Hpm) as [Hv Hu].
      destruct (add_never_less _ _ Hfv Hfu Hv Hu) as (H1 & H2 & H3).
      unfold maf_success; cbn [globals statics global_totalDistanceTraveled
        global_totalFuelConsumed prev_kph prev_maf].
      repeat split; try assumption. apply never_less_refl; assumption.
  - exact Hsame.
  - exact Hsame.
Qed.

Lemma trace_sane (cfg : Sketch) (trace : list Event) :
  forall m,
    nonneg_calibration cfg = true -> sane m ->
    forallb nonneg_event trace = true ->
    sane (obdTask cfg m trace)
    /\ never_less (global_totalDistanceTraveled (globals m))
                  (global_totalDistanceTraveled (globals (obdTask cfg m trace)))
    /\ never_less (global_totalFuelConsumed (globals m))
                  (global_totalFuelConsumed (globals (obdTask cfg m trace))).
Proof.
  induction trace as [|ev rest IH]; intros m Hcfg Hm Hall.
  - destruct Hm as (Hdv & Hdu & Hfv & Hfu & Hpk & Hpm).
    repeat split; try assumption; apply never_less_refl; assumption.
  - cbn [forallb] in Hall. apply andb_prop in Hall. destruct Hall as [Hev Hrest].
    destruct (pass_sane cfg m ev Hcfg Hm Hev) as (Hm' & Hd & Hf).
    destruct (IH _ Hcfg Hm' Hrest) as (Hm'' & Hd' & Hf').
    change (obdTask cfg m (ev :: rest))
      with (obdTask cfg (obdTask_pass cfg m ev) rest).
    split; [assumption|].
    destruct Hm as (_ & Hdu & _ & Hfu & _).
    destruct Hm' as (_ & Hdu' & _ & Hfu' & _).
    destruct Hm'' as (_ & Hdu'' & _ & Hfu'' & _).
    split.
    + apply never_less_trans
        with (global_totalDistanceTraveled (globals (obdTask_pass cfg m ev)));
        assumption.
    + apply never_less_trans
        with (global_totalFuelConsumed (globals (obdTask_pass cfg m ev)));
        assumption.
Qed.

Lemma initial_machine_sane : sane initial_machine.
Proof. repeat split. Qed.

Lemma nth_error_snapshots (cfg : Sketch) (trace : list Event) :
  forall m i g,
    nth_error (snapshots cfg m trace) i = Some g ->
    g = globals (obdTask cfg m (firstn i trace)) /\ (i <= List.length trace)%nat.
Proof.
  induction trace as [|ev rest IH]; intros m i g H.
  - destruct i as [|i]; cbn in H.
    + inversion H. split; [reflexivity | apply Nat.le_refl].
    + destruct i; discriminate.
  - destruct i as [|i]; cbn [snapshots nth_error] in H.
    + inversion H. split; [reflexivity | apply Nat.le_0_l].
    + destruct (IH _ _ _ H) as [Hg Hi]. split; [exact Hg|].
      cbn [List.length]. apply le_n_S. exact Hi.
Qed.

(** ** Readings in sensor range keep the totals away from NaN *)

Lemma sensor_range_within (x : float32) :
  sensor_range x = true -> within 100 x /\ unsigned x = true.
Proof.
  unfold sensor_range. intros H.
  apply andb_prop in H. destruct H as [H Hlt].
  apply andb_prop in H. destruct H as [Hv Hge].
  split; [|apply nonneg32_unsigned; exact Hge].
  destruct x as [s|[]| |[] m e]; try exact I; try discriminate.
  unfold valid_binary, bounded in Hv. apply andb_prop in Hv.
  destruct Hv as [Hcan _]. apply canonical_digits in Hcan.
  cbn [within]. rewrite Zdigits2_log2 by lia.
  revert Hlt. unfold flt, SFltb, SFcompare, two_pow_100.
  rewrite Pos.compare_cont_spec. cbn [Pos.switch_Eq].
  destruct (Z.compare_spec e 77) as [He|He|He]; try discriminate.
  - subst e. destruct (Pos.compare_spec m 8388608) as [Hm|Hm|Hm];
      try discriminate. intros _.
    assert (Z.log2 (Zpos m) < 23) by (apply Z.log2_lt_pow2; lia). lia.
  - intros _. revert Hcan. unfold fexp, emin. lia.
Qed.

Lemma f2d_within (x : float32) (B : Z) :
  within B x -> -1073 <= B + 1 <= 1024 -> within (B + 1) (f2d x).
Proof.
  intros Hx HB. destruct x as [s|s| |s m e]; try contradiction; [exact I|].
  apply binary_round_within; try lia; cbn [within] in Hx;
    unfold SpecFloat.emin; lia.
Qed.

Lemma d2f_within (x : float64) (B : Z) :
  within B x -> -148 <= B + 1 <= 128 -> within (B + 1) (d2f x).
Proof.
  intros Hx HB. destruct x as [s|s| |s m e]; try contradiction; [exact I|].
  apply binary_round_within; try lia; cbn [within] in Hx;
    unfold SpecFloat.emin; lia.
Qed.

Lemma sub32_lt (a b : Z) : sub32 a b < 2 ^ 32.
Proof. unfold sub32, UINT32_MOD. apply Z.mod_pos_bound. lia. Qed.

Lemma hours_within (n : Z) :
  0 <= n < 2 ^ 32 -> within 13 (b64_div (u2d n) lit_3600000_0).
Proof.
  intros Hn.
  change lit_3600000_0 with (S754_finite false 7730941132800000 (-31)).
  apply SFdiv_within with (Bx := 33); try (unfold SpecFloat.emin; cbn; lia).
  destruct n as [|p|p]; try lia; [exact I|].
  apply binary_round_within; try (unfold SpecFloat.emin; lia).
  assert (Z.log2 (Zpos p) < 32) by (apply Z.log2_lt_pow2; lia).
  rewrite Zdigits2_log2 by lia. lia.
Qed.

Lemma average_within (a b : float32) :
  within 104 a -> within 104 b -> unsigned a = true -> unsigned b = true ->
  within 108 (d2f (b64_div (f2d (b32_add a b)) lit_2_0)).
Proof.
  intros Ha Hb Hua Hub.
  apply (d2f_within _ 107); [|lia].
  change lit_2_0 with (S754_finite false 4503599627370496 (-51)).
  apply SFdiv_within with (Bx := 107); try (unfold SpecFloat.emin; cbn; lia).
  apply (f2d_within _ 106); [|lia].
  apply SFadd_within with (Bx := 104) (By := 104);
    try assumption; unfold SpecFloat.emin; lia.
Qed.

Lemma kph_dist_delta_within (s : Statics) (value : float32) (now : Z) :
  within 104 value -> within 104 (prev_kph s) ->
  unsigned value = true -> unsigned (prev_kph s) = true ->
  within 200 (kph_dist_delta s value now).
Proof.
  intros Hv Hp Huv Hup. unfold kph_dist_delta.
  destruct (0 <? lastSpeedTime s); [|exact I].
  destruct (positive32 value || positive32 (prev_kph s)); [|exact I].
  pose proof (sub32_nonneg now (lastSpeedTime s)) as H0.
  pose proof (sub32_lt now (lastSpeedTime s)) as H1.
  apply SFmul_within with (Bx := 109) (By := 13);
    try (unfold SpecFloat.emin; lia).
  - apply f2d_valid.
  - apply hours_ok; assumption.
  - apply (f2d_within _ 108); [|lia]. apply average_within; assumption.
  - apply hours_within; lia.
Qed.

Lemma maf_fuel_delta_within (s : Statics) (value : float32) (now : Z) :
  within 104 value -> within 104 (prev_maf s) ->
  unsigned value = true -> unsigned (prev_maf s) = true ->
  within 200 (maf_fuel_delta s value now).
Proof.
  intros Hv Hp Huv Hup. unfold maf_fuel_delta.
  destruct (0 <? lastFuelTime s); [|exact I].
  destruct (positive32 value || positive32 (prev_maf s)); [|exact I].
  pose proof (sub32_nonneg now (lastFuelTime s)) as H0.
  pose proof (sub32_lt now (lastFuelTime s)) as H1.
  apply SFmul_within with (Bx := 111) (By := 13);
    try (unfold SpecFloat.emin; lia).
  - apply f2d_valid.
  - apply hours_ok; assumption.
  - apply (f2d_within _ 110); [|lia].
    apply (d2f_within _ 109); [|lia].
    apply SFmul_within with (Bx := 109) (By := -1);
      try (unfold SpecFloat.emin; lia).
    + apply f2d_valid.
    + reflexivity.
    + apply (f2d_within _ 108); [|lia]. apply average_within; assumption.
    + cbn. lia.
  - apply hours_within; lia.
Qed.

Lemma modest_calibration_nonneg (cfg : Sketch) :
  modest_calibration cfg = true -> nonneg_calibration cfg = true.
Proof.
  unfold modest_calibration, nonneg_calibration.
  destruct (FUEL_CORRECTION cfg) as [[s|s| |[] m e]|];
    try discriminate; reflexivity.
Qed.

Lemma maf_value_within (cfg : Sketch) (reply : float32) :
  modest_calibration cfg = true -> within 100 reply ->
  within 104 (maf_value cfg reply).
Proof.
  unfold modest_calibration, maf_value.
  destruct (FUEL_CORRECTION cfg) as [[s|s| |[] m e]|]; try discriminate.
  - intros Hc Hr. apply andb_prop in Hc. destruct Hc as [Hv Hw].
    apply Z.leb_le in Hw.
    apply (d2f_within _ 103); [|lia].
    apply SFmul_within with (Bx := 101) (By := 1);
      try (unfold SpecFloat.emin; lia).
    + apply f2d_valid.
    + exact Hv.
    + apply (f2d_within _ 100); [assumption | lia].
    + exact Hw.
  - intros _ Hr. apply within_mono with 100; [lia | assumption].
Qed.

Lemma add_not_nan (total delta : float64) (B : Z) :
  unsigned total = true -> unsigned delta = true ->
  is_nan total = false -> within B delta ->
  is_nan (b64_add total delta) = false.
Proof.
  intros Hut Hud Hn Hw.
  assert (H : b64_add total delta <> S754_nan).
  { apply SFadd_not_nan; try assumption; try lia.
    - destruct total; (discriminate || congruence).
    - destruct delta; (discriminate || contradiction). }
  destruct (b64_add total delta); (reflexivity || congruence).
Qed.

Lemma pass_steady (cfg : Sketch) (m : Machine) (ev : Event) :
  modest_calibration cfg = true -> steady m -> sensor_range_event ev = true ->
  nonneg_event ev = true /\ steady (obdTask_pass cfg m ev).
Proof.
  intros Hcfg (Hsane & Hnd & Hnf & Hwk & Hwm) Hev.
  assert (Hnn : nonneg_event ev = true).
  { destruct ev as [reply [| |code] now| |mode]; try reflexivity.
    cbn in Hev |- *. unfold sensor_range in Hev.
    apply andb_prop in Hev. destruct Hev as [Hev _].
    apply andb_prop in Hev. apply Hev. }
  split; [exact Hnn|].
  pose proof (modest_calibration_nonneg cfg Hcfg) as Hcfg'.
  destruct (pass_sane cfg m ev Hcfg' Hsane Hnn) as (Hsane' & _ & _).
  split; [exact Hsane'|].
  destruct Hsane as (Hdv & Hdu & Hfv & Hfu & Hpk & Hpm).
  destruct ev as [reply rx now| |mode]; cbn [obdTask_pass];
    try (repeat split; assumption).
  unfold connected_pass.
  destruct (currentState (statics m));
    destruct rx as [| |code]; try (repeat split; assumption);
    cbn [sensor_range_event] in Hev;
    apply sensor_range_within in Hev; destruct Hev as [Hw Hu].
  - (* speed, success *)
    assert (Hw' : within 104 reply) by (apply within_mono with 100; [lia|assumption]).
    pose proof (kph_dist_delta_within (statics m) reply now Hw' Hwk Hu Hpk) as Hd.
    destruct (kph_dist_delta_ok (statics m) reply now Hu Hpk) as [_ Hud].
    unfold kph_success; cbn [globals statics global_totalDistanceTraveled
      global_totalFuelConsumed prev_kph prev_maf].
    repeat split; try assumption.
    apply add_not_nan with 200; assumption.
  - (* MAF, success *)
    pose proof (maf_value_within cfg reply Hcfg Hw) as Hw'.
    assert (Hval : unsigned (maf_value cfg reply) = true).
    { apply maf_value_unsigned; [|assumption].
      unfold nonneg_calibration in Hcfg'.
      destruct (FUEL_CORRECTION cfg); [assumption | exact I]. }
    pose proof (maf_fuel_delta_within (statics m) _ now Hw' Hwm Hval Hpm) as Hd.
    destruct (maf_fuel_delta_ok (statics m) _ now Hval Hpm) as [_ Hud].
    unfold maf_success; cbn [globals statics global_totalDistanceTraveled
      global_totalFuelConsumed prev_kph prev_maf].
    repeat split; try assumption.
    apply add_not_nan with 200; assumption.
Qed.

Lemma trace_steady (cfg : Sketch) (trace : list Event) :
  forall m,
    modest_calibration cfg = true -> steady m ->
    forallb sensor_range_event trace = true ->
    forallb nonneg_event trace = true /\ steady (obdTask cfg m trace).
Proof.
  induction trace as [|ev rest IH]; intros m Hcfg Hm Hall.
  - split; [reflexivity | exact Hm].
  - cbn [forallb] in Hall. apply andb_prop in Hall. destruct Hall as [Hev Hrest].
    destruct (pass_steady cfg m ev Hcfg Hm Hev) as [Hnn Hm'].
    destruct (IH _ Hcfg Hm' Hrest) as [Hnn' Hm''].
    split; [cbn [forallb]; rewrite Hnn, Hnn'; reflexivity | exact Hm''].
Qed.

Lemma initial_machine_steady : steady initial_machine.
Proof. repeat split. Qed.

Lemma never_less_ge (a b : float64) :
  never_less a b -> is_nan b = false -> fge b a = true.
Proof. intros [H|H] Hn; [congruence | exact H]. Qed.

(* ================================================================== *)
(** ** Small facts used by the claims                                  *)
(* ================================================================== *)

Lemma SFadd_comm (prec emax : Z) (x y : spec_float) :
  SFadd prec emax x y = SFadd prec emax y x.
Proof.
  destruct x as [sx|sx| |sx mx ex], y as [sy|sy| |sy my ey];
    try reflexivity; try (destruct sx, sy; reflexivity).
  unfold SFadd. rewrite (Z.min_comm ey ex), Z.add_comm. reflexivity.
Qed.

(** The deltas of the sketch are the integrator of the specification. *)
Lemma kph_dist_delta_spec (s : Statics) (value : float32) (now : Z) :
  0 < lastSpeedTime s ->
  kph_dist_delta s value now
  = spec_distanceDeltaKm (prev_kph s) value (lastSpeedTime s) now.
Proof.
  intros Hlast. unfold kph_dist_delta, spec_distanceDeltaKm,
    spec_average, spec_deltaHours.
  apply Z.ltb_lt in Hlast. rewrite Hlast.
  rewrite (orb_comm (positive32 value)).
  unfold b32_add. rewrite (SFadd_comm 24 128 value). reflexivity.
Qed.

Lemma maf_fuel_delta_spec (s : Statics) (value : float32) (now : Z) :
  0 < lastFuelTime s ->
  maf_fuel_delta s value now
  = spec_fuelDeltaLiters (prev_maf s) value (lastFuelTime s) now.
Proof.
  intros Hlast. unfold maf_fuel_delta, spec_fuelDeltaLiters,
    spec_fuelRateLitersPerHour, spec_average, spec_deltaHours.
  apply Z.ltb_lt in Hlast. rewrite Hlast.
  rewrite (orb_comm (positive32 value)).
  unfold b32_add. rewrite (SFadd_comm 24 128 value). reflexivity.
Qed.

Lemma obdTask_app (cfg : Sketch) (m : Machine) (t1 t2 : list Event) :
  obdTask cfg m (t1 ++ t2) = obdTask cfg (obdTask cfg m t1) t2.
Proof. unfold obdTask. apply fold_left_app. Qed.

Lemma forallb_firstn {A : Type} (f : A -> bool) (n : nat) :
  forall l, forallb f l = true -> forallb f (firstn n l) = true.
Proof.
  induction n as [|n IH]; intros [|x l] H; try reflexivity.
  cbn in *. apply andb_prop in H. destruct H as [Hx Hl].
  rewrite Hx. apply IH. exact Hl.
Qed.

Lemma forallb_skipn {A : Type} (f : A -> bool) (n : nat) :
  forall l, forallb f l = true -> forallb f (skipn n l) = true.
Proof.
  induction n as [|n IH]; intros [|x l] H; try reflexivity; try exact H.
  cbn in *. apply andb_prop in H. apply IH. apply H.
Qed.

Lemma firstn_split (A : Type) (i j : nat) (l : list A) :
  (i <= j)%nat -> firstn j l = firstn i l ++ skipn i (firstn j l).
Proof.
  intros Hij. rewrite <- (firstn_skipn i (firstn j l)) at 1.
  rewrite firstn_firstn. rewrite Nat.min_l by exact Hij. reflexivity.
Qed.

(* ================================================================== *)
(** ** [round] and the clamp                                           *)
(* ================================================================== *)

Lemma binary_round_aux_exact (prec emax : Z) (s : bool) (M e : Z) :
  fexp prec emax (Zdigits2 M + e) = e ->
  binary_round_aux prec emax s M e loc_Exact = pack_at prec emax s M e.
Proof.
  intros H. unfold binary_round_aux, shr_fexp.
  rewrite H, Z.sub_diag. cbn [shr shr_record_of_loc shr_m loc_of_shr_record
                               round_nearest_even].
  rewrite H, Z.sub_diag. reflexivity.
Qed.

(** Widening a valid [float] to [double] keeps the value: the mantissa
    is shifted up to 53 bits. *)
Lemma f2d_finite (s : bool) (m : positive) (e : Z) :
  valid32 (S754_finite s m e) ->
  let d := Zdigits2 (Zpos m) in
  exists M : positive,
    Zpos M = Zpos m * 2 ^ (53 - d)
    /\ f2d (S754_finite s m e) = S754_finite s M (e + d - 53)
    /\ 1 <= d <= 24 /\ -149 <= e <= 104
    /\ (d < 24 -> e = -149).
Proof.
  intros Hv d.
  unfold valid32, valid_at, valid_binary, bounded in Hv.
  apply andb_prop in Hv. destruct Hv as [Hcan Hle].
  apply Z.leb_le in Hle.
  unfold canonical_mantissa in Hcan. apply Z.eqb_eq in Hcan.
  change (Zpos (digits2_pos m)) with d in Hcan.
  assert (Hd : 1 <= d) by (unfold d; cbn; lia).
  assert (Hrange : d <= 24 /\ -149 <= e /\ (d < 24 -> e = -149)).
  { revert Hcan. unfold fexp, emin. lia. }
  destruct Hrange as (Hd24 & Hemin & Hsub).
  unfold f2d, binary_round.
  change (Zpos (digits2_pos m)) with d.
  assert (Hf : fexp 53 1024 (d + e) = e + d - 53) by (unfold fexp, emin; lia).
  rewrite Hf.
  destruct (shl_align_spec m e (e + d - 53)) as [H2 H1].
  destruct (shl_align m e (e + d - 53)) as [M ez]. cbn [fst snd] in H1, H2.
  replace (Z.min e (e + d - 53)) with (e + d - 53) in * by lia.
  replace (e - (e + d - 53)) with (53 - d) in H1 by lia.
  subst ez. exists M. split; [exact H1|].
  assert (HdM : Zdigits2 (Zpos M) = 53).
  { rewrite (Zdigits2_log2 (Zpos M)) by lia. rewrite H1.
    rewrite Z.log2_mul_pow2 by lia.
    unfold d. rewrite (Zdigits2_log2 (Zpos m)) by lia. lia. }
  rewrite binary_round_aux_exact
    by (rewrite HdM; unfold fexp, emin; lia).
  unfold pack_at.
  replace (e + d - 53 <=? 1024 - 53) with true by (symmetry; apply Z.leb_le; lia).
  repeat split; (assumption || lia).
Qed.

(** [round] of a [double] that does not exceed the integer [K] (stored as
    [K * 2^46] at exponent -46, so 64 <= K < 128) does not exceed it. *)
Lemma c_round_below (K : Z) (MK : positive) (x : float64) :
  64 <= K -> Zpos MK = K * 2 ^ 46 ->
  (forall k : positive, Zpos k <= K ->
     SFltb (S754_finite false MK (-46)) (binary_round 53 1024 false k 0) = false) ->
  valid64 x ->
  SFltb (S754_finite false MK (-46)) x = false ->
  SFltb (S754_finite false MK (-46)) (c_round x) = false.
Proof.
  intros HK HMK Hsmall Hv Hx.
  destruct x as [s|s| |s m e]; try exact Hx.
  unfold c_round. destruct (0 <=? e) eqn:He; [exact Hx|].
  apply Z.leb_gt in He.
  destruct s.
  - (* negative *)
    destruct (Z.shiftr (Z.pos m + Z.shiftl 1 (- e - 1)) (- e)) as [|k|k];
      try reflexivity.
    destruct (binary_round_spec 53 1024 ltac:(lia) true k 0)
      as (Mf & ef & -> & _).
    unfold pack_at. destruct Mf; [| destruct (ef <=? 1024 - 53) |]; reflexivity.
  - (* positive: bound the rounded integer *)
    unfold valid64, valid_at, valid_binary, bounded in Hv.
    apply andb_prop in Hv. destruct Hv as [Hcan _].
    apply canonical_digits in Hcan.
    assert (Hm53 : Zpos m < 2 ^ 53).
    { apply Z.log2_lt_pow2; [lia|]. revert Hcan. unfold fexp, emin. lia. }
    assert (Hcmp : e <= -46 /\ (e = -46 -> Zpos m <= Zpos MK)).
    { revert Hx. unfold SFltb, SFcompare.
      destruct (Z.compare_spec (-46) e) as [H|H|H]; try discriminate.
      - subst e. rewrite Pos.compare_cont_spec. cbn [Pos.switch_Eq].
        destruct (Pos.compare_spec MK m); try discriminate; intros _; lia.
      - intros _. lia. }
    destruct Hcmp as [He46 Heq].
    assert (Hk : Z.shiftr (Z.pos m + Z.shiftl 1 (- e - 1)) (- e) < K + 1).
    { rewrite Z.shiftr_div_pow2 by lia. rewrite Z.shiftl_mul_pow2 by lia.
      rewrite Z.mul_1_l.
      apply Z.div_lt_upper_bound; [apply Z.pow_pos_nonneg; lia|].
      assert (Hhalf : 2 * 2 ^ (- e - 1) = 2 ^ (- e)).
      { rewrite <- Z.pow_succ_r by lia. f_equal. lia. }
      destruct (Z.eq_dec e (-46)) as [->|Hne].
      - specialize (Heq eq_refl). change (- -46) with 46 in *.
        change (46 - 1) with 45 in *. lia.
      - assert (H47 : 2 ^ 53 <= 64 * 2 ^ (- e)).
        { change 64 with (2 ^ 6). rewrite <- Z.pow_add_r by lia.
          apply Z.pow_le_mono_r; lia. }
        assert (0 < 2 ^ (- e)) by (apply Z.pow_pos_nonneg; lia).
        nia. }
    destruct (Z.shiftr (Z.pos m + Z.shiftl 1 (- e - 1)) (- e)) as [|k|k];
      try reflexivity.
    apply Hsmall. lia.
Qed.

Lemma small_integers_below (K : Z) (MK : positive) :
  forallb (fun k => negb (SFltb (S754_finite false MK (-46))
                            (binary_round 53 1024 false (Z.to_pos k) 0)))
          (map Z.of_nat (seq 1 (Z.to_nat K))) = true ->
  forall k : positive, Zpos k <= K ->
    SFltb (S754_finite false MK (-46)) (binary_round 53 1024 false k 0) = false.
Proof.
  intros Hall k Hk. rewrite forallb_forall in Hall.
  specialize (Hall (Zpos k)). rewrite Pos2Z.id in Hall.
  apply negb_true_iff. apply Hall.
  apply in_map_iff. exists (Pos.to_nat k). split; [apply positive_nat_Z|].
  apply in_seq. lia.
Qed.

Lemma c_round_below_99 (x : float64) :
  valid64 x -> fgt x (u2d 99) = false -> fgt (c_round x) (u2d 99) = false.
Proof.
  apply (c_round_below 99 6966505673588736); [lia | reflexivity |].
  apply small_integers_below. vm_compute. reflexivity.
Qed.

Lemma c_round_below_90 (x : float64) :
  valid64 x -> fgt x (u2d 90) = false -> fgt (c_round x) (u2d 90) = false.
Proof.
  apply (c_round_below 90 6333186975989760); [lia | reflexivity |].
  apply small_integers_below. vm_compute. reflexivity.
Qed.

(** A [float] that is not above 90 is not above 90.0 once widened. *)
Lemma f2d_below_90 (v : float32) :
  valid32 v -> fgt v (i2f 90) = false -> fgt (f2d v) (u2d 90) = false.
Proof.
  intros Hv Hle. destruct v as [s|s| |s m e]; try exact Hle.
  destruct (f2d_finite s m e Hv) as (M & HM & -> & Hd & He & Hsub).
  destruct s; [reflexivity|].
  revert Hle. unfold fgt, SFltb, SFcompare.
  change (i2f 90) with (S754_finite false 11796480 (-17)).
  change (u2d 90) with (S754_finite false 6333186975989760 (-46)).
  cbv iota beta. rewrite !Pos.compare_cont_spec. cbn [Pos.switch_Eq].
  set (d := Zdigits2 (Zpos m)) in *.
  destruct (Z.compare_spec (-17) e) as [H|H|H]; try discriminate.
  - subst e. assert (d = 24) by lia.
    replace (-17 + d - 53) with (-46) by lia. rewrite Z.compare_refl.
    destruct (Pos.compare_spec 11796480 m) as [H1|H1|H1]; try discriminate;
      intros _.
    + subst m. replace (53 - d) with 29 in HM by lia.
      destruct (Pos.compare_spec 6333186975989760 M); try reflexivity. lia.
    + replace (53 - d) with 29 in HM by lia.
      destruct (Pos.compare_spec 6333186975989760 M); try reflexivity. lia.
  - intros _.
    destruct (Z.compare_spec (-46) (e + d - 53)) as [H1|H1|H1];
      try reflexivity; lia.
Qed.

(* ================================================================== *)
(** ** The claims                                                      *)
(* ================================================================== *)

(** C1 (amended). A successful speed poll that finds a previous-sample
    timestamp other than 0 adds to the cumulative distance exactly the
    trapezoidal delta of the specification: the average of the previous
    and the current sample times the elapsed hours when either sample is
    > 0, and 0 otherwise. In particular a previous sample of 80 km/h and
    a current one of 100 km/h taken 3600000 ms later add exactly 90 km. *)
Theorem C1_distance_delta_is_trapezoid
  (cfg : Sketch) (m : Machine) (value : float32) (now : Z) :
  currentState (statics m) = OBD_STATE_KPH ->
  0 < lastSpeedTime (statics m) ->
  let m' := obdTask_pass cfg m (Poll value ELM_SUCCESS now) in
  let delta :=
    spec_distanceDeltaKm (prev_kph (statics m)) value
                         (lastSpeedTime (statics m)) now in
  global_totalDistanceTraveled (globals m')
  = b64_add (global_totalDistanceTraveled (globals m)) delta
  /\ (prev_kph (statics m) = i2f 80 -> value = i2f 100 ->
      sub32 now (lastSpeedTime (statics m)) = 3600000 ->
      delta = u2d 90).
Proof.
  intros Hst Hlast m' delta. split.
  - unfold m'. cbn [obdTask_pass]. unfold connected_pass. rewrite Hst.
    unfold kph_success. cbn [globals global_totalDistanceTraveled].
    rewrite kph_dist_delta_spec by assumption. reflexivity.
  - intros Hp Hv Hdt. unfold delta, spec_distanceDeltaKm, spec_deltaHours.
    rewrite Hp, Hv, Hdt. vm_compute. reflexivity.
Qed.

Lemma C1_witness :
  global_totalDistanceTraveled
    (globals (obdTask_pass sketch_plain sampled_at_tick_1000
                (Poll (i2f 100) ELM_SUCCESS 3601000)))
  = b64_add zero64 (u2d 90).
Proof.
  destruct (C1_distance_delta_is_trapezoid sketch_plain sampled_at_tick_1000
              (i2f 100) 3601000 eq_refl eq_refl) as [Hadd Hninety].
  rewrite Hadd. rewrite Hninety; reflexivity.
Defined.

(** C1, as stated, fails when the previous sample was taken at tick 0:
    [lastSpeedTime == 0] means "no previous sample" to the sketch, so 80
    km/h at t = 0 and 100 km/h at t = 3600000 add 0 km, not 90. *)
Lemma C1_counterexample_previous_sample_at_tick_0 :
  prev_kph (statics sampled_at_tick_0) = i2f 80
  /\ lastSpeedTime (statics sampled_at_tick_0) = 0
  /\ currentState (statics sampled_at_tick_0) = OBD_STATE_KPH
  /\ spec_distanceDeltaKm (i2f 80) (i2f 100) 0 3600000 = u2d 90
  /\ kph_dist_delta (statics sampled_at_tick_0) (i2f 100) 3600000 = zero64
  /\ global_totalDistanceTraveled
       (globals (obdTask_pass sketch_plain sampled_at_tick_0
                   (Poll (i2f 100) ELM_SUCCESS 3600000))) = zero64
  /\ feq zero64 (u2d 90) = false.
Proof. vm_compute. repeat split. Qed.

(** In the earlier copy the reset of the reconnection branch is the one the
    integrator reads: whatever the gap, the first MAF sample after a
    link-down pass adds 0 to both totals. *)
Lemma early_copy_first_sample_after_link_loss
  (e : Early.Machine) (reply : float32) (t1 t2 : Z) :
  Early.currentState (Early.statics e) = Early.OBD_STATE_MAF ->
  let e' := Early.obdTask_pass (Early.obdTask_pass e Early.LinkLost)
              (Early.Poll reply ELM_SUCCESS t1 t2) in
  Early.global_totalDistanceTraveled (Early.globals e')
  = b64_add (Early.global_totalDistanceTraveled (Early.globals e)) zero64
  /\ Early.global_totalFuelConsumed (Early.globals e')
     = b64_add (Early.global_totalFuelConsumed (Early.globals e)) zero64.
Proof.
  intros Hst. cbn [Early.obdTask_pass]. unfold Early.connected_pass.
  cbn [Early.link_down_pass Early.statics Early.currentState].
  rewrite Hst. split; reflexivity.
Qed.

(** C2 (the sketch departs from the claim). Link-down handling leaves both
    totals as they were, but it clears [lastSuccessfulMpgPollTime], which
    the state machine never reads, and not [lastSpeedTime], [prev_kph],
    [lastFuelTime], [prev_maf]: the first speed sample after the gap adds
    the trapezoid across the whole gap (here 90 km on top of 10 km), and
    the first MAF sample adds fuel across it. *)
Theorem C2_first_sample_after_reconnect_spans_the_gap :
  let before := machine_before_link_loss in
  let down := machine_after_link_loss in
  let speed_back :=
    obdTask_pass sketch_plain down (Poll (i2f 100) ELM_SUCCESS 4051000) in
  let maf_back :=
    obdTask_pass sketch_plain speed_back (Poll (i2f 20) ELM_SUCCESS 4051100) in
  global_totalDistanceTraveled (globals before) = u2d 10
  /\ global_totalDistanceTraveled (globals down) = u2d 10
  /\ global_totalFuelConsumed (globals down)
     = global_totalFuelConsumed (globals before)
  /\ lastSuccessfulMpgPollTime (statics down) = 0
  /\ lastSpeedTime (statics down) = 451000
  /\ prev_kph (statics down) = i2f 80
  /\ lastFuelTime (statics down) = 451100
  /\ prev_maf (statics down) = i2f 20
  /\ currentState (statics down) = OBD_STATE_KPH
  /\ global_totalDistanceTraveled (globals speed_back) = u2d 100
  /\ flt (global_totalFuelConsumed (globals down))
         (global_totalFuelConsumed (globals maf_back)) = true.
Proof. vm_compute. repeat split. Qed.

(** C3. Along any trace of passes (successful, pending and failed polls,
    link losses, mode changes) whose successful readings are non-negative,
    no later snapshot has a cumulative distance or a cumulative fuel below
    that of an earlier one: the later total is a NaN or compares [>=] the
    earlier one. With readings in sensor range no total is ever a NaN, so
    the later total compares [>=] the earlier one. *)
Theorem C3_totals_never_decrease
  (cfg : Sketch) (trace : list Event) (i j : nat) (gi gj : Globals) :
  nonneg_calibration cfg = true ->
  forallb nonneg_event trace = true ->
  (i <= j)%nat ->
  nth_error (snapshots cfg initial_machine trace) i = Some gi ->
  nth_error (snapshots cfg initial_machine trace) j = Some gj ->
  flt (global_totalDistanceTraveled gj) (global_totalDistanceTraveled gi) = false
  /\ flt (global_totalFuelConsumed gj) (global_totalFuelConsumed gi) = false
  /\ never_less (global_totalDistanceTraveled gi) (global_totalDistanceTraveled gj)
  /\ never_less (global_totalFuelConsumed gi) (global_totalFuelConsumed gj)
  /\ (modest_calibration cfg = true ->
      forallb sensor_range_event trace = true ->
      fge (global_totalDistanceTraveled gj) (global_totalDistanceTraveled gi)
      = true
      /\ fge (global_totalFuelConsumed gj) (global_totalFuelConsumed gi) = true).
Proof.
  intros Hcfg Hall Hij Hi Hj.
  apply nth_error_snapshots in Hi. destruct Hi as [-> _].
  apply nth_error_snapshots in Hj. destruct Hj as [-> _].
  assert (Hsteady : modest_calibration cfg = true ->
                    forallb sensor_range_event trace = true ->
                    steady (obdTask cfg initial_machine (firstn j trace))).
  { intros Hm Hr.
    apply (trace_steady cfg (firstn j trace) initial_machine Hm
             initial_machine_steady (forallb_firstn _ _ _ Hr)). }
  rewrite (firstn_split _ i j trace Hij), obdTask_app in *.
  destruct (trace_sane cfg (firstn i trace) initial_machine Hcfg
              initial_machine_sane (forallb_firstn _ _ _ Hall))
    as (Hsane & _ & _).
  destruct (trace_sane cfg (skipn i (firstn j trace))
              (obdTask cfg initial_machine (firstn i trace)) Hcfg Hsane
              (forallb_skipn _ _ _ (forallb_firstn _ j _ Hall)))
    as (_ & Hd & Hf).
  repeat split; try assumption; try (apply never_less_not_lt; assumption);
    destruct (Hsteady H H0) as (_ & Hnd & Hnf & _);
    apply never_less_ge; assumption.
Qed.

Lemma C3_witness :
  fge (global_totalDistanceTraveled (globals machine_before_link_loss))
      (global_totalDistanceTraveled (globals initial_machine)) = true
  /\ fge (global_totalFuelConsumed (globals machine_before_link_loss))
         (global_totalFuelConsumed (globals initial_machine)) = true.
Proof.
  apply (C3_totals_never_decrease sketch_plain trip_before_link_loss 0 4
           (globals initial_machine) (globals machine_before_link_loss)
           eq_refl eq_refl (Nat.le_0_l 4) eq_refl eq_refl);
    reflexivity.
Defined.

(** C4 (amended). A successful MAF poll that finds a previous MAF
    timestamp other than 0 (the sketch's marker for "a previous sample
    exists") adds
    to the cumulative fuel the trapezoidal average of the previous and
    the current MAF sample, converted with 0.33094 and multiplied by the
    elapsed hours (0 when neither sample is > 0). A constant 20 g/s over
    exactly one hour adds 6.6188 l to within a millionth of a litre, and
    1.08 times that where the reading is calibrated. *)
Theorem C4_fuel_delta_is_trapezoid
  (cfg : Sketch) (m : Machine) (reply : float32) (now : Z) :
  currentState (statics m) = OBD_STATE_MAF ->
  0 < lastFuelTime (statics m) ->
  let m' := obdTask_pass cfg m (Poll reply ELM_SUCCESS now) in
  let value := maf_value cfg reply in
  let delta :=
    spec_fuelDeltaLiters (prev_maf (statics m)) value
                         (lastFuelTime (statics m)) now in
  global_totalFuelConsumed (globals m')
  = b64_add (global_totalFuelConsumed (globals m)) delta
  /\ (positive32 (prev_maf (statics m)) || positive32 value = true ->
      delta = b64_mul
                (f2d (d2f (b64_mul
                             (f2d (spec_average (prev_maf (statics m)) value))
                             lit_0_33094)))
                (spec_deltaHours (lastFuelTime (statics m)) now))
  /\ (sub32 now (lastFuelTime (statics m)) = 3600000 ->
      (prev_maf (statics m) = i2f 20 -> value = i2f 20 ->
       (Qabs (SF2Q delta - (66188 # 10000)) < (1 # 1000000))%Q)
      /\ (prev_maf (statics m) = maf_value sketch_calibrated (i2f 20) ->
          value = maf_value sketch_calibrated (i2f 20) ->
          (Qabs (SF2Q delta - (108 # 100) * (66188 # 10000)) < (1 # 1000000))%Q)).
Proof.
  intros Hst Hlast m' value delta. split; [|split].
  - unfold m'. cbn [obdTask_pass]. unfold connected_pass. rewrite Hst.
    unfold maf_success. cbn [globals global_totalFuelConsumed].
    rewrite maf_fuel_delta_spec by assumption. reflexivity.
  - intros Hpos. unfold delta, spec_fuelDeltaLiters,
      spec_fuelRateLitersPerHour. rewrite Hpos. reflexivity.
  - intros Hdt.
    split; intros Hp Hv; unfold delta, spec_fuelDeltaLiters, spec_deltaHours;
      rewrite Hp, Hv, Hdt; vm_compute; reflexivity.
Qed.

Lemma C4_witness :
  let m := obdTask_pass sketch_plain machine_before_link_loss
             (Poll (i2f 80) ELM_SUCCESS 452000) in
  let delta := spec_fuelDeltaLiters (i2f 20) (i2f 20) 451100 4051100 in
  global_totalFuelConsumed
    (globals (obdTask_pass sketch_plain m (Poll (i2f 20) ELM_SUCCESS 4051100)))
  = b64_add (global_totalFuelConsumed (globals m)) delta
  /\ (Qabs (SF2Q delta - (66188 # 10000)) < (1 # 1000000))%Q.
Proof.
  intros m delta.
  destruct (C4_fuel_delta_is_trapezoid sketch_plain m (i2f 20) 4051100
              eq_refl eq_refl) as (Hadd & _ & Hhour).
  split; [exact Hadd|].
  exact (proj1 (Hhour eq_refl) eq_refl eq_refl).
Defined.

(** C4, as stated, fails when the previous MAF sample was taken at tick
    0: [lastFuelTime == 0] means "no previous sample" to the sketch, so a
    second valid MAF sample of 20 g/s one hour after a first one stamped
    at tick 0 adds 0 l, not 6.6188 l. *)
Lemma C4_counterexample_previous_sample_at_tick_0 :
  prev_maf (statics maf_sampled_at_tick_0) = i2f 20
  /\ lastFuelTime (statics maf_sampled_at_tick_0) = 0
  /\ currentState (statics maf_sampled_at_tick_0) = OBD_STATE_MAF
  /\ (Qabs (SF2Q (spec_fuelDeltaLiters (i2f 20) (i2f 20) 0 3600000)
            - (66188 # 10000)) < (1 # 1000000))%Q
  /\ maf_fuel_delta (statics maf_sampled_at_tick_0) (i2f 20) 3600000 = zero64
  /\ global_totalFuelConsumed
       (globals (obdTask_pass sketch_plain maf_sampled_at_tick_0
                   (Poll (i2f 20) ELM_SUCCESS 3600000))) = zero64
  /\ feq zero64 (spec_fuelDeltaLiters (i2f 20) (i2f 20) 0 3600000) = false.
Proof. vm_compute. repeat split. Qed.

(** C5. The first successful speed sample after startup adds nothing to
    either total but records the sample and its timestamp, so the next
    one integrates from it; the same holds for the first successful MAF
    sample, whose successor adds the trapezoid of the two MAF samples to
    the fuel total. More generally a sample that finds the timestamp 0
    has a zero delta. *)
Theorem C5_first_sample_adds_nothing
  (cfg : Sketch) (kph maf : float32) (t1 t2 : Z) :
  let first_speed := obdTask_pass cfg initial_machine (Poll kph ELM_SUCCESS t1) in
  let first_maf := obdTask_pass cfg first_speed (Poll maf ELM_SUCCESS t2) in
  (* speed *)
  kph_dist_delta (statics initial_machine) kph t1 = zero64
  /\ global_totalDistanceTraveled (globals first_speed) = zero64
  /\ global_totalFuelConsumed (globals first_speed) = zero64
  /\ global_totalDistanceTraveledTimer (globals first_speed) = 0
  /\ prev_kph (statics first_speed) = kph
  /\ lastSpeedTime (statics first_speed) = t1
  /\ currentState (statics first_speed) = OBD_STATE_MAF
  (* MAF *)
  /\ maf_fuel_delta (statics first_speed) (maf_value cfg maf) t2 = zero64
  /\ global_totalFuelConsumed (globals first_maf) = zero64
  /\ global_totalDistanceTraveled (globals first_maf) = zero64
  /\ prev_maf (statics first_maf) = maf_value cfg maf
  /\ lastFuelTime (statics first_maf) = t2
  (* any sample that finds no previous timestamp *)
  /\ (forall s value now, lastSpeedTime s = 0 ->
        kph_dist_delta s value now = zero64 /\ kph_time_delta_ms s now = 0)
  /\ (forall s value now, lastFuelTime s = 0 ->
        maf_fuel_delta s value now = zero64)
  (* and the sample after the first one integrates from it *)
  /\ (forall kph' t1', 0 < t1 ->
        kph_dist_delta (statics first_speed) kph' t1'
        = spec_distanceDeltaKm kph kph' t1 t1')
  (* on the fuel channel too *)
  /\ (forall value' t2', 0 < t2 ->
        maf_fuel_delta (statics first_maf) value' t2'
        = spec_fuelDeltaLiters (maf_value cfg maf) value' t2 t2')
  (* the second speed and the second MAF sample put these deltas on the
     totals *)
  /\ (forall kph' maf' t1' t2',
        let second_speed :=
          obdTask_pass cfg first_maf (Poll kph' ELM_SUCCESS t1') in
        let second_maf :=
          obdTask_pass cfg second_speed (Poll maf' ELM_SUCCESS t2') in
        (0 < t1 ->
           global_totalDistanceTraveled (globals second_speed)
           = b64_add zero64 (spec_distanceDeltaKm kph kph' t1 t1'))
        /\ (0 < t2 ->
            global_totalFuelConsumed (globals second_maf)
            = b64_add zero64
                (spec_fuelDeltaLiters (maf_value cfg maf) (maf_value cfg maf')
                                      t2 t2'))).
Proof.
  intros first_speed first_maf.
  assert (Hst : currentState (statics first_speed) = OBD_STATE_MAF).
  { unfold first_speed. cbn.
    destruct (drag_mode_polls_speed_only cfg); reflexivity. }
  assert (Hmaf : first_maf = maf_success first_speed (maf_value cfg maf) t2).
  { unfold first_maf. cbn [obdTask_pass]. unfold connected_pass.
    rewrite Hst. reflexivity. }
  repeat match goal with |- _ /\ _ => split end;
    try reflexivity; try assumption.
  - unfold first_speed, obdTask_pass, connected_pass, kph_success.
    cbn [statics globals initial_machine initial_statics currentState
         global_totalDistanceTraveledTimer].
    destruct (positive32 kph); reflexivity.
  - rewrite Hmaf. reflexivity.
  - rewrite Hmaf. reflexivity.
  - rewrite Hmaf. reflexivity.
  - rewrite Hmaf. reflexivity.
  - intros s value now H. split.
    + unfold kph_dist_delta. rewrite H. reflexivity.
    + unfold kph_time_delta_ms. rewrite H. reflexivity.
  - intros s value now H. unfold maf_fuel_delta. rewrite H. reflexivity.
  - intros kph' t1' Ht1. apply (kph_dist_delta_spec (statics first_speed)).
    exact Ht1.
  - intros value' t2' Ht2. rewrite Hmaf.
    apply (maf_fuel_delta_spec (statics (maf_success first_speed _ t2))).
    exact Ht2.
  - intros kph' maf' t1' t2' second_speed second_maf.
    assert (Hst1 : currentState (statics first_maf) = OBD_STATE_KPH).
    { rewrite Hmaf. reflexivity. }
    assert (Hspeed : second_speed = kph_success cfg first_maf kph' t1').
    { unfold second_speed. cbn [obdTask_pass]. unfold connected_pass.
      rewrite Hst1. reflexivity. }
    assert (Hst2 : currentState (statics second_speed) = OBD_STATE_MAF).
    { rewrite Hspeed, Hmaf. cbn.
      destruct (drag_mode_polls_speed_only cfg); reflexivity. }
    split.
    + intros Ht1. rewrite Hspeed. unfold kph_success.
      cbn [globals global_totalDistanceTraveled].
      rewrite (kph_dist_delta_spec (statics first_maf)) by (rewrite Hmaf; exact Ht1).
      rewrite Hmaf. reflexivity.
    + intros Ht2. unfold second_maf. cbn [obdTask_pass]. unfold connected_pass.
      rewrite Hst2. unfold maf_success.
      cbn [globals global_totalFuelConsumed].
      rewrite (maf_fuel_delta_spec (statics second_speed))
        by (rewrite Hspeed, Hmaf; exact Ht2).
      rewrite Hspeed, Hmaf. reflexivity.
Qed.

Lemma C5_witness :
  let first_speed :=
    obdTask_pass sketch_plain initial_machine (Poll (i2f 80) ELM_SUCCESS 1000) in
  let first_maf :=
    obdTask_pass sketch_plain first_speed (Poll (i2f 20) ELM_SUCCESS 1100) in
  (kph_dist_delta (statics first_speed) (i2f 100) 3601000
   = spec_distanceDeltaKm (i2f 80) (i2f 100) 1000 3601000
   /\ spec_distanceDeltaKm (i2f 80) (i2f 100) 1000 3601000 = u2d 90)
  /\ (maf_fuel_delta (statics first_maf) (i2f 20) 3601100
      = spec_fuelDeltaLiters (i2f 20) (i2f 20) 1100 3601100
      /\ (Qabs (SF2Q (spec_fuelDeltaLiters (i2f 20) (i2f 20) 1100 3601100)
                - (66188 # 10000)) < (1 # 1000000))%Q).
Proof.
  intros first_speed first_maf.
  destruct (C5_first_sample_adds_nothing sketch_plain (i2f 80) (i2f 20)
              1000 1100) as (_ & _ & _ & _ & _ & _ & _ & _ & _ & _
                                          & _ & _ & _ & _ & Hnext & Hfuel & _).
  split; split.
  - apply Hnext. reflexivity.
  - vm_compute. reflexivity.
  - apply (Hfuel (i2f 20) 3601100). reflexivity.
  - vm_compute. reflexivity.
Defined.


(** C6. On a hard failure (an error, not "still receiving") the speed
    state stays in the speed state and the MAF state goes to the speed
    state; a pending reply changes nothing in either state. *)
Theorem C6_hard_failure_is_asymmetric
  (cfg : Sketch) (m : Machine) (reply : float32) (code now : Z) :
  (currentState (statics m) = OBD_STATE_KPH ->
     obdTask_pass cfg m (Poll reply (ELM_ERROR code) now) = m
     /\ currentState
          (statics (obdTask_pass cfg m (Poll reply (ELM_ERROR code) now)))
        = OBD_STATE_KPH
     /\ obdTask_pass cfg m (Poll reply ELM_GETTING_MSG now) = m)
  /\ (currentState (statics m) = OBD_STATE_MAF ->
     currentState
       (statics (obdTask_pass cfg m (Poll reply (ELM_ERROR code) now)))
     = OBD_STATE_KPH
     /\ globals (obdTask_pass cfg m (Poll reply (ELM_ERROR code) now))
        = globals m
     /\ obdTask_pass cfg m (Poll reply ELM_GETTING_MSG now) = m).
Proof.
  split; intros Hst; cbn [obdTask_pass]; unfold connected_pass; rewrite Hst;
    repeat split; try reflexivity; assumption.
Qed.

Lemma C6_witness :
  currentState
    (statics (obdTask_pass sketch_plain sampled_at_tick_1000
                (Poll zero32 (ELM_ERROR 7) 2000))) = OBD_STATE_KPH
  /\ currentState
       (statics (obdTask_pass sketch_plain
                   (obdTask_pass sketch_plain initial_machine
                      (Poll (i2f 80) ELM_SUCCESS 1000))
                   (Poll zero32 (ELM_ERROR 7) 2000))) = OBD_STATE_KPH.
Proof.
  split.
  - exact (proj1 (proj2 (proj1 (C6_hard_failure_is_asymmetric sketch_plain
             sampled_at_tick_1000 zero32 7 2000) eq_refl))).
  - exact (proj1 (proj2 (C6_hard_failure_is_asymmetric sketch_plain
             (obdTask_pass sketch_plain initial_machine
                (Poll (i2f 80) ELM_SUCCESS 1000)) zero32 7 2000) eq_refl)).
Defined.

(** C7. A pass that finds the link down writes -1.0 (not a valid speed:
    neither > 0 nor > -1) into the speed reading and leaves every other
    published field as it was. *)
Theorem C7_link_down_touches_only_speed (cfg : Sketch) (m : Machine) :
  let g := globals m in
  let g' := globals (obdTask_pass cfg m LinkLost) in
  global_vss_kph g' = lit_minus_1_0
  /\ positive32 (global_vss_kph g') = false
  /\ fgt (global_vss_kph g') lit_minus_1_0 = false
  /\ global_maf g' = global_maf g
  /\ global_rpm g' = global_rpm g
  /\ global_load g' = global_load g
  /\ global_fuel g' = global_fuel g
  /\ global_totalDistanceTraveled g' = global_totalDistanceTraveled g
  /\ global_totalDistanceTraveledTimer g' = global_totalDistanceTraveledTimer g
  /\ global_totalFuelConsumed g' = global_totalFuelConsumed g
  /\ global_lastDataUpdate g' = global_lastDataUpdate g
  /\ global_mode g' = global_mode g.
Proof. repeat split. Qed.

(** C8. Every successful poll, whichever parameter it reads, publishes
    its reading and stores the clock reading of its pass in the
    last-update timestamp in the same critical section: the speed, the
    MAF (calibrated where the copy calibrates), the rpm, the engine load
    and the fuel level alike. After any pass in which a poll succeeded
    the timestamp is that pass's clock reading; a reply other than
    success leaves it as it was. *)
Theorem C8_successful_poll_stamps_the_update
  (cfg : Sketch) (m : Machine) (reply : float32) (now : Z) :
  let m' := obdTask_pass cfg m (Poll reply ELM_SUCCESS now) in
  (poll_succeeded m (Poll reply ELM_SUCCESS now) = true ->
     global_lastDataUpdate
       (globals (obdTask_pass cfg m (Poll reply ELM_SUCCESS now))) = now)
  /\ (currentState (statics m) = OBD_STATE_KPH ->
      global_vss_kph (globals m') = reply
      /\ global_lastDataUpdate (globals m') = now)
  /\ (currentState (statics m) = OBD_STATE_MAF ->
      global_maf (globals m') = maf_value cfg reply
      /\ global_lastDataUpdate (globals m') = now)
  /\ (currentState (statics m) = OBD_STATE_RPM ->
      global_rpm (globals m') = reply
      /\ global_lastDataUpdate (globals m') = now)
  /\ (currentState (statics m) = OBD_STATE_LOAD ->
      global_load (globals m') = reply
      /\ global_lastDataUpdate (globals m') = now)
  /\ (currentState (statics m) = OBD_STATE_FUEL ->
      global_fuel (globals m') = reply
      /\ global_lastDataUpdate (globals m') = now)
  /\ (currentState (statics m) <> OBD_STATE_DTC ->
      poll_succeeded m (Poll reply ELM_SUCCESS now) = true)
  /\ (forall rx, rx <> ELM_SUCCESS ->
      global_lastDataUpdate (globals (obdTask_pass cfg m (Poll reply rx now)))
      = global_lastDataUpdate (globals m)).
Proof.
  intros m'. unfold m'.
  split; [|repeat match goal with |- _ /\ _ => split end].
  - unfold poll_succeeded. cbn [obdTask_pass]. unfold connected_pass.
    destruct (currentState (statics m)); intros H;
      try reflexivity; discriminate.
  - intros H. cbn [obdTask_pass]. unfold connected_pass. rewrite H.
    split; reflexivity.
  - intros H. cbn [obdTask_pass]. unfold connected_pass. rewrite H.
    split; reflexivity.
  - intros H. cbn [obdTask_pass]. unfold connected_pass. rewrite H.
    split; reflexivity.
  - intros H. cbn [obdTask_pass]. unfold connected_pass. rewrite H.
    split; reflexivity.
  - intros H. cbn [obdTask_pass]. unfold connected_pass. rewrite H.
    split; reflexivity.
  - unfold poll_succeeded.
    destruct (currentState (statics m)); intros H;
      try reflexivity; contradiction H; reflexivity.
  - intros rx Hrx. cbn [obdTask_pass]. unfold connected_pass.
    destruct (currentState (statics m)); destruct rx as [| |code];
      try reflexivity; contradiction Hrx; reflexivity.
Qed.

Lemma C8_witness :
  global_lastDataUpdate
    (globals (obdTask_pass sketch_plain sampled_at_tick_1000
                (Poll (i2f 100) ELM_SUCCESS 3601000))) = 3601000
  /\ (global_rpm
        (globals (obdTask_pass sketch_calibrated machine_polling_rpm
                    (Poll (i2f 2500) ELM_SUCCESS 5000))) = i2f 2500
      /\ global_lastDataUpdate
           (globals (obdTask_pass sketch_calibrated machine_polling_rpm
                       (Poll (i2f 2500) ELM_SUCCESS 5000))) = 5000).
Proof.
  split.
  - exact (proj1 (C8_successful_poll_stamps_the_update sketch_plain
                    sampled_at_tick_1000 (i2f 100) 3601000) eq_refl).
  - destruct (C8_successful_poll_stamps_the_update sketch_calibrated
                machine_polling_rpm (i2f 2500) 5000)
      as (_ & _ & _ & Hrpm & _).
    apply Hrpm. reflexivity.
Defined.


(** C9. The instantaneous efficiency is computed only when speed > 0 and
    MAF > 0, from (14.7 * 6.17 * 4.54 * kph * 0.621371) / (3600 * maf / 100)
    (passed through [round] in the state-machine sketch); whatever exceeds
    the maximum of the panel (99, or 90 in the first sketch and in the
    simulation copy) is replaced
    by that maximum, so neither [inst_mpg] nor the number handed to the
    display is ever above it. A formula value of 150 is shown as the
    maximum; 90 km/h at 20 g/s gives 31.98 and is shown as 32, 80 km/h at
    20 g/s gives 28.43 and is shown as 28. *)
Theorem C9_instant_efficiency_is_clamped
  (p : Panel) (local_kph local_maf : float32) :
  p = panel_state_machine \/ p = panel_first \/ p = panel_simulation ->
  let formula := inst_mpg_formula local_kph local_maf in
  let computed := d2f (if rounds_formula p then c_round formula else formula) in
  let v := inst_mpg p local_kph local_maf in
  (isInstantMpgValid local_kph local_maf = false ->
     v = zero32
     /\ (instant_mpg_field p local_kph local_maf = PrintText "--"
         \/ instant_mpg_field p local_kph local_maf = PrintText "00"))
  /\ (isInstantMpgValid local_kph local_maf = true ->
     v = (if exceeds_max p computed then max_as_float p else computed)
     /\ instant_mpg_field p local_kph local_maf = PrintNumber (c_round (f2d v)))
  /\ exceeds_max p v = false
  /\ fgt (c_round (f2d v)) (u2d (MAX_MPG p)) = false
  /\ (local_kph = kph_150 -> local_maf = maf_7_1 ->
      c_round formula = u2d 150
      /\ v = max_as_float p
      /\ instant_mpg_field p local_kph local_maf
         = PrintNumber (u2d (MAX_MPG p)))
  (* the formula is the one of the specification *)
  /\ formula = spec_instEcon local_kph local_maf
  (* and is used only when speed > 0 and MAF > 0 *)
  /\ (fgt local_kph zero32 = false \/ fgt local_maf zero32 = false ->
      v = zero32
      /\ (instant_mpg_field p local_kph local_maf = PrintText "--"
          \/ instant_mpg_field p local_kph local_maf = PrintText "00"))
  /\ (fgt local_kph zero32 = true -> fgt local_maf zero32 = true ->
      let econ := spec_instEcon local_kph local_maf in
      let stored := d2f (if rounds_formula p then c_round econ else econ) in
      v = (if exceeds_max p stored then max_as_float p else stored)
      /\ instant_mpg_field p local_kph local_maf
         = PrintNumber
             (c_round
                (f2d (if exceeds_max p stored then max_as_float p else stored))))
  (* 90 km/h at 20 g/s: 31.98... mpg, shown as 32 *)
  /\ (local_kph = i2f 90 -> local_maf = i2f 20 ->
      (Qabs (SF2Q formula - spec_instEcon_exact 90 20) < (1 # 1000000000))%Q
      /\ instant_mpg_field p local_kph local_maf = PrintNumber (u2d 32))
  (* 80 km/h at 20 g/s: 28.43... mpg, shown as 28 *)
  /\ (local_kph = i2f 80 -> local_maf = i2f 20 ->
      (Qabs (SF2Q formula - spec_instEcon_exact 80 20) < (1 # 1000000000))%Q
      /\ instant_mpg_field p local_kph local_maf = PrintNumber (u2d 28)).
Proof.
  intros Hp formula computed v.
  assert (Hclamp : exceeds_max p v = false).
  { unfold v, inst_mpg. fold formula. fold computed.
    destruct (isInstantMpgValid local_kph local_maf).
    - destruct (exceeds_max p computed) eqn:E; [|exact E].
      destruct Hp as [-> | [-> | ->]]; reflexivity.
    - destruct Hp as [-> | [-> | ->]]; reflexivity. }
  assert (Hvalid : valid32 v).
  { unfold v, inst_mpg. fold formula. fold computed.
    destruct (isInstantMpgValid local_kph local_maf); [|reflexivity].
    destruct (exceeds_max p computed).
    - destruct Hp as [-> | [-> | ->]]; reflexivity.
    - apply d2f_valid. }
  assert (Hinvalid : isInstantMpgValid local_kph local_maf = false ->
     v = zero32
     /\ (instant_mpg_field p local_kph local_maf = PrintText "--"
         \/ instant_mpg_field p local_kph local_maf = PrintText "00")).
  { intros Hinv. unfold v, inst_mpg, instant_mpg_field. rewrite Hinv.
    split; [reflexivity|].
    destruct (idle_shows_zeroes p && feq local_kph zero32 && positive32 local_maf);
      [right | left]; reflexivity. }
  split; [exact Hinvalid|].
  split; [|split; [exact Hclamp|split; [|split; [|split; [|split; [|split; [|split]]]]]]].
  - intros Hval. split.
    + unfold v, inst_mpg. rewrite Hval. reflexivity.
    + unfold instant_mpg_field. rewrite Hval. reflexivity.
  - destruct Hp as [-> | [-> | ->]].
    + apply c_round_below_99; [apply f2d_valid | exact Hclamp].
    + apply c_round_below_90; [apply f2d_valid | exact Hclamp].
    + apply c_round_below_90; [apply f2d_valid|].
      apply f2d_below_90; [exact Hvalid | exact Hclamp].
  - intros -> ->. destruct Hp as [-> | [-> | ->]]; vm_compute; repeat split.
  - reflexivity.
  - intros Hno. apply Hinvalid. unfold isInstantMpgValid, positive32.
    destruct Hno as [-> | ->]; [reflexivity | apply andb_false_r].
  - intros Hk Hm econ stored.
    assert (Hval : isInstantMpgValid local_kph local_maf = true).
    { unfold isInstantMpgValid, positive32. rewrite Hk, Hm. reflexivity. }
    assert (Hv : v = if exceeds_max p stored then max_as_float p else stored).
    { unfold v, inst_mpg. rewrite Hval. reflexivity. }
    split; [exact Hv|].
    rewrite <- Hv. unfold instant_mpg_field. rewrite Hval. reflexivity.
  - intros -> ->. destruct Hp as [-> | [-> | ->]];
      (split; [vm_compute; reflexivity | vm_compute; reflexivity]).
  - intros -> ->. destruct Hp as [-> | [-> | ->]];
      (split; [vm_compute; reflexivity | vm_compute; reflexivity]).
Qed.

Lemma C9_witness :
  instant_mpg_field panel_state_machine kph_150 maf_7_1
  = PrintNumber (u2d 99)
  /\ fgt (c_round (f2d (inst_mpg panel_simulation kph_150 maf_7_1))) (u2d 90)
     = false
  /\ instant_mpg_field panel_first (i2f 90) (i2f 20) = PrintNumber (u2d 32).
Proof.
  split; [|split].
  - destruct (C9_instant_efficiency_is_clamped panel_state_machine
                kph_150 maf_7_1 (or_introl eq_refl))
      as (_ & _ & _ & _ & H150 & _).
    apply H150; reflexivity.
  - destruct (C9_instant_efficiency_is_clamped panel_simulation
                kph_150 maf_7_1 (or_intror (or_intror eq_refl)))
      as (_ & _ & _ & Hmax & _).
    exact Hmax.
  - destruct (C9_instant_efficiency_is_clamped panel_first
                (i2f 90) (i2f 20) (or_intror (or_introl eq_refl)))
      as (_ & _ & _ & _ & _ & _ & _ & _ & H90 & _).
    apply H90; reflexivity.
Defined.


(** C10. The moving-time counter advances only when the current speed
    sample is > 0. A successful poll that reads 0 after a previous sample
    > 0 still adds the trapezoid to the cumulative distance and leaves the
    counter as it was: braking from 80 km/h to a standstill over 36 s
    moves the distance up and the moving time not at all. *)
Theorem C10_moving_time_needs_current_speed
  (cfg : Sketch) (m : Machine) (value : float32) (now : Z) :
  currentState (statics m) = OBD_STATE_KPH ->
  let m' := obdTask_pass cfg m (Poll value ELM_SUCCESS now) in
  let timer := global_totalDistanceTraveledTimer (globals m) in
  let distance := global_totalDistanceTraveled (globals m) in
  (positive32 value = false ->
     global_totalDistanceTraveledTimer (globals m') = timer
     /\ global_totalDistanceTraveled (globals m')
        = b64_add distance (kph_dist_delta (statics m) value now))
  /\ (positive32 value = true ->
      global_totalDistanceTraveledTimer (globals m')
      = add32 timer (kph_time_delta_ms (statics m) now))
  /\ (positive32 value = false -> positive32 (prev_kph (statics m)) = true ->
      0 < lastSpeedTime (statics m) ->
      kph_dist_delta (statics m) value now
      = b64_mul (f2d (spec_average (prev_kph (statics m)) value))
                (spec_deltaHours (lastSpeedTime (statics m)) now))
  /\ (m = machine_rolling -> value = zero32 -> now = 38000 ->
      flt distance (global_totalDistanceTraveled (globals m')) = true
      /\ global_totalDistanceTraveledTimer (globals m') = timer).
Proof.
  intros Hst m' timer distance.
  assert (Hm' : m' = kph_success cfg m value now).
  { unfold m'. cbn [obdTask_pass]. unfold connected_pass. rewrite Hst.
    reflexivity. }
  split; [|split; [|split]].
  - intros Hz. rewrite Hm'. unfold kph_success.
    cbn [globals global_totalDistanceTraveledTimer global_totalDistanceTraveled].
    rewrite Hz. split; reflexivity.
  - intros Hpos. rewrite Hm'. unfold kph_success.
    cbn [globals global_totalDistanceTraveledTimer]. rewrite Hpos. reflexivity.
  - intros Hz Hprev Hlast. rewrite kph_dist_delta_spec by assumption.
    unfold spec_distanceDeltaKm. rewrite Hprev. reflexivity.
  - intros Hm Hv Hnow. rewrite Hm'. unfold timer, distance. subst m value now.
    unfold kph_success.
    cbn [globals global_totalDistanceTraveledTimer global_totalDistanceTraveled].
    vm_compute. split; reflexivity.
Qed.

Lemma C10_witness :
  flt (global_totalDistanceTraveled (globals machine_rolling))
      (global_totalDistanceTraveled
         (globals (obdTask_pass sketch_plain machine_rolling
                     (Poll zero32 ELM_SUCCESS 38000)))) = true
  /\ global_totalDistanceTraveledTimer
       (globals (obdTask_pass sketch_plain machine_rolling
                   (Poll zero32 ELM_SUCCESS 38000)))
     = global_totalDistanceTraveledTimer (globals machine_rolling).
Proof.
  apply (C10_moving_time_needs_current_speed sketch_plain machine_rolling
           zero32 38000 eq_refl); reflexivity.
Defined.
(* ================================================================== *)
(** ** Beyond the claims: the timers of the display                    *)
(* ================================================================== *)

Lemma seconds_of_millis (t : Z) :
  ((t mod 65536000) / 1000) mod UINT16_MOD = (t / 1000) mod UINT16_MOD.
Proof.
  unfold UINT16_MOD. change (2 ^ 16) with 65536.
  change 65536000 with (1000 * 65536).
  rewrite Z.rem_mul_r by lia.
  rewrite (Z.mul_comm 1000), Z.div_add by lia.
  rewrite (Z.div_small (t mod 1000)) by (apply Z.mod_pos_bound; lia).
  cbn [Z.add]. apply Z.mod_mod. lia.
Qed.

Lemma timerTransform_of_seconds (t : Z) :
  timerTransform t = timerTransform (1000 * ((t / 1000) mod UINT16_MOD)).
Proof.
  assert (E : (1000 * ((t / 1000) mod UINT16_MOD) / 1000) mod UINT16_MOD
              = (t / 1000) mod UINT16_MOD).
  { rewrite (Z.mul_comm 1000), Z.div_mul by lia. apply Z.mod_mod.
    unfold UINT16_MOD. lia. }
  unfold timerTransform. rewrite E. reflexivity.
Qed.

Lemma in_count_up (n : nat) :
  forall from k, from <= k < from + Z.of_nat n -> In k (count_up n from).
Proof.
  induction n as [|n IH]; intros from k Hk; [lia|].
  cbn [count_up]. destruct (Z.eq_dec from k) as [->|Hne]; [left; reflexivity|].
  right. apply IH. lia.
Qed.

Lemma in_all_uint16 (k : Z) : 0 <= k < 65536 -> In k all_uint16.
Proof. intros Hk. unfold all_uint16. apply in_count_up. lia. Qed.

(** Every second of the 16-bit range: the text reads back as that second,
    and is 5 characters long below one hour and 8 from there on. *)
Lemma timerTransform_table :
  forallb
    (fun k =>
       match read_timer (timerTransform (1000 * k)) with
       | Some r => r =? k
       | None => false
       end
       && (Z.of_nat (String.length (timerTransform (1000 * k)))
           =? (if k <? 3600 then 5 else 8)))
    all_uint16 = true.
Proof. vm_cast_no_check (eq_refl true). Qed.

Lemma timerTransform_reads_back (t : Z) :
  read_timer (timerTransform t) = Some ((t / 1000) mod UINT16_MOD)
  /\ Z.of_nat (String.length (timerTransform t))
     = if (t / 1000) mod UINT16_MOD <? 3600 then 5 else 8.
Proof.
  rewrite timerTransform_of_seconds.
  set (k := (t / 1000) mod UINT16_MOD).
  assert (Hk : 0 <= k < 65536).
  { unfold k, UINT16_MOD. apply Z.mod_pos_bound. lia. }
  pose proof (proj1 (forallb_forall _ _) timerTransform_table k
                (in_all_uint16 k Hk)) as H.
  cbv beta in H. apply andb_prop in H. destruct H as [H1 H2].
  destruct (read_timer (timerTransform (1000 * k))) as [r|]; [|discriminate].
  apply Z.eqb_eq in H1. apply Z.eqb_eq in H2. subst r. split; [reflexivity | exact H2].
Qed.

(** X1. [timerTransform] keeps only 16 bits of the seconds: the text is
    that of the time reduced modulo 65,536,000 ms, so both timers of the
    display start again at 00:00 after 18 h 12 min 16 s. *)
Theorem X1_timer_text_wraps_after_65536_seconds (t : Z) :
  timerTransform t = timerTransform (t mod 65536000)
  /\ timerTransform 65536000 = "00:00"%string
  /\ timerTransform 65535999 = "18:12:15"%string.
Proof.
  split; [|split; vm_compute; reflexivity].
  rewrite (timerTransform_of_seconds t),
          (timerTransform_of_seconds (t mod 65536000)).
  rewrite seconds_of_millis. reflexivity.
Qed.

(** X2. Within the 16-bit range the text is unambiguous: two times are
    shown alike only if they lie in the same second modulo 65,536 s, and
    whenever they do. *)
Theorem X2_timer_text_identifies_the_second (a b : Z) :
  timerTransform a = timerTransform b
  <-> (a / 1000) mod UINT16_MOD = (b / 1000) mod UINT16_MOD.
Proof.
  split.
  - intros H.
    pose proof (proj1 (timerTransform_reads_back a)) as Ha.
    pose proof (proj1 (timerTransform_reads_back b)) as Hb.
    rewrite H in Ha. rewrite Ha in Hb. injection Hb as Hb. exact Hb.
  - intros H. rewrite (timerTransform_of_seconds a), H.
    symmetry. apply timerTransform_of_seconds.
Qed.

(** X3. The text has the shape mm:ss (5 characters) while the reduced
    time is below one hour and hh:mm:ss (8 characters) from there on;
    the fields never need a third digit. *)
Theorem X3_timer_text_has_five_or_eight_characters (t : Z) :
  String.length (timerTransform t)
  = if (t / 1000) mod UINT16_MOD <? 3600 then 5%nat else 8%nat.
Proof.
  pose proof (proj2 (timerTransform_reads_back t)) as H.
  destruct ((t / 1000) mod UINT16_MOD <? 3600); lia.
Qed.

(* ================================================================== *)
(** ** Beyond the claims: choosing the mode                            *)
(* ================================================================== *)

Lemma hold_read_switch_range (s : Hold.Statics) (r : Hold.Reading) :
  1 <= Hold.local_mode s <= 6 ->
  1 <= Hold.local_mode (Hold.read_switch s r) <= 6.
Proof.
  intros H. unfold Hold.read_switch.
  destruct (Hold.switch_high r); [|exact H].
  destruct (negb (Hold.buttonActive s)); cbn [Hold.local_lastPressed];
    match goal with |- context [1000 <? ?x] => destruct (1000 <? x) end;
    cbn [Hold.local_mode]; try exact H;
    destruct (6 <=? Hold.local_mode s) eqn:E; try lia;
    apply Z.leb_gt in E; lia.
Qed.

Lemma hold_loop_range (readings : list Hold.Reading) :
  forall s, 1 <= Hold.local_mode s <= 6 ->
    1 <= Hold.local_mode (fst (Hold.loop s readings)) <= 6
    /\ forallb writes_mode_1_to_6 (snd (Hold.loop s readings)) = true.
Proof.
  induction readings as [|r rest IH]; intros s Hs; [split; [exact Hs|reflexivity]|].
  cbn [Hold.loop]. unfold Hold.loop_pass.
  pose proof (hold_read_switch_range s r Hs) as Hs'.
  destruct (IH _ Hs') as [H1 H2].
  destruct (Hold.loop (Hold.read_switch s r) rest) as [s'' later].
  cbn [fst snd] in *. split; [exact H1|].
  destruct (Hold.mutex_taken r); [|exact H2].
  cbn [forallb writes_mode_1_to_6]. rewrite H2.
  replace (1 <=? Hold.local_mode (Hold.read_switch s r)) with true
    by (symmetry; apply Z.leb_le; lia).
  replace (Hold.local_mode (Hold.read_switch s r) <=? 6) with true
    by (symmetry; apply Z.leb_le; lia).
  reflexivity.
Qed.

(** X4. However the switch is held and whenever the mutex is obtained,
    [loop] of the state-machine sketch keeps [local_mode] within 1..6
    (6 is followed by 1), and every value it writes to [global_mode] is
    one of the six pages. *)
Theorem X4_held_switch_keeps_the_mode_within_1_to_6
  (readings : list Hold.Reading) :
  1 <= Hold.local_mode (fst (Hold.loop Hold.initial_statics readings)) <= 6
  /\ forallb writes_mode_1_to_6
       (snd (Hold.loop Hold.initial_statics readings)) = true.
Proof. apply hold_loop_range. cbn. lia. Qed.

Lemma hold_pressed_briefly (rest : list Hold.Reading) (since : Z) :
  forall s,
    Hold.buttonActive s = true -> Hold.local_lastPressed s = since ->
    forallb (Hold.held_briefly since) rest = true ->
    Hold.local_mode (fst (Hold.loop s rest)) = Hold.local_mode s.
Proof.
  induction rest as [|r rest IH]; intros s Hact Hlast Hall; [reflexivity|].
  cbn [forallb] in Hall. apply andb_prop in Hall. destruct Hall as [Hr Hrest].
  unfold Hold.held_briefly in Hr. apply andb_prop in Hr. destruct Hr as [Hh Hc].
  apply Z.leb_le in Hc.
  assert (E : Hold.read_switch s r = s).
  { unfold Hold.read_switch. rewrite Hh, Hact. cbn [negb]. rewrite Hlast.
    replace (1000 <? sub32 (Hold.millis_check r) since) with false
      by (symmetry; apply Z.ltb_ge; lia).
    reflexivity. }
  cbn [Hold.loop]. unfold Hold.loop_pass. rewrite E.
  specialize (IH s Hact Hlast Hrest).
  destruct (Hold.loop s rest) as [s'' later]. exact IH.
Qed.

(** X5. In the state-machine sketch a press changes nothing unless it is
    held: from a released switch, passes that read HIGH up to one second
    (1000 ms inclusive) after the press was noticed leave [local_mode] as
    it was. *)
Theorem X5_a_press_of_one_second_or_less_keeps_the_mode
  (s : Hold.Statics) (r : Hold.Reading) (rest : list Hold.Reading) :
  Hold.buttonActive s = false ->
  forallb (Hold.held_briefly (Hold.millis_press r)) (r :: rest) = true ->
  Hold.local_mode (fst (Hold.loop s (r :: rest))) = Hold.local_mode s.
Proof.
  intros Hact Hall.
  cbn [forallb] in Hall. apply andb_prop in Hall. destruct Hall as [Hr Hrest].
  unfold Hold.held_briefly in Hr. apply andb_prop in Hr. destruct Hr as [Hh Hc].
  apply Z.leb_le in Hc.
  set (s1 := {| Hold.local_lastPressed := Hold.millis_press r;
                Hold.buttonActive := true;
                Hold.local_mode := Hold.local_mode s |}).
  assert (E : Hold.read_switch s r = s1).
  { unfold Hold.read_switch. rewrite Hh, Hact. cbn [negb Hold.local_lastPressed].
    replace (1000 <? sub32 (Hold.millis_check r) (Hold.millis_press r))
      with false by (symmetry; apply Z.ltb_ge; lia).
    reflexivity. }
  cbn [Hold.loop]. unfold Hold.loop_pass. rewrite E.
  pose proof (hold_pressed_briefly rest (Hold.millis_press r) s1
                eq_refl eq_refl Hrest) as H.
  destruct (Hold.loop s1 rest) as [s'' later]. exact H.
Qed.

Lemma X5_witness :
  Hold.local_mode
    (fst (Hold.loop Hold.initial_statics
            [ Hold.mkReading true 5000 5000 5000 true;
              Hold.mkReading true 5400 5400 5400 true;
              Hold.mkReading true 6000 6000 6000 true ]))
  = 3.
Proof.
  apply (X5_a_press_of_one_second_or_less_keeps_the_mode
           Hold.initial_statics (Hold.mkReading true 5000 5000 5000 true)
           [ Hold.mkReading true 5400 5400 5400 true;
             Hold.mkReading true 6000 6000 6000 true ]);
    reflexivity.
Defined.

Lemma taps_read_switch_range (v : Taps.Variant) (s : Taps.Statics)
  (r : Taps.Reading) :
  Taps.settled v s -> Taps.settled v (Taps.read_switch v s r).
Proof.
  intros [Hm Hc].
  assert (Hd : Taps.settled v (Taps.debounce v s r)).
  { unfold Taps.debounce.
    destruct ((30 <? _) && _); [destruct (Taps.switch_high r)|];
      split; cbn [Taps.local_mode Taps.tapCounter]; try assumption.
    intros Hw. specialize (Hc Hw). unfold Taps.count_tap, Taps.incr_int.
    rewrite Hw. cbn [andb].
    replace (Taps.tapCounter s =? Taps.INT_MAX) with false
      by (symmetry; apply Z.eqb_neq; unfold Taps.INT_MAX; lia).
    destruct (6 <? Taps.tapCounter s + 1) eqn:E; [lia|].
    apply Z.ltb_ge in E. lia. }
  unfold Taps.read_switch, Taps.settle.
  destruct Hd as [Hm' Hc'].
  destruct (0 <? Taps.tapCounter (Taps.debounce v s r)) eqn:Hpos;
    [|split; assumption].
  destruct (Taps.tapTimeout v <? _); [|split; assumption].
  cbn [andb]. apply Z.ltb_lt in Hpos.
  split; cbn [Taps.local_mode Taps.tapCounter]; [|intros; lia].
  unfold Taps.selected_mode.
  destruct (Taps.counter_wraps v) eqn:Hw.
  - specialize (Hc' eq_refl). lia.
  - destruct ((1 <=? _) && (_ <=? 6)) eqn:E; [|lia].
    apply andb_prop in E. destruct E as [E1 E2].
    apply Z.leb_le in E1. apply Z.leb_le in E2. lia.
Qed.

Lemma taps_loop_range (v : Taps.Variant) (readings : list Taps.Reading) :
  forall s, Taps.settled v s ->
    1 <= Taps.local_mode (fst (Taps.loop v s readings)) <= 6
    /\ forallb writes_mode_1_to_6 (snd (Taps.loop v s readings)) = true.
Proof.
  induction readings as [|r rest IH]; intros s Hs;
    [split; [exact (proj1 Hs)|reflexivity]|].
  cbn [Taps.loop]. unfold Taps.loop_pass.
  pose proof (taps_read_switch_range v s r Hs) as Hs'.
  destruct (IH _ Hs') as [H1 H2].
  destruct (Taps.loop v (Taps.read_switch v s r) rest) as [s'' later].
  cbn [fst snd] in *. split; [exact H1|].
  destruct (0 <? _); [exact H2|].
  destruct (Taps.counter_wraps v); [exact H2|].
  destruct (Taps.mutex_taken r); [|exact H2].
  cbn [forallb writes_mode_1_to_6]. rewrite H2.
  destruct Hs' as [Hm _].
  replace (1 <=? Taps.local_mode (Taps.read_switch v s r)) with true
    by (symmetry; apply Z.leb_le; lia).
  replace (Taps.local_mode (Taps.read_switch v s r) <=? 6) with true
    by (symmetry; apply Z.leb_le; lia).
  reflexivity.
Qed.

(** X6. The tap counter of the calibrated copy and of the demo never
    takes [local_mode] out of 1..6, whatever the switch does and whatever
    the timeout: the calibrated copy falls back to mode 1 for more than
    six taps, the demo wraps its counter; every write to [global_mode] is
    one of the six pages. *)
Theorem X6_tapping_keeps_the_mode_within_1_to_6
  (v : Taps.Variant) (readings : list Taps.Reading) :
  1 <= Taps.local_mode (fst (Taps.loop v Taps.initial_statics readings)) <= 6
  /\ forallb writes_mode_1_to_6
       (snd (Taps.loop v Taps.initial_statics readings)) = true.
Proof. apply taps_loop_range. split; cbn; intros; lia. Qed.

Lemma taps_settle_keeps (v : Taps.Variant) (s : Taps.Statics) (r : Taps.Reading) :
  let s' := Taps.settle v s r in
  Taps.currentButtonState s' = Taps.currentButtonState s
  /\ Taps.lastButtonReading s' = Taps.lastButtonReading s
  /\ Taps.lastDebounceTime s' = Taps.lastDebounceTime s
  /\ Taps.lastTapTime s' = Taps.lastTapTime s
  /\ (Taps.tapCounter s' = Taps.tapCounter s \/ Taps.tapCounter s' = 0).
Proof.
  unfold Taps.settle. destruct (_ && _); cbn; repeat split; auto.
Qed.

Lemma taps_bouncing (v : Taps.Variant) (rest : list Taps.Reading) (since : Z) :
  forall s,
    Taps.currentButtonState s = false ->
    Taps.lastButtonReading s = true ->
    Taps.lastDebounceTime s = since ->
    forallb (Taps.bouncing since) rest = true ->
    let s' := fst (Taps.loop v s rest) in
    Taps.currentButtonState s' = false
    /\ Taps.lastTapTime s' = Taps.lastTapTime s
    /\ (Taps.tapCounter s' = Taps.tapCounter s \/ Taps.tapCounter s' = 0).
Proof.
  induction rest as [|r rest IH]; intros s Hcur Hlast Hdeb Hall;
    [cbn; auto|].
  cbn [forallb] in Hall. apply andb_prop in Hall. destruct Hall as [Hr Hrest].
  unfold Taps.bouncing in Hr. apply andb_prop in Hr. destruct Hr as [Hh Hc].
  apply Z.leb_le in Hc.
  assert (E : Taps.debounce v s r = s).
  { unfold Taps.debounce. rewrite Hh, Hlast, Hdeb. cbn [Bool.eqb].
    replace (30 <? sub32 (Taps.millis_stable r) since) with false
      by (symmetry; apply Z.ltb_ge; lia).
    cbn [andb]. destruct s; cbn in *; subst; reflexivity. }
  cbn [Taps.loop]. unfold Taps.loop_pass, Taps.read_switch. rewrite E.
  destruct (taps_settle_keeps v s r) as (K1 & K2 & K3 & K4 & K5).
  cbv zeta in IH.
  specialize (IH (Taps.settle v s r)).
  rewrite K1, K2, K3, K4 in IH. specialize (IH Hcur Hlast Hdeb Hrest).
  destruct (Taps.loop v (Taps.settle v s r) rest) as [s'' later].
  cbn [fst] in *. destruct IH as (I1 & I2 & I3).
  repeat split; try assumption.
  destruct I3 as [I3|I3]; [rewrite I3; exact K5 | right; exact I3].
Qed.

(** X7. Contact bounce is not counted as a tap: from a released switch,
    passes that read HIGH while no more than 30 ms have gone by since the
    reading changed leave the debounced state LOW, count no tap and do
    not move [lastTapTime] (pending taps may still time out meanwhile). *)
Theorem X7_a_bounce_of_30_ms_is_not_a_tap
  (v : Taps.Variant) (s : Taps.Statics) (r : Taps.Reading)
  (rest : list Taps.Reading) :
  Taps.currentButtonState s = false ->
  Taps.lastButtonReading s = false ->
  forallb (Taps.bouncing (Taps.millis_change r)) (r :: rest) = true ->
  let s' := fst (Taps.loop v s (r :: rest)) in
  Taps.currentButtonState s' = false
  /\ Taps.lastTapTime s' = Taps.lastTapTime s
  /\ (Taps.tapCounter s' = Taps.tapCounter s \/ Taps.tapCounter s' = 0).
Proof.
  intros Hcur Hlast Hall.
  cbn [forallb] in Hall. apply andb_prop in Hall. destruct Hall as [Hr Hrest].
  unfold Taps.bouncing in Hr. apply andb_prop in Hr. destruct Hr as [Hh Hc].
  apply Z.leb_le in Hc.
  set (s1 := {| Taps.local_mode := Taps.local_mode s;
                Taps.tapCounter := Taps.tapCounter s;
                Taps.lastTapTime := Taps.lastTapTime s;
                Taps.lastButtonReading := true;
                Taps.currentButtonState := false;
                Taps.lastDebounceTime := Taps.millis_change r |}).
  assert (E : Taps.debounce v s r = s1).
  { unfold Taps.debounce. rewrite Hh, Hlast. cbn [Bool.eqb].
    replace (30 <? sub32 (Taps.millis_stable r) (Taps.millis_change r))
      with false by (symmetry; apply Z.ltb_ge; lia).
    cbn [andb]. rewrite Hcur. reflexivity. }
  cbn [Taps.loop]. unfold Taps.loop_pass, Taps.read_switch. rewrite E.
  destruct (taps_settle_keeps v s1 r) as (K1 & K2 & K3 & K4 & K5).
  pose proof (taps_bouncing v rest (Taps.millis_change r)
                (Taps.settle v s1 r)) as H.
  rewrite K1, K2, K3, K4 in H. specialize (H eq_refl eq_refl eq_refl Hrest).
  cbv zeta in H.
  destruct (Taps.loop v (Taps.settle v s1 r) rest) as [s'' later].
  cbn [fst] in *. destruct H as (I1 & I2 & I3).
  repeat split; try assumption.
  destruct I3 as [I3|I3]; [rewrite I3; exact K5 | right; exact I3].
Qed.

Lemma X7_witness :
  let s' := fst (Taps.loop Taps.calibrated Taps.initial_statics
                   [ Taps.mkReading true 5000 5000 5000 5000 true;
                     Taps.mkReading true 5010 5020 5020 5020 true ]) in
  Taps.currentButtonState s' = false
  /\ Taps.lastTapTime s' = 0
  /\ (Taps.tapCounter s' = 0 \/ Taps.tapCounter s' = 0).
Proof.
  apply (X7_a_bounce_of_30_ms_is_not_a_tap Taps.calibrated Taps.initial_statics
           (Taps.mkReading true 5000 5000 5000 5000 true)
           [Taps.mkReading true 5010 5020 5020 5020 true]);
    reflexivity.
Defined.

(* ================================================================== *)
(** ** Beyond the claims: the state machine of [obdTask]               *)
(* ================================================================== *)

Lemma obdTask_cons (cfg : Sketch) (m : Machine) (ev : Event) (rest : list Event) :
  obdTask cfg m (ev :: rest) = obdTask cfg (obdTask_pass cfg m ev) rest.
Proof. reflexivity. Qed.

Lemma frozen_refl (m : Machine) :
  currentState (statics m) = OBD_STATE_DTC -> frozen m m.
Proof. intros H. unfold frozen. repeat split; auto. Qed.

Lemma frozen_pass (cfg : Sketch) (m m' : Machine) (ev : Event) :
  frozen m m' -> frozen m (obdTask_pass cfg m' ev).
Proof.
  unfold frozen.
  intros (Hst & H1 & H2 & H3 & H4 & H5 & H6 & H7 & H8 & H9 & H10 & H11 & H12
          & H13 & H14).
  destruct ev as [reply rx now| |mode]; cbn [obdTask_pass].
  - unfold connected_pass. rewrite Hst. repeat split; assumption.
  - unfold link_down_pass; cbn. repeat split; try assumption. right; reflexivity.
  - unfold loop_sets_mode; cbn. repeat split; assumption.
Qed.

(** X8. The diagnostics state is a dead end: once mode 6 has sent
    [obdTask] to [OBD_STATE_DTC] no pass leaves it, whatever the replies,
    the link and the mode selected later; no query is issued, both totals,
    the drive timer, every reading but the speed (which a lost link still
    sets to -1) and [global_lastDataUpdate] stay as they were. *)
Theorem X8_diagnostics_state_is_never_left
  (cfg : Sketch) (trace : list Event) (m : Machine) :
  currentState (statics m) = OBD_STATE_DTC ->
  frozen m (obdTask cfg m trace).
Proof.
  intros Hst. pose proof (frozen_refl m Hst) as H.
  generalize dependent H. generalize m at 2 4 as m'.
  induction trace as [|ev rest IH]; intros m' H; [exact H|].
  rewrite obdTask_cons. apply IH. apply frozen_pass. exact H.
Qed.

Lemma X8_witness :
  frozen machine_in_diagnostics
    (obdTask sketch_plain machine_in_diagnostics
       [ LoopSetsMode 1; Poll (i2f 90) ELM_SUCCESS 5000; LinkLost;
         Poll (i2f 90) ELM_SUCCESS 9000 ]).
Proof.
  apply (X8_diagnostics_state_is_never_left sketch_plain
           [ LoopSetsMode 1; Poll (i2f 90) ELM_SUCCESS 5000; LinkLost;
             Poll (i2f 90) ELM_SUCCESS 9000 ] machine_in_diagnostics).
  reflexivity.
Defined.

Lemma gauges_need_mode_4_pass (cfg : Sketch) (m : Machine) (ev : Event) :
  never_selects 4 ev = true ->
  global_mode (globals m) <> 4 ->
  outside_gauges (currentState (statics m)) = true ->
  let m' := obdTask_pass cfg m ev in
  global_mode (globals m') <> 4
  /\ outside_gauges (currentState (statics m')) = true
  /\ global_rpm (globals m') = global_rpm (globals m)
  /\ global_load (globals m') = global_load (globals m)
  /\ global_fuel (globals m') = global_fuel (globals m).
Proof.
  intros Hev Hmode Hst.
  destruct ev as [reply rx now| |mode]; cbn [obdTask_pass].
  - unfold connected_pass.
    destruct (currentState (statics m)) eqn:E; try discriminate;
      destruct rx as [| |code]; cbn zeta;
      try (rewrite E; repeat split; (assumption || reflexivity)).
    + unfold kph_success; cbn.
      repeat split; try assumption.
      destruct (drag_mode_polls_speed_only cfg && _); reflexivity.
    + unfold maf_success; cbn.
      repeat split; try assumption.
      replace (global_mode (globals m) =? 4) with false
        by (symmetry; apply Z.eqb_neq; assumption).
      destruct (global_mode (globals m) =? 6); reflexivity.
    + unfold goto; cbn. repeat split; assumption.
  - unfold link_down_pass; cbn. repeat split; assumption.
  - unfold loop_sets_mode; cbn. cbn in Hev.
    repeat split; try assumption.
    apply negb_true_iff in Hev. apply Z.eqb_neq in Hev. exact Hev.
Qed.

(** X9. The gauge readings are polled only on demand: as long as mode 4
    is not selected, a task that is not inside a gauge round never enters
    one, and rpm, engine load and fuel level stay as published. *)
Theorem X9_gauges_are_polled_only_in_mode_4
  (cfg : Sketch) (trace : list Event) (m : Machine) :
  forallb (never_selects 4) trace = true ->
  global_mode (globals m) <> 4 ->
  outside_gauges (currentState (statics m)) = true ->
  let m' := obdTask cfg m trace in
  outside_gauges (currentState (statics m')) = true
  /\ global_rpm (globals m') = global_rpm (globals m)
  /\ global_load (globals m') = global_load (globals m)
  /\ global_fuel (globals m') = global_fuel (globals m).
Proof.
  revert m. induction trace as [|ev rest IH]; intros m Hall Hmode Hst;
    [cbn; auto|].
  cbn [forallb] in Hall. apply andb_prop in Hall. destruct Hall as [Hev Hrest].
  destruct (gauges_need_mode_4_pass cfg m ev Hev Hmode Hst)
    as (P1 & P2 & P3 & P4 & P5).
  cbv zeta. rewrite obdTask_cons.
  destruct (IH _ Hrest P1 P2) as (Q1 & Q2 & Q3 & Q4).
  repeat split; [assumption|congruence ..].
Qed.

Lemma X9_witness :
  let m' := obdTask sketch_plain initial_machine
              [ LoopSetsMode 2; Poll (i2f 80) ELM_SUCCESS 1000;
                Poll (i2f 20) ELM_SUCCESS 1100 ] in
  outside_gauges (currentState (statics m')) = true
  /\ global_rpm (globals m') = lit_minus_1_0
  /\ global_load (globals m') = lit_minus_1_0
  /\ global_fuel (globals m') = lit_minus_1_0.
Proof.
  apply (X9_gauges_are_polled_only_in_mode_4 sketch_plain
           [ LoopSetsMode 2; Poll (i2f 80) ELM_SUCCESS 1000;
             Poll (i2f 20) ELM_SUCCESS 1100 ] initial_machine);
    [reflexivity | discriminate | reflexivity].
Defined.

Lemma gauge_reply (cfg : Sketch) (m : Machine) (reply : float32)
  (rx : nb_rx_state) (now : Z) (here next : ObdState) :
  currentState (statics m) = here ->
  (here = OBD_STATE_RPM /\ next = OBD_STATE_LOAD
   \/ here = OBD_STATE_LOAD /\ next = OBD_STATE_FUEL
   \/ here = OBD_STATE_FUEL /\ next = OBD_STATE_KPH) ->
  final_reply rx = true ->
  let m' := obdTask_pass cfg m (Poll reply rx now) in
  currentState (statics m') = next /\ same_integrator m m'
  /\ global_vss_kph (globals m') = global_vss_kph (globals m)
  /\ global_maf (globals m') = global_maf (globals m).
Proof.
  intros Hst Hcase Hrx. cbn [obdTask_pass]. unfold connected_pass, same_integrator.
  rewrite Hst.
  destruct Hcase as [[-> ->]|[[-> ->]|[-> ->]]];
    destruct rx as [| |code]; try discriminate; cbn; repeat split; reflexivity.
Qed.

(** X10. A gauge round always ends: from the rpm state any three replies
    that are not "still receiving", failed or not, take the task through
    engine load and fuel level back to the speed state, and leave both
    totals, the drive timer, the published speed and MAF and the sample
    caches of the integrator as they were. *)
Theorem X10_a_gauge_round_ends_after_three_replies
  (cfg : Sketch) (m : Machine)
  (reply1 reply2 reply3 : float32) (rx1 rx2 rx3 : nb_rx_state)
  (now1 now2 now3 : Z) :
  currentState (statics m) = OBD_STATE_RPM ->
  final_reply rx1 = true -> final_reply rx2 = true -> final_reply rx3 = true ->
  let m' := obdTask cfg m
              [Poll reply1 rx1 now1; Poll reply2 rx2 now2; Poll reply3 rx3 now3] in
  currentState (statics m') = OBD_STATE_KPH
  /\ same_integrator m m'
  /\ global_vss_kph (globals m') = global_vss_kph (globals m)
  /\ global_maf (globals m') = global_maf (globals m).
Proof.
  intros Hst H1 H2 H3. cbv zeta. rewrite !obdTask_cons. cbn [obdTask fold_left].
  destruct (gauge_reply cfg m reply1 rx1 now1 _ OBD_STATE_LOAD Hst
              (or_introl (conj eq_refl eq_refl)) H1) as (S1 & I1 & V1 & M1).
  set (m1 := obdTask_pass cfg m (Poll reply1 rx1 now1)) in *.
  destruct (gauge_reply cfg m1 reply2 rx2 now2 _ OBD_STATE_FUEL S1
              (or_intror (or_introl (conj eq_refl eq_refl))) H2)
    as (S2 & I2 & V2 & M2).
  set (m2 := obdTask_pass cfg m1 (Poll reply2 rx2 now2)) in *.
  destruct (gauge_reply cfg m2 reply3 rx3 now3 _ OBD_STATE_KPH S2
              (or_intror (or_intror (conj eq_refl eq_refl))) H3)
    as (S3 & I3 & V3 & M3).
  set (m3 := obdTask_pass cfg m2 (Poll reply3 rx3 now3)) in *.
  unfold same_integrator in *.
  destruct I1 as (A1 & A2 & A3 & A4 & A5 & A6 & A7).
  destruct I2 as (B1 & B2 & B3 & B4 & B5 & B6 & B7).
  destruct I3 as (C1 & C2 & C3 & C4 & C5 & C6 & C7).
  repeat split; congruence.
Qed.

Lemma X10_witness :
  let m' := obdTask sketch_plain machine_polling_rpm
              [ Poll (i2f 2500) ELM_SUCCESS 1200; Poll zero32 (ELM_ERROR 7) 1300;
                Poll (i2f 60) ELM_SUCCESS 1400 ] in
  currentState (statics m') = OBD_STATE_KPH
  /\ same_integrator machine_polling_rpm m'
  /\ global_vss_kph (globals m') = global_vss_kph (globals machine_polling_rpm)
  /\ global_maf (globals m') = global_maf (globals machine_polling_rpm).
Proof.
  apply (X10_a_gauge_round_ends_after_three_replies sketch_plain
           machine_polling_rpm (i2f 2500) zero32 (i2f 60)
           ELM_SUCCESS (ELM_ERROR 7) ELM_SUCCESS 1200 1300 1400);
    reflexivity.
Defined.

Lemma with_lastSuccessfulMpgPollTime_pass
  (cfg : Sketch) (m : Machine) (t : Z) (ev : Event) :
  obdTask_pass cfg (with_lastSuccessfulMpgPollTime m t) ev
  = with_lastSuccessfulMpgPollTime (obdTask_pass cfg m ev)
      (match ev with LinkLost => 0 | _ => t end).
Proof.
  destruct m as [[l st tk pk pm ls lf] g].
  destruct ev as [reply rx now| |mode]; cbn [obdTask_pass].
  - unfold connected_pass, with_lastSuccessfulMpgPollTime.
    cbn [statics currentState].
    destruct st; destruct rx as [| |code]; reflexivity.
  - reflexivity.
  - reflexivity.
Qed.

(** X11. [lastSuccessfulMpgPollTime], the only variable the reconnection
    branch resets, is never read by the state machine: whatever value it
    holds, every pass of every trace publishes the same globals and leaves
    the same state and sample caches. *)
Theorem X11_lastSuccessfulMpgPollTime_is_never_read
  (cfg : Sketch) (trace : list Event) (m : Machine) (t : Z) :
  exists t',
    obdTask cfg (with_lastSuccessfulMpgPollTime m t) trace
    = with_lastSuccessfulMpgPollTime (obdTask cfg m trace) t'.
Proof.
  revert m t. induction trace as [|ev rest IH]; intros m t.
  - exists t. reflexivity.
  - rewrite !obdTask_cons, with_lastSuccessfulMpgPollTime_pass. apply IH.
Qed.

Lemma sub32_add32_cancel (timer last now : Z) :
  sub32 (add32 timer (sub32 now last)) now = sub32 timer last.
Proof.
  unfold sub32, add32.
  rewrite Zplus_mod_idemp_r, Zminus_mod_idemp_l.
  f_equal. lia.
Qed.

Lemma keeps_moving_pass (cfg : Sketch) (m : Machine) (ev : Event) :
  keeps_moving cfg m [ev] = true ->
  0 < lastSpeedTime (statics m) ->
  let m' := obdTask_pass cfg m ev in
  0 < lastSpeedTime (statics m')
  /\ sub32 (global_totalDistanceTraveledTimer (globals m'))
           (lastSpeedTime (statics m'))
     = sub32 (global_totalDistanceTraveledTimer (globals m))
             (lastSpeedTime (statics m)).
Proof.
  intros Hk Hlast. cbn [keeps_moving] in Hk. rewrite andb_true_r in Hk.
  destruct ev as [reply rx now| |mode]; cbn [obdTask_pass];
    [|split; [assumption|reflexivity] ..].
  unfold connected_pass.
  destruct (currentState (statics m));
    destruct rx as [| |code]; try (split; [assumption|reflexivity]).
  - apply andb_prop in Hk. destruct Hk as [Hk Hlt].
    apply andb_prop in Hk. destruct Hk as [Hpos Hnow].
    apply Z.ltb_lt in Hnow.
    unfold kph_success; cbn [statics globals lastSpeedTime
      global_totalDistanceTraveledTimer].
    rewrite Hpos. unfold kph_time_delta_ms.
    replace (0 <? lastSpeedTime (statics m)) with true
      by (symmetry; apply Z.ltb_lt; assumption).
    split; [assumption|]. apply sub32_add32_cancel.
Qed.

Lemma keeps_moving_trace (cfg : Sketch) (trace : list Event) :
  forall m,
    keeps_moving cfg m trace = true ->
    0 < lastSpeedTime (statics m) ->
    let m' := obdTask cfg m trace in
    sub32 (global_totalDistanceTraveledTimer (globals m'))
          (lastSpeedTime (statics m'))
    = sub32 (global_totalDistanceTraveledTimer (globals m))
            (lastSpeedTime (statics m)).
Proof.
  induction trace as [|ev rest IH]; intros m Hk Hlast; [reflexivity|].
  cbn [keeps_moving] in Hk. apply andb_prop in Hk. destruct Hk as [Hev Hrest].
  assert (Hone : keeps_moving cfg m [ev] = true).
  { cbn [keeps_moving]. rewrite Hev. reflexivity. }
  destruct (keeps_moving_pass cfg m ev Hone Hlast) as [Hlast' Heq].
  cbv zeta. rewrite obdTask_cons.
  rewrite <- Heq. apply IH; assumption.
Qed.

(** X12. While every successful speed sample is above zero the drive
    timer keeps step with the clock of the speed samples: after any trace
    it has advanced by exactly the ticks between the speed sample that
    preceded the trace and the latest one (modulo 2^32), whatever else was
    polled, failed or lost in between. *)
Theorem X12_drive_timer_follows_the_speed_samples
  (cfg : Sketch) (trace : list Event) (m : Machine) :
  keeps_moving cfg m trace = true ->
  0 < lastSpeedTime (statics m) ->
  let m' := obdTask cfg m trace in
  sub32 (global_totalDistanceTraveledTimer (globals m'))
        (global_totalDistanceTraveledTimer (globals m))
  = sub32 (lastSpeedTime (statics m')) (lastSpeedTime (statics m)).
Proof.
  intros Hk Hpos. cbv zeta.
  pose proof (keeps_moving_trace cfg trace m Hk Hpos) as H. cbv zeta in H.
  revert H. unfold sub32.
  generalize (global_totalDistanceTraveledTimer (globals (obdTask cfg m trace))).
  generalize (lastSpeedTime (statics (obdTask cfg m trace))).
  generalize (global_totalDistanceTraveledTimer (globals m)).
  generalize (lastSpeedTime (statics m)).
  intros l t l' t' H.
  assert (HM : UINT32_MOD <> 0) by (unfold UINT32_MOD; lia).
  pose proof (Z.div_mod (t' - l') UINT32_MOD HM) as E1.
  pose proof (Z.div_mod (t - l) UINT32_MOD HM) as E2.
  rewrite H in E1.
  replace (t' - t)
    with ((l' - l) + ((t' - l') / UINT32_MOD - (t - l) / UINT32_MOD) * UINT32_MOD)
    by lia.
  apply Z.mod_add. exact HM.
Qed.

Lemma X12_witness :
  let m' := obdTask sketch_plain sampled_at_tick_1000
              [ Poll (i2f 80) ELM_SUCCESS 3000; Poll (i2f 20) ELM_SUCCESS 3100;
                LinkLost; Poll (i2f 60) ELM_SUCCESS 9000 ] in
  sub32 (global_totalDistanceTraveledTimer (globals m'))
        (global_totalDistanceTraveledTimer (globals sampled_at_tick_1000))
  = sub32 (lastSpeedTime (statics m')) (lastSpeedTime (statics sampled_at_tick_1000)).
Proof.
  apply (X12_drive_timer_follows_the_speed_samples sketch_plain
           [ Poll (i2f 80) ELM_SUCCESS 3000; Poll (i2f 20) ELM_SUCCESS 3100;
             LinkLost; Poll (i2f 60) ELM_SUCCESS 9000 ] sampled_at_tick_1000);
    reflexivity.
Defined.

Lemma sub32_add32 (last d : Z) :
  0 <= d < UINT32_MOD -> sub32 (add32 last d) last = d.
Proof.
  intros Hd. unfold sub32, add32.
  rewrite Zminus_mod_idemp_l.
  replace (last + d - last) with d by lia.
  apply Z.mod_small. exact Hd.
Qed.

(** X13. The elapsed time survives the roll-over of [millis()]: the
    difference is taken on [uint32_t], so a speed sample taken [d] ms
    after the previous one is credited with [d] ms even when the clock has
    wrapped past 2^32 in between, and the distance delta is the one of an
    interval of [d] ms. *)
Theorem X13_elapsed_time_survives_the_clock_roll_over
  (s : Statics) (value : float32) (d : Z) :
  0 < lastSpeedTime s ->
  0 <= d < UINT32_MOD ->
  let now := add32 (lastSpeedTime s) d in
  kph_time_delta_ms s now = d
  /\ kph_dist_delta s value now
     = if positive32 value || positive32 (prev_kph s)
       then b64_mul (f2d (spec_average value (prev_kph s)))
                    (b64_div (u2d d) lit_3600000_0)
       else zero64.
Proof.
  intros Hlast Hd. cbv zeta.
  unfold kph_time_delta_ms, kph_dist_delta.
  replace (0 <? lastSpeedTime s) with true
    by (symmetry; apply Z.ltb_lt; assumption).
  rewrite (sub32_add32 _ _ Hd). split; reflexivity.
Qed.

Lemma X13_witness :
  let s := statics sampled_at_tick_1000 in
  let now := add32 (lastSpeedTime s) 4294967000 in
  now = 704
  /\ kph_time_delta_ms s now = 4294967000
  /\ kph_dist_delta s (i2f 80) now
     = if positive32 (i2f 80) || positive32 (prev_kph s)
       then b64_mul (f2d (spec_average (i2f 80) (prev_kph s)))
                    (b64_div (u2d 4294967000) lit_3600000_0)
       else zero64.
Proof.
  split; [reflexivity|].
  apply (X13_elapsed_time_survives_the_clock_roll_over
           (statics sampled_at_tick_1000) (i2f 80) 4294967000);
    [reflexivity | unfold UINT32_MOD; lia].
Defined.

(* ================================================================== *)
(** ** Beyond the claims: the average and the status sign              *)
(* ================================================================== *)

Lemma pack_a_number (prec emax : Z) (M e : Z) :
  settled_at prec emax M e -> a_number (pack_at prec emax false M e) = true.
Proof.
  intros Hs. unfold pack_at. destruct Hs as [[-> _]|[HM _]]; [reflexivity|].
  destruct M; try lia. destruct (e <=? emax - prec); reflexivity.
Qed.

(** A positive finite number divided by a number that is not below zero. *)
Lemma SFdiv_a_number (prec emax : Z) (mx : positive) (ex : Z) (y : spec_float) :
  0 < prec -> a_number y = true ->
  a_number (SFdiv prec emax (S754_finite false mx ex) y) = true
  /\ valid_at prec emax (SFdiv prec emax (S754_finite false mx ex) y).
Proof.
  intros Hprec Hy.
  destruct y as [[]|[]| |[] my ey]; try discriminate;
    try (split; reflexivity).
  unfold SFdiv. cbn [xorb].
  pose proof (SFdiv_core_binary_spec prec emax Hprec mx my ex ey) as H.
  destruct (SFdiv_core_binary prec emax (Zpos mx) ex (Zpos my) ey)
    as [[q e'] l].
  destruct H as (Hq & He & _).
  destruct (binary_round_aux_spec prec emax Hprec false q e' l Hq He)
    as (Mf & ef & -> & _ & _ & Hs & _).
  split; [apply pack_a_number | apply pack_valid]; assumption.
Qed.

(** A number that is not below zero times a positive finite number. *)
Lemma SFmul_a_number (prec emax : Z) (x : spec_float) (my : positive) (ey : Z) :
  0 < prec -> prec < emax ->
  valid_at prec emax x -> valid_at prec emax (S754_finite false my ey) ->
  a_number x = true ->
  a_number (SFmul prec emax x (S754_finite false my ey)) = true.
Proof.
  intros Hprec Hlt Hvx Hvy Hx.
  destruct x as [[]|[]| |[] mx ex]; try discriminate; try reflexivity.
  unfold valid_at, valid_binary, bounded in Hvx, Hvy.
  apply andb_prop in Hvx. destruct Hvx as [Hvx _].
  apply andb_prop in Hvy. destruct Hvy as [Hvy _].
  unfold SFmul. cbn [xorb].
  destruct (binary_round_aux_spec prec emax Hprec false (Zpos (mx * my))
              (ex + ey) loc_Exact) as (Mf & ef & -> & _ & _ & Hs & _).
  - lia.
  - apply SFmul_aligned; assumption.
  - apply pack_a_number; assumption.
Qed.

Lemma d2f_a_number (x : float64) : a_number x = true -> a_number (d2f x) = true.
Proof.
  intros Hx. destruct x as [[]|[]| |[] m e]; try discriminate; try reflexivity.
  unfold d2f.
  destruct (binary_round_spec 24 128 ltac:(lia) false m e)
    as (Mf & ef & -> & Hs & _).
  apply pack_a_number; assumption.
Qed.

Lemma f2d_a_number (x : float32) : a_number x = true -> a_number (f2d x) = true.
Proof.
  intros Hx. destruct x as [[]|[]| |[] m e]; try discriminate; try reflexivity.
  unfold f2d.
  destruct (binary_round_spec 53 1024 ltac:(lia) false m e)
    as (Mf & ef & -> & Hs & _).
  apply pack_a_number; assumption.
Qed.

Lemma c_round_a_number (x : float64) :
  a_number x = true -> a_number (c_round x) = true.
Proof.
  intros Hx. destruct x as [[]|[]| |[] m e]; try discriminate; try reflexivity.
  unfold c_round.
  destruct (0 <=? e) eqn:He; [reflexivity|].
  apply Z.leb_gt in He.
  assert (Hsh : 0 <= Z.shiftr (Zpos m + Z.shiftl 1 (- e - 1)) (- e)).
  { apply Z.shiftr_nonneg.
    assert (0 <= Z.shiftl 1 (- e - 1)) by (apply Z.shiftl_nonneg; lia).
    lia. }
  destruct (Z.shiftr (Zpos m + Z.shiftl 1 (- e - 1)) (- e)) as [|k|k];
    [reflexivity| |lia].
  destruct (binary_round_spec 53 1024 ltac:(lia) false k 0)
    as (Mf & ef & -> & Hs & _).
  apply pack_a_number; assumption.
Qed.

Lemma lit_0_1_eq : lit_0_1 = S754_finite false 7205759403792794 (-56).
Proof. vm_compute. reflexivity. Qed.

Lemma lit_0_001_eq : lit_0_001 = S754_finite false 4611686018427388 (-62).
Proof. vm_compute. reflexivity. Qed.

Lemma lit_100_0_eq : lit_100_0 = S754_finite false 7036874417766400 (-46).
Proof. vm_compute. reflexivity. Qed.

Lemma lit_235_21_eq : lit_235_21 = S754_finite false 8275716159014175 (-45).
Proof. vm_compute. reflexivity. Qed.

Lemma fgt_positive (x d : spec_float) (m : positive) (e : Z) :
  d = S754_finite false m e -> fgt x d = true ->
  x = S754_infinity false \/ exists mx ex, x = S754_finite false mx ex.
Proof.
  intros -> H. unfold fgt, SFltb in H.
  destruct x as [s|s| |s mx ex]; cbn in H; try discriminate.
  - destruct s; [discriminate | left; reflexivity].
  - destruct s; [discriminate | right; eauto].
Qed.

(** X14. The small field of mode 1 never shows a NaN or a negative
    average: whenever [isAverageMpgValid] holds and the totals are not both
    infinite, what is printed is a number that is not below zero. *)
Theorem X14_average_field_shows_a_number (dist fuel : float64) :
  isAverageMpgValid dist fuel = true ->
  finite64 dist || finite64 fuel = true ->
  exists v,
    average_mpg_field dist fuel = PrintNumber v /\ a_number v = true.
Proof.
  intros Hvalid Hfin. unfold average_mpg_field, avg_mpg. rewrite Hvalid.
  eexists. split; [reflexivity|].
  apply c_round_a_number, f2d_a_number, d2f_a_number.
  unfold isAverageMpgValid in Hvalid. apply andb_prop in Hvalid.
  destruct Hvalid as [Hd Hf].
  apply (fgt_positive _ _ _ _ lit_0_1_eq) in Hd.
  apply (fgt_positive _ _ _ _ lit_0_001_eq) in Hf.
  unfold mpg_of_totals. rewrite lit_235_21_eq, lit_100_0_eq.
  assert (Hq : a_number (b64_div fuel dist) = true
               /\ valid64 (b64_div fuel dist)).
  { destruct Hf as [->|(mf & ef & ->)].
    - destruct Hd as [->|(md & ed & ->)]; [discriminate|].
      split; reflexivity.
    - apply SFdiv_a_number; [lia|].
      destruct Hd as [->|(md & ed & ->)]; reflexivity. }
  destruct Hq as [Hq Hqv].
  apply SFdiv_a_number; [lia|].
  apply SFmul_a_number; try lia; try assumption.
  reflexivity.
Qed.

Lemma X14_witness :
  exists v,
    average_mpg_field (u2d 10) (u2d 1) = PrintNumber v /\ a_number v = true.
Proof.
  apply (X14_average_field_shows_a_number (u2d 10) (u2d 1));
    vm_compute; reflexivity.
Defined.

(** X15. The statistics page guards its average by the distance alone:
    with more than 0.1 km on the odometer and no fuel counted yet (MAF
    never answered) it divides by zero and hands +infinity to
    [display.print], where mode 1 shows dashes. *)
Theorem X15_statistics_page_divides_by_zero_fuel (dist : float64) :
  fgt dist lit_0_1 = true ->
  stats_average_field dist zero64 = PrintNumber (S754_infinity false)
  /\ average_mpg_field dist zero64 = PrintText "--".
Proof.
  intros Hd. unfold stats_average_field, average_mpg_field, isAverageMpgValid.
  rewrite Hd. split; [|reflexivity].
  f_equal.
  apply (fgt_positive _ _ _ _ lit_0_1_eq) in Hd.
  unfold mpg_of_totals. rewrite lit_235_21_eq, lit_100_0_eq.
  destruct Hd as [->|(md & ed & ->)]; reflexivity.
Qed.

Lemma X15_witness :
  stats_average_field (u2d 10) zero64 = PrintNumber (S754_infinity false)
  /\ average_mpg_field (u2d 10) zero64 = PrintText "--".
Proof.
  apply (X15_statistics_page_divides_by_zero_fuel (u2d 10)).
  vm_compute. reflexivity.
Defined.

(** X16. The status sign is "o" exactly while fewer than 200 ms have gone
    by since [global_lastDataUpdate], also across the roll-over of
    [millis()]; after that it shows the link: "x" when the port is not
    connected, "!" when it is. *)
Theorem X16_status_sign_is_live_for_200_ms
  (local_lastUpdate d : Z) (connected : bool) :
  0 <= d < UINT32_MOD ->
  let now := add32 local_lastUpdate d in
  (d < 200 -> status_sign now local_lastUpdate connected = "o"%string)
  /\ (200 <= d ->
      status_sign now local_lastUpdate connected
      = if connected then "!"%string else "x"%string).
Proof.
  intros Hd. cbv zeta. unfold status_sign. rewrite (sub32_add32 _ _ Hd).
  split; intros H.
  - replace (d <? 200) with true by (symmetry; apply Z.ltb_lt; lia).
    reflexivity.
  - replace (d <? 200) with false by (symmetry; apply Z.ltb_ge; lia).
    destruct connected; reflexivity.
Qed.

Lemma X16_witness :
  let now := add32 4294967200 150 in
  now = 54
  /\ (150 < 200 -> status_sign now 4294967200 true = "o"%string)
  /\ (200 <= 150 ->
      status_sign now 4294967200 true = if true then "!"%string else "x"%string).
Proof.
  split; [reflexivity|].
  apply (X16_status_sign_is_live_for_200_ms 4294967200 150 true).
  unfold UINT32_MOD. lia.
Defined.

(* ================================================================== *)
(** ** Beyond the claims: the drag timer                               *)
(* ================================================================== *)

Lemma lit_0_621371_eq :
  lit_0_621371 = S754_finite false 5596812408117665 (-53).
Proof. vm_compute. reflexivity. Qed.

Lemma standing_zero (local_kph : float32) :
  Drag.standing local_kph = true -> exists s, local_kph = S754_zero s.
Proof.
  unfold Drag.standing, feq, SFeqb.
  destruct local_kph as [s|[]| |[] m e]; cbn; try discriminate.
  intros _. exists s. reflexivity.
Qed.

(** X17. Standing still clears the drag timer: a pass that finds the
    speed equal to 0 stops a run, clears the three splits and does not
    start a new run, whatever state the timer was in. *)
Theorem X17_standstill_clears_the_drag_timer
  (s : Drag.Statics) (local_kph : float32) (millis_start millis_now : Z) :
  Drag.standing local_kph = true ->
  Drag.drag_pass s local_kph millis_start millis_now
  = {| Drag.startTime := Drag.startTime s; Drag.isRunning := false;
       Drag.timer_30 := zero32; Drag.timer_60 := zero32;
       Drag.timer_80 := zero32 |}.
Proof.
  intros H. unfold Drag.drag_pass, Drag.reset_state. rewrite H.
  destruct (standing_zero _ H) as [b ->].
  unfold Drag.current_mph. rewrite lit_0_621371_eq.
  destruct b; reflexivity.
Qed.

Lemma X17_witness :
  Drag.drag_pass drag_under_way zero32 9000 9000
  = {| Drag.startTime := Drag.startTime drag_under_way;
       Drag.isRunning := false;
       Drag.timer_30 := zero32; Drag.timer_60 := zero32;
       Drag.timer_80 := zero32 |}.
Proof.
  apply (X17_standstill_clears_the_drag_timer drag_under_way zero32 9000 9000).
  reflexivity.
Defined.

Lemma drag_pass_rolling (s : Drag.Statics) (p : float32 * Z * Z) :
  Drag.rolling p = true ->
  let s' := Drag.drag_pass s (fst (fst p)) (snd (fst p)) (snd p) in
  (Drag.unset (Drag.timer_30 s) = false -> Drag.timer_30 s' = Drag.timer_30 s)
  /\ (Drag.unset (Drag.timer_60 s) = false -> Drag.timer_60 s' = Drag.timer_60 s)
  /\ (Drag.unset (Drag.timer_80 s) = false -> Drag.timer_80 s' = Drag.timer_80 s)
  /\ (Drag.isRunning s = false -> Drag.unset (Drag.timer_80 s) = false ->
      s' = s).
Proof.
  destruct p as [[kph t1] t2]. unfold Drag.rolling. cbn [fst snd].
  intros Hroll. apply negb_true_iff in Hroll.
  cbv zeta. unfold Drag.drag_pass, Drag.reset_state. rewrite Hroll.
  unfold Drag.start_trigger.
  destruct (fgt (f2d (Drag.current_mph kph)) Drag.lit_0_5
            && negb (Drag.isRunning s) && Drag.unset (Drag.timer_80 s)) eqn:Hstart.
  - apply andb_prop in Hstart. destruct Hstart as [Hstart Hun].
    apply andb_prop in Hstart. destruct Hstart as [_ Hrun].
    unfold Drag.latching.
    cbn [Drag.isRunning Drag.timer_30 Drag.timer_60 Drag.timer_80 Drag.startTime].
    repeat split.
    + intros ->. rewrite andb_false_r. reflexivity.
    + intros ->. rewrite andb_false_r. reflexivity.
    + intros E. rewrite E in Hun. discriminate.
    + intros _ E. rewrite E in Hun. discriminate.
  - unfold Drag.latching. destruct (Drag.isRunning s) eqn:Hrun.
    + cbn [Drag.timer_30 Drag.timer_60 Drag.timer_80].
      repeat split; try (intros ->; rewrite andb_false_r; reflexivity).
      discriminate.
    + repeat split; reflexivity.
Qed.

Lemma drag_cons (s : Drag.Statics) (p : float32 * Z * Z)
  (rest : list (float32 * Z * Z)) :
  Drag.drag s (p :: rest)
  = Drag.drag (Drag.drag_pass s (fst (fst p)) (snd (fst p)) (snd p)) rest.
Proof. reflexivity. Qed.

(** X18. A latched split is kept while the car rolls: over any number of
    passes with a speed other than 0, a split that has been latched (is
    not 0.0) keeps its value, whether the run goes on, ends at 80 mph,
    times out or starts again. *)
Theorem X18_a_latched_split_is_kept_while_rolling
  (passes : list (float32 * Z * Z)) (s : Drag.Statics) :
  forallb Drag.rolling passes = true ->
  let s' := Drag.drag s passes in
  (Drag.unset (Drag.timer_30 s) = false -> Drag.timer_30 s' = Drag.timer_30 s)
  /\ (Drag.unset (Drag.timer_60 s) = false -> Drag.timer_60 s' = Drag.timer_60 s)
  /\ (Drag.unset (Drag.timer_80 s) = false -> Drag.timer_80 s' = Drag.timer_80 s).
Proof.
  revert s. induction passes as [|p rest IH]; intros s Hall; [cbn; auto|].
  cbn [forallb] in Hall. apply andb_prop in Hall. destruct Hall as [Hp Hrest].
  destruct (drag_pass_rolling s p Hp) as (P1 & P2 & P3 & _).
  cbv zeta. rewrite drag_cons.
  destruct (IH (Drag.drag_pass s (fst (fst p)) (snd (fst p)) (snd p)) Hrest)
    as (Q1 & Q2 & Q3).
  repeat split; intros H.
  - rewrite <- (P1 H). apply Q1. rewrite (P1 H). exact H.
  - rewrite <- (P2 H). apply Q2. rewrite (P2 H). exact H.
  - rewrite <- (P3 H). apply Q3. rewrite (P3 H). exact H.
Qed.

Lemma X18_witness :
  let s' := Drag.drag drag_under_way
              [ (i2f 60, 7000, 7000); (i2f 100, 9000, 9000);
                (i2f 20, 200000, 200000) ] in
  (Drag.unset (Drag.timer_30 drag_under_way) = false ->
   Drag.timer_30 s' = Drag.timer_30 drag_under_way)
  /\ (Drag.unset (Drag.timer_60 drag_under_way) = false ->
      Drag.timer_60 s' = Drag.timer_60 drag_under_way)
  /\ (Drag.unset (Drag.timer_80 drag_under_way) = false ->
      Drag.timer_80 s' = Drag.timer_80 drag_under_way).
Proof.
  apply (X18_a_latched_split_is_kept_while_rolling
           [ (i2f 60, 7000, 7000); (i2f 100, 9000, 9000);
             (i2f 20, 200000, 200000) ] drag_under_way).
  vm_compute. reflexivity.
Defined.

(** X19. A finished run waits for a standstill: once 80 mph has been
    latched and the run has stopped, no pass with a speed other than 0
    changes anything; no new run starts before the car has stood
    still. *)
Theorem X19_a_finished_run_waits_for_a_standstill
  (passes : list (float32 * Z * Z)) (s : Drag.Statics) :
  forallb Drag.rolling passes = true ->
  Drag.isRunning s = false ->
  Drag.unset (Drag.timer_80 s) = false ->
  Drag.drag s passes = s.
Proof.
  intros Hall Hrun Hset.
  induction passes as [|p rest IH]; [reflexivity|].
  cbn [forallb] in Hall. apply andb_prop in Hall. destruct Hall as [Hp Hrest].
  destruct (drag_pass_rolling s p Hp) as (_ & _ & _ & P4).
  rewrite drag_cons, (P4 Hrun Hset). apply IH. exact Hrest.
Qed.

Lemma X19_witness :
  Drag.drag drag_finished [ (i2f 140, 15000, 15000); (i2f 3, 60000, 60000) ]
  = drag_finished.
Proof.
  apply (X19_a_finished_run_waits_for_a_standstill
           [ (i2f 140, 15000, 15000); (i2f 3, 60000, 60000) ] drag_finished);
    vm_compute; reflexivity.
Defined.

(** X20. A run that exceeds three minutes is not given up but started
    again: the pass that finds the duration above 180 s stops it, and the
    next pass, the car still moving and 80 mph not latched, starts a new
    run from its own clock reading while the splits latched in the
    timed-out run stay on the display. *)
Theorem X20_a_timed_out_run_starts_again
  (s : Drag.Statics) (local_kph : float32)
  (millis_1 millis_2 millis_3 millis_4 : Z) :
  Drag.isRunning s = true ->
  Drag.unset (Drag.timer_80 s) = true ->
  Drag.standing local_kph = false ->
  fgt (f2d (Drag.current_mph local_kph)) Drag.lit_0_5 = true ->
  Drag.reached (Drag.current_mph local_kph) Drag.lit_80_0 = false ->
  fgt (f2d (Drag.currentDuration millis_2 (Drag.startTime s)))
      Drag.lit_180_0 = true ->
  fgt (f2d (Drag.currentDuration millis_4 millis_3)) Drag.lit_180_0 = false ->
  let s1 := Drag.drag_pass s local_kph millis_1 millis_2 in
  let s2 := Drag.drag_pass s1 local_kph millis_3 millis_4 in
  Drag.isRunning s1 = false
  /\ Drag.isRunning s2 = true
  /\ Drag.startTime s2 = millis_3
  /\ (Drag.unset (Drag.timer_30 s) = false -> Drag.timer_30 s2 = Drag.timer_30 s)
  /\ (Drag.unset (Drag.timer_60 s) = false -> Drag.timer_60 s2 = Drag.timer_60 s).
Proof.
  intros Hrun Hun Hroll Hmph H80 Hout Hin. cbv zeta.
  assert (E1 : Drag.drag_pass s local_kph millis_1 millis_2
               = {| Drag.startTime := Drag.startTime s;
                    Drag.isRunning := false;
                    Drag.timer_30 :=
                      if Drag.reached (Drag.current_mph local_kph) Drag.lit_30_0
                         && Drag.unset (Drag.timer_30 s)
                      then Drag.currentDuration millis_2 (Drag.startTime s)
                      else Drag.timer_30 s;
                    Drag.timer_60 :=
                      if Drag.reached (Drag.current_mph local_kph) Drag.lit_60_0
                         && Drag.unset (Drag.timer_60 s)
                      then Drag.currentDuration millis_2 (Drag.startTime s)
                      else Drag.timer_60 s;
                    Drag.timer_80 := Drag.timer_80 s |}).
  { unfold Drag.drag_pass, Drag.reset_state, Drag.start_trigger.
    rewrite Hroll, Hrun, Hmph. cbn [negb andb]. unfold Drag.latching.
    rewrite Hrun, H80, Hout. reflexivity. }
  rewrite E1.
  unfold Drag.drag_pass, Drag.reset_state, Drag.start_trigger.
  rewrite Hroll.
  cbn [Drag.isRunning Drag.timer_80 Drag.timer_30 Drag.timer_60 Drag.startTime].
  rewrite Hmph, Hun. cbn [negb andb]. unfold Drag.latching.
  cbn [Drag.isRunning Drag.timer_80 Drag.timer_30 Drag.timer_60 Drag.startTime].
  rewrite H80, Hin. cbn [negb andb].
  split; [reflexivity|]. split; [reflexivity|]. split; [reflexivity|].
  split; intros H; rewrite H, andb_false_r; cbv iota;
    rewrite H, andb_false_r; reflexivity.
Qed.

Lemma X20_witness :
  let s1 := Drag.drag_pass drag_under_way (i2f 50) 190000 190000 in
  let s2 := Drag.drag_pass s1 (i2f 50) 190100 190100 in
  Drag.isRunning s1 = false
  /\ Drag.isRunning s2 = true
  /\ Drag.startTime s2 = 190100
  /\ (Drag.unset (Drag.timer_30 drag_under_way) = false ->
      Drag.timer_30 s2 = Drag.timer_30 drag_under_way)
  /\ (Drag.unset (Drag.timer_60 drag_under_way) = false ->
      Drag.timer_60 s2 = Drag.timer_60 drag_under_way).
Proof.
  apply (X20_a_timed_out_run_starts_again drag_under_way (i2f 50)
           190000 190000 190100 190100);
    vm_compute; reflexivity.
Defined.

(* ================================================================== *)
(** ** Beyond the claims: the first sketch and the earlier copy        *)
(* ================================================================== *)

Lemma add_zero64 (x : float64) : x <> S754_zero true -> b64_add x zero64 = x.
Proof. destruct x as [[]|[]| |[] m e]; intros H; try reflexivity. congruence. Qed.

Lemma first_obdTask_cons (m : First.Machine) (ev : First.Event)
  (rest : list First.Event) :
  First.obdTask m (ev :: rest) = First.obdTask (First.obdTask_pass m ev) rest.
Proof. reflexivity. Qed.

Lemma first_obdTask_app (m : First.Machine) (a b : list First.Event) :
  First.obdTask m (a ++ b) = First.obdTask (First.obdTask m a) b.
Proof. unfold First.obdTask. apply fold_left_app. Qed.

(** X21. In the first sketch the reset of the reconnection branch works:
    [lastSuccessfulMpgPollTime] is what its integrator reads, so the first
    pass after a link loss adds nothing to either total, however long the
    gap and whatever the readings, and integration resumes from that
    pass. *)
Theorem X21_first_sketch_adds_nothing_after_a_link_loss
  (m : First.Machine) (local_kph local_maf : float32) (pollCompleteTime : Z) :
  First.global_totalDistanceTraveled (First.globals m) <> S754_zero true ->
  First.global_totalFuelConsumed (First.globals m) <> S754_zero true ->
  let m' := First.obdTask m
              [First.LinkLost; First.Poll local_kph local_maf pollCompleteTime] in
  First.global_totalDistanceTraveled (First.globals m')
  = First.global_totalDistanceTraveled (First.globals m)
  /\ First.global_totalFuelConsumed (First.globals m')
     = First.global_totalFuelConsumed (First.globals m)
  /\ First.lastSuccessfulMpgPollTime m'
     = if First.isMpgDataValid local_kph local_maf then pollCompleteTime else 0.
Proof.
  intros Hd Hf. cbv zeta. rewrite !first_obdTask_cons.
  cbn [First.obdTask fold_left First.obdTask_pass].
  unfold First.connected_pass, First.distance_delta_km, First.fuel_delta,
    First.integrates.
  cbn [First.link_down_pass First.lastSuccessfulMpgPollTime First.globals
       First.global_totalDistanceTraveled First.global_totalFuelConsumed].
  change (0 <? 0) with false. rewrite andb_false_r.
  rewrite (add_zero64 _ Hd), (add_zero64 _ Hf). repeat split; reflexivity.
Qed.

Lemma X21_witness :
  let m' := First.obdTask first_machine_moving
              [First.LinkLost; First.Poll (i2f 100) (i2f 20) 3601000] in
  First.global_totalDistanceTraveled (First.globals m')
  = First.global_totalDistanceTraveled (First.globals first_machine_moving)
  /\ First.global_totalFuelConsumed (First.globals m')
     = First.global_totalFuelConsumed (First.globals first_machine_moving)
  /\ First.lastSuccessfulMpgPollTime m'
     = if First.isMpgDataValid (i2f 100) (i2f 20) then 3601000 else 0.
Proof.
  apply (X21_first_sketch_adds_nothing_after_a_link_loss first_machine_moving
           (i2f 100) (i2f 20) 3601000); vm_compute; discriminate.
Defined.

Lemma first_not_integrated (idle : list First.Event) :
  forall m,
    forallb First.not_integrated idle = true ->
    First.global_totalDistanceTraveled (First.globals m) <> S754_zero true ->
    First.global_totalFuelConsumed (First.globals m) <> S754_zero true ->
    let m' := First.obdTask m idle in
    First.lastSuccessfulMpgPollTime m' = First.lastSuccessfulMpgPollTime m
    /\ First.global_totalDistanceTraveled (First.globals m')
       = First.global_totalDistanceTraveled (First.globals m)
    /\ First.global_totalFuelConsumed (First.globals m')
       = First.global_totalFuelConsumed (First.globals m).
Proof.
  induction idle as [|ev rest IH]; intros m Hall Hd Hf; [cbn; auto|].
  cbn [forallb] in Hall. apply andb_prop in Hall. destruct Hall as [Hev Hrest].
  destruct ev as [kph maf t|]; [|discriminate].
  cbn [First.not_integrated] in Hev. apply negb_true_iff in Hev.
  assert (E : First.lastSuccessfulMpgPollTime
                (First.obdTask_pass m (First.Poll kph maf t))
              = First.lastSuccessfulMpgPollTime m
              /\ First.global_totalDistanceTraveled
                   (First.globals (First.obdTask_pass m (First.Poll kph maf t)))
                 = First.global_totalDistanceTraveled (First.globals m)
              /\ First.global_totalFuelConsumed
                   (First.globals (First.obdTask_pass m (First.Poll kph maf t)))
                 = First.global_totalFuelConsumed (First.globals m)).
  { cbn [First.obdTask_pass].
    unfold First.connected_pass, First.distance_delta_km, First.fuel_delta,
      First.integrates.
    rewrite Hev.
    cbn [andb First.lastSuccessfulMpgPollTime First.globals
         First.global_totalDistanceTraveled First.global_totalFuelConsumed].
    rewrite (add_zero64 _ Hd), (add_zero64 _ Hf). repeat split; reflexivity. }
  destruct E as (E1 & E2 & E3).
  cbv zeta. rewrite first_obdTask_cons.
  destruct (IH (First.obdTask_pass m (First.Poll kph maf t)) Hrest)
    as (I1 & I2 & I3); [rewrite E2; exact Hd | rewrite E3; exact Hf |].
  repeat split; congruence.
Qed.

(** X22. The first sketch integrates across a standstill: passes whose
    readings do not qualify (speed 0, or a failed query) add nothing and
    do not move [lastSuccessfulMpgPollTime], so the next qualifying pass
    multiplies its own speed and fuel rate by the whole time since the
    last qualifying one; an hour at a traffic light followed by a sample
    at 50 km/h adds 50 km. *)
Theorem X22_first_sketch_integrates_across_a_standstill
  (m : First.Machine) (idle : list First.Event)
  (local_kph local_maf : float32) (pollCompleteTime : Z) :
  forallb First.not_integrated idle = true ->
  0 < First.lastSuccessfulMpgPollTime m ->
  First.isMpgDataValid local_kph local_maf = true ->
  First.global_totalDistanceTraveled (First.globals m) <> S754_zero true ->
  First.global_totalFuelConsumed (First.globals m) <> S754_zero true ->
  let m' := First.obdTask m
              (idle ++ [First.Poll local_kph local_maf pollCompleteTime]) in
  let hours := First.deltaTime_hours m pollCompleteTime in
  First.global_totalDistanceTraveled (First.globals m')
  = b64_add (First.global_totalDistanceTraveled (First.globals m))
            (b64_mul (f2d local_kph) hours)
  /\ First.global_totalFuelConsumed (First.globals m')
     = b64_add (First.global_totalFuelConsumed (First.globals m))
               (b64_mul (f2d (d2f (b64_mul (f2d local_maf) lit_0_33094))) hours).
Proof.
  intros Hidle Hlast Hvalid Hd Hf. cbv zeta.
  destruct (first_not_integrated idle m Hidle Hd Hf) as (I1 & I2 & I3).
  rewrite first_obdTask_app.
  set (m1 := First.obdTask m idle) in *.
  cbn [First.obdTask fold_left First.obdTask_pass].
  unfold First.connected_pass, First.distance_delta_km, First.fuel_delta,
    First.integrates, First.deltaTime_hours.
  cbn [First.globals First.global_totalDistanceTraveled
       First.global_totalFuelConsumed].
  rewrite Hvalid, I1, I2, I3.
  replace (0 <? First.lastSuccessfulMpgPollTime m) with true
    by (symmetry; apply Z.ltb_lt; assumption).
  split; reflexivity.
Qed.

Lemma X22_witness :
  let m' := First.obdTask first_machine_moving
              ([ First.Poll zero32 (i2f 3) 1201000;
                 First.Poll lit_minus_1_0 lit_minus_1_0 2401000 ]
               ++ [First.Poll (i2f 50) (i2f 20) 3601000]) in
  let hours := First.deltaTime_hours first_machine_moving 3601000 in
  First.global_totalDistanceTraveled (First.globals m')
  = b64_add (First.global_totalDistanceTraveled
               (First.globals first_machine_moving))
            (b64_mul (f2d (i2f 50)) hours)
  /\ First.global_totalFuelConsumed (First.globals m')
     = b64_add (First.global_totalFuelConsumed
                  (First.globals first_machine_moving))
               (b64_mul (f2d (d2f (b64_mul (f2d (i2f 20)) lit_0_33094))) hours).
Proof.
  apply (X22_first_sketch_integrates_across_a_standstill first_machine_moving
           [ First.Poll zero32 (i2f 3) 1201000;
             First.Poll lit_minus_1_0 lit_minus_1_0 2401000 ]
           (i2f 50) (i2f 20) 3601000);
    try (vm_compute; reflexivity); vm_compute; discriminate.
Defined.

Lemma first_pass_sane (m : First.Machine) (ev : First.Event) :
  First.sane m -> First.nonneg_event ev = true ->
  First.sane (First.obdTask_pass m ev)
  /\ never_less (First.global_totalDistanceTraveled (First.globals m))
       (First.global_totalDistanceTraveled
          (First.globals (First.obdTask_pass m ev)))
  /\ never_less (First.global_totalFuelConsumed (First.globals m))
       (First.global_totalFuelConsumed
          (First.globals (First.obdTask_pass m ev))).
Proof.
  intros (Hdv & Hdu & Hfv & Hfu) Hev.
  destruct ev as [kph maf t|]; cbn [First.obdTask_pass].
  - cbn [First.nonneg_event] in Hev. apply andb_prop in Hev.
    destruct Hev as [Hk Hm].
    apply nonneg32_unsigned in Hk. apply nonneg32_unsigned in Hm.
    destruct (hours_ok (sub32 t (First.lastSuccessfulMpgPollTime m))
                (sub32_nonneg _ _)) as [Hhv Hhu].
    assert (Hdd : valid64 (First.distance_delta_km m kph maf t)
                  /\ unsigned (First.distance_delta_km m kph maf t) = true).
    { unfold First.distance_delta_km, First.deltaTime_hours.
      destruct (First.integrates m kph maf); [|split; reflexivity].
      split.
      - apply SFmul_valid; try lia; [apply f2d_valid | assumption].
      - apply SFmul_unsigned; [apply f2d_unsigned|]; assumption. }
    assert (Hfd : valid64 (First.fuel_delta m kph maf t)
                  /\ unsigned (First.fuel_delta m kph maf t) = true).
    { unfold First.fuel_delta, First.deltaTime_hours.
      destruct (First.integrates m kph maf); [|split; reflexivity].
      split.
      - apply SFmul_valid; try lia; [apply f2d_valid | assumption].
      - apply SFmul_unsigned; [|assumption].
        apply f2d_unsigned, d2f_unsigned, SFmul_unsigned; [|reflexivity].
        apply f2d_unsigned; assumption. }
    destruct Hdd as [Hddv Hddu]. destruct Hfd as [Hfdv Hfdu].
    destruct (add_never_less _ _ Hdv Hdu Hddv Hddu) as (A1 & A2 & A3).
    destruct (add_never_less _ _ Hfv Hfu Hfdv Hfdu) as (B1 & B2 & B3).
    unfold First.connected_pass, First.sane.
    cbn [First.globals First.global_totalDistanceTraveled
         First.global_totalFuelConsumed].
    repeat split; assumption.
  - unfold First.link_down_pass, First.sane.
    cbn [First.globals First.global_totalDistanceTraveled
         First.global_totalFuelConsumed].
    repeat split; try assumption; apply never_less_refl; assumption.
Qed.

(** X23. The totals of the first sketch never go down either: over any
    trace of passes and link losses whose readings are not below zero,
    both totals stay valid and without sign, and each ends no lower than
    it began (or as a NaN). *)
Theorem X23_first_sketch_totals_never_decrease
  (trace : list First.Event) (m : First.Machine) :
  First.sane m ->
  forallb First.nonneg_event trace = true ->
  First.sane (First.obdTask m trace)
  /\ never_less (First.global_totalDistanceTraveled (First.globals m))
       (First.global_totalDistanceTraveled
          (First.globals (First.obdTask m trace)))
  /\ never_less (First.global_totalFuelConsumed (First.globals m))
       (First.global_totalFuelConsumed
          (First.globals (First.obdTask m trace))).
Proof.
  revert m. induction trace as [|ev rest IH]; intros m Hm Hall.
  - destruct Hm as (Hdv & Hdu & Hfv & Hfu).
    repeat split; try assumption; apply never_less_refl; assumption.
  - cbn [forallb] in Hall. apply andb_prop in Hall. destruct Hall as [Hev Hrest].
    destruct (first_pass_sane m ev Hm Hev) as (Hm' & Hd & Hf).
    destruct (IH _ Hm' Hrest) as (Hm'' & Hd' & Hf').
    rewrite first_obdTask_cons.
    split; [assumption|].
    destruct Hm as (_ & Hdu & _ & Hfu).
    destruct Hm' as (_ & Hdu' & _ & Hfu').
    destruct Hm'' as (_ & Hdu'' & _ & Hfu'').
    split.
    + apply never_less_trans
        with (First.global_totalDistanceTraveled
                (First.globals (First.obdTask_pass m ev))); assumption.
    + apply never_less_trans
        with (First.global_totalFuelConsumed
                (First.globals (First.obdTask_pass m ev))); assumption.
Qed.

Lemma X23_witness :
  First.sane (First.obdTask First.initial_machine
                [ First.Poll (i2f 80) (i2f 20) 1000; First.LinkLost;
                  First.Poll (i2f 90) (i2f 25) 9000;
                  First.Poll (i2f 70) (i2f 15) 12000 ])
  /\ never_less
       (First.global_totalDistanceTraveled (First.globals First.initial_machine))
       (First.global_totalDistanceTraveled
          (First.globals
             (First.obdTask First.initial_machine
                [ First.Poll (i2f 80) (i2f 20) 1000; First.LinkLost;
                  First.Poll (i2f 90) (i2f 25) 9000;
                  First.Poll (i2f 70) (i2f 15) 12000 ])))
  /\ never_less
       (First.global_totalFuelConsumed (First.globals First.initial_machine))
       (First.global_totalFuelConsumed
          (First.globals
             (First.obdTask First.initial_machine
                [ First.Poll (i2f 80) (i2f 20) 1000; First.LinkLost;
                  First.Poll (i2f 90) (i2f 25) 9000;
                  First.Poll (i2f 70) (i2f 15) 12000 ]))).
Proof.
  apply (X23_first_sketch_totals_never_decrease
           [ First.Poll (i2f 80) (i2f 20) 1000; First.LinkLost;
             First.Poll (i2f 90) (i2f 25) 9000;
             First.Poll (i2f 70) (i2f 15) 12000 ] First.initial_machine).
  - repeat split; reflexivity.
  - vm_compute. reflexivity.
Defined.

Lemma early_obdTask_cons (e : Early.Machine) (ev : Early.Event)
  (rest : list Early.Event) :
  Early.obdTask e (ev :: rest) = Early.obdTask (Early.obdTask_pass e ev) rest.
Proof. reflexivity. Qed.

Lemma positive32_unsigned (x : float32) : positive32 x = true -> unsigned x = true.
Proof. destruct x as [s|[]| |[] m e]; try reflexivity; discriminate. Qed.

Lemma early_pass_sane (e : Early.Machine) (ev : Early.Event) :
  early_sane e -> early_nonneg_event ev = true ->
  early_sane (Early.obdTask_pass e ev)
  /\ never_less (Early.global_totalDistanceTraveled (Early.globals e))
       (Early.global_totalDistanceTraveled
          (Early.globals (Early.obdTask_pass e ev)))
  /\ never_less (Early.global_totalFuelConsumed (Early.globals e))
       (Early.global_totalFuelConsumed
          (Early.globals (Early.obdTask_pass e ev))).
Proof.
  intros (Hdv & Hdu & Hfv & Hfu) Hev.
  assert (Hsame : early_sane e /\
            never_less (Early.global_totalDistanceTraveled (Early.globals e))
                       (Early.global_totalDistanceTraveled (Early.globals e)) /\
            never_less (Early.global_totalFuelConsumed (Early.globals e))
                       (Early.global_totalFuelConsumed (Early.globals e))).
  { unfold early_sane. repeat split; try assumption;
      apply never_less_refl; assumption. }
  destruct ev as [reply rx t1 t2| |mode]; cbn [Early.obdTask_pass];
    [|exact Hsame ..].
  unfold Early.connected_pass.
  destruct (Early.currentState (Early.statics e));
    destruct rx as [| |code]; try exact Hsame.
  cbn [early_nonneg_event] in Hev. apply nonneg32_unsigned in Hev.
  destruct (hours_ok (sub32 t1 (Early.lastSuccessfulMpgPollTime (Early.statics e)))
              (sub32_nonneg _ _)) as [Hhv Hhu].
  unfold Early.maf_success, early_sane.
  cbn [Early.globals Early.global_totalDistanceTraveled
       Early.global_totalFuelConsumed].
  set (dd := if (0 <? _) && positive32 _ then _ else zero64).
  set (fd := if 0 <? _ then _ else zero64).
  assert (Hdd : valid64 dd /\ unsigned dd = true).
  { unfold dd.
    destruct (0 <? Early.lastSuccessfulMpgPollTime (Early.statics e));
      [|split; reflexivity].
    cbn [andb].
    destruct (positive32 (Early.temp_kph (Early.statics e))) eqn:Hpos;
      [|split; reflexivity].
    split.
    - apply SFmul_valid; try lia; [apply f2d_valid | assumption].
    - apply SFmul_unsigned; [|assumption].
      apply f2d_unsigned, positive32_unsigned. exact Hpos. }
  assert (Hfd : valid64 fd /\ unsigned fd = true).
  { unfold fd.
    destruct (0 <? Early.lastSuccessfulMpgPollTime (Early.statics e));
      [|split; reflexivity].
    split.
    - apply SFmul_valid; try lia; [apply f2d_valid | assumption].
    - apply SFmul_unsigned; [|assumption].
      apply f2d_unsigned, d2f_unsigned, SFmul_unsigned; [|reflexivity].
      apply f2d_unsigned; assumption. }
  destruct Hdd as [Hddv Hddu]. destruct Hfd as [Hfdv Hfdu].
  destruct (add_never_less _ _ Hdv Hdu Hddv Hddu) as (A1 & A2 & A3).
  destruct (add_never_less _ _ Hfv Hfu Hfdv Hfdu) as (B1 & B2 & B3).
  repeat split; assumption.
Qed.

(** X24. The totals of the earlier state-machine copy never go down: over
    any trace whose successful replies are not below zero, both totals
    stay valid and without sign, and each ends no lower than it began (or
    as a NaN). *)
Theorem X24_early_copy_totals_never_decrease
  (trace : list Early.Event) (e : Early.Machine) :
  early_sane e ->
  forallb early_nonneg_event trace = true ->
  early_sane (Early.obdTask e trace)
  /\ never_less (Early.global_totalDistanceTraveled (Early.globals e))
       (Early.global_totalDistanceTraveled
          (Early.globals (Early.obdTask e trace)))
  /\ never_less (Early.global_totalFuelConsumed (Early.globals e))
       (Early.global_totalFuelConsumed
          (Early.globals (Early.obdTask e trace))).
Proof.
  revert e. induction trace as [|ev rest IH]; intros e He Hall.
  - destruct He as (Hdv & Hdu & Hfv & Hfu).
    repeat split; try assumption; apply never_less_refl; assumption.
  - cbn [forallb] in Hall. apply andb_prop in Hall. destruct Hall as [Hev Hrest].
    destruct (early_pass_sane e ev He Hev) as (He' & Hd & Hf).
    destruct (IH _ He' Hrest) as (He'' & Hd' & Hf').
    rewrite early_obdTask_cons.
    split; [assumption|].
    destruct He as (_ & Hdu & _ & Hfu).
    destruct He' as (_ & Hdu' & _ & Hfu').
    destruct He'' as (_ & Hdu'' & _ & Hfu'').
    split.
    + apply never_less_trans
        with (Early.global_totalDistanceTraveled
                (Early.globals (Early.obdTask_pass e ev))); assumption.
    + apply never_less_trans
        with (Early.global_totalFuelConsumed
                (Early.globals (Early.obdTask_pass e ev))); assumption.
Qed.

Lemma X24_witness :
  early_sane (Early.obdTask early_machine_polling_rpm
                [ Early.Poll (i2f 2500) ELM_SUCCESS 1000 1000;
                  Early.Poll (i2f 40) ELM_SUCCESS 1100 1100;
                  Early.Poll (i2f 60) ELM_SUCCESS 1200 1200;
                  Early.Poll (i2f 85) ELM_SUCCESS 1300 1300;
                  Early.Poll (i2f 21) ELM_SUCCESS 1400 1400 ])
  /\ never_less
       (Early.global_totalDistanceTraveled
          (Early.globals early_machine_polling_rpm))
       (Early.global_totalDistanceTraveled
          (Early.globals
             (Early.obdTask early_machine_polling_rpm
                [ Early.Poll (i2f 2500) ELM_SUCCESS 1000 1000;
                  Early.Poll (i2f 40) ELM_SUCCESS 1100 1100;
                  Early.Poll (i2f 60) ELM_SUCCESS 1200 1200;
                  Early.Poll (i2f 85) ELM_SUCCESS 1300 1300;
                  Early.Poll (i2f 21) ELM_SUCCESS 1400 1400 ])))
  /\ never_less
       (Early.global_totalFuelConsumed
          (Early.globals early_machine_polling_rpm))
       (Early.global_totalFuelConsumed
          (Early.globals
             (Early.obdTask early_machine_polling_rpm
                [ Early.Poll (i2f 2500) ELM_SUCCESS 1000 1000;
                  Early.Poll (i2f 40) ELM_SUCCESS 1100 1100;
                  Early.Poll (i2f 60) ELM_SUCCESS 1200 1200;
                  Early.Poll (i2f 85) ELM_SUCCESS 1300 1300;
                  Early.Poll (i2f 21) ELM_SUCCESS 1400 1400 ]))).
Proof.
  apply (X24_early_copy_totals_never_decrease
           [ Early.Poll (i2f 2500) ELM_SUCCESS 1000 1000;
             Early.Poll (i2f 40) ELM_SUCCESS 1100 1100;
             Early.Poll (i2f 60) ELM_SUCCESS 1200 1200;
             Early.Poll (i2f 85) ELM_SUCCESS 1300 1300;
             Early.Poll (i2f 21) ELM_SUCCESS 1400 1400 ]
           early_machine_polling_rpm).
  - repeat split; vm_compute; reflexivity.
  - vm_compute. reflexivity.
Defined.

(** X25. The earlier copy has no way out of a query that is never
    answered: outside the MAF state any run of replies other than success
    (an error as much as "still receiving") leaves the whole machine as it
    was, so a gauge the car does not support keeps the task in that state
    and speed and MAF are no longer polled. *)
Theorem X25_early_copy_repeats_an_unanswered_query
  (trace : list Early.Event) (e : Early.Machine) :
  forallb early_unanswered trace = true ->
  Early.currentState (Early.statics e) <> Early.OBD_STATE_MAF ->
  Early.obdTask e trace = e.
Proof.
  intros Hall Hst. induction trace as [|ev rest IH]; [reflexivity|].
  cbn [forallb] in Hall. apply andb_prop in Hall. destruct Hall as [Hev Hrest].
  rewrite early_obdTask_cons.
  assert (E : Early.obdTask_pass e ev = e).
  { destruct ev as [reply rx t1 t2| |mode]; try discriminate.
    cbn [Early.obdTask_pass]. unfold Early.connected_pass.
    destruct (Early.currentState (Early.statics e));
      destruct rx as [| |code]; try discriminate; try reflexivity;
      contradiction Hst; reflexivity. }
  rewrite E. apply IH. exact Hrest.
Qed.

Lemma X25_witness :
  Early.obdTask early_machine_polling_rpm
    [ Early.Poll zero32 (ELM_ERROR 7) 1000 1000;
      Early.Poll zero32 ELM_GETTING_MSG 1100 1100;
      Early.Poll zero32 (ELM_ERROR 7) 1200 1200 ]
  = early_machine_polling_rpm.
Proof.
  apply (X25_early_copy_repeats_an_unanswered_query
           [ Early.Poll zero32 (ELM_ERROR 7) 1000 1000;
             Early.Poll zero32 ELM_GETTING_MSG 1100 1100;
             Early.Poll zero32 (ELM_ERROR 7) 1200 1200 ]
           early_machine_polling_rpm).
  - reflexivity.
  - vm_compute. discriminate.
Defined.
